(** * MobileAnalyticsClient: event validation, batching and submission

    A shallow embedding of [src/MobileAnalyticsClient.js].  The client object
    is a record that is threaded through every method; what the client does to
    the outside world (logger calls, timers, [putEvents] requests, the
    per-submission callback) is appended to a chronological trace.  The
    collaborators whose code lives in other modules ([MobileAnalyticsUtilities],
    the JavaScript host) are the fields of [Env].

    The [logger.log] debug lines are not part of the model; [info], [warn] and
    [error] calls are. *)

From Stdlib Require Import ZArith QArith Qminmax String List Lia.
From stdpp Require Import base gmap list strings pretty.

Local Open Scope string_scope.

(** ** JavaScript values *)

(** A JavaScript number: [NaN] or a finite value. *)
Inductive JsNum :=
| NaN
| Fin (q : Q).

(** The values that event fields can hold.  A string is its sequence of code
    units; [JsObject] is any non-array object, which has no [length]. *)
Inductive JsVal :=
| JsUndefined
| JsNull
| JsBool (b : bool)
| JsNumber (n : JsNum)
| JsString (s : string)
| JsObject.

Inductive JsType := TUndefined | TObject | TBoolean | TNumber | TString.

Definition typeof (v : JsVal) : JsType :=
  match v with
  | JsUndefined => TUndefined
  | JsNull | JsObject => TObject
  | JsBool _ => TBoolean
  | JsNumber _ => TNumber
  | JsString _ => TString
  end.

Definition is_number (v : JsVal) : bool :=
  match typeof v with TNumber => true | _ => false end.

Definition is_string (v : JsVal) : bool :=
  match typeof v with TString => true | _ => false end.

(** ToBoolean. *)
Definition truthy (v : JsVal) : bool :=
  match v with
  | JsUndefined | JsNull => false
  | JsBool b => b
  | JsNumber NaN => false
  | JsNumber (Fin q) => negb (Qeq_bool q 0)
  | JsString s => negb (String.eqb s "")
  | JsObject => true
  end.

(** [a - b] on numbers. *)
Definition js_sub (a b : JsNum) : JsNum :=
  match a, b with
  | Fin x, Fin y => Fin (x - y)
  | _, _ => NaN
  end.

(** [a < b] on numbers: false as soon as one side is [NaN]. *)
Definition js_lt (a b : JsNum) : bool :=
  match a, b with
  | Fin x, Fin y => negb (Qle_bool y x)
  | _, _ => false
  end.

(** The [length] property of a value, and [v.length > n]. *)
Definition js_length (v : JsVal) : option nat :=
  match v with
  | JsString s => Some (String.length s)
  | _ => None
  end.

Definition length_gt (v : JsVal) (n : nat) : bool :=
  match js_length v with
  | Some k => (n <? k)%nat
  | None => false
  end.

(** An object used as a dictionary: its own properties in key order, each key
    once.  [Object.keys] lists the keys, [obj[name]] reads a property. *)
Definition JsDict := list (string * JsVal).

Definition Object_keys (o : JsDict) : list string := map fst o.

Fixpoint get_prop (o : JsDict) (name : string) : JsVal :=
  match o with
  | [] => JsUndefined
  | (k, v) :: o' => if String.eqb k name then v else get_prop o' name
  end.

(** Abrupt and normal completion of a call. *)
Inductive JsError :=
| TypeError (msg : string).

Inductive Completion (A : Type) :=
| Normal (a : A)
| Throw (e : JsError).
Arguments Normal {A} a.
Arguments Throw {A} e.

(** ** Events *)

Record Session := {
  session_id : JsVal;
  startTimestamp : JsVal;
  stopTimestamp : option JsVal;
  duration : option JsVal
}.

Record Event := {
  eventType : JsVal;
  timestamp : string;
  session : Session;
  version : JsVal;
  attributes : JsDict;
  metrics : JsDict
}.

(** The [session] argument of [createEvent] and [recordEvent]; a missing
    property reads as [JsUndefined]. *)
Record SessionArg := {
  arg_id : JsVal;
  arg_startTimestamp : JsVal;
  arg_stopTimestamp : JsVal
}.

(** Reading a top-level property of the event object built by [createEvent]:
    it has the six properties of [Event] and no other. *)
Definition event_prop (e : Event) (name : string) : JsVal :=
  if String.eqb name "eventType" then eventType e
  else if String.eqb name "timestamp" then JsString (timestamp e)
  else if String.eqb name "version" then version e
  else if String.eqb name "session" then JsObject
  else if String.eqb name "attributes" then JsObject
  else if String.eqb name "metrics" then JsObject
  else JsUndefined.

(** ** The trace of outside effects *)

(** The error object of a failed [putEvents]. *)
Record AwsError := {
  statusCode : option Z;
  code : option string
}.

(** Callbacks and client contexts are referred to by name. *)
Definition Cb := string.
Definition Ctx := string.

Inductive Effect :=
| LogInfo (msg : string)
| LogWarn (msg : string)
| LogError (msg : string)
| LogFailure (err : AwsError) (data : string)
| ClearTimeout
| SetTimeout (ms : Z)
| PutEvents (batchId : string) (evs : option (list Event)) (ctx : Ctx) (cb : Cb)
| SubmitCallback (cb : Cb) (err : option AwsError) (data : string) (batchId : string).

(** ** Collaborators *)

(** What the client takes from [MobileAnalyticsUtilities] and from the host:
    the size in bytes of a serialized event list, the [n]-th identifier drawn
    from [Util.GUID], [Util.mergeObjects], [JSON.stringify], and the
    millisecond reading of [new Date(v)] for a [v] other than [undefined]. *)
Record Env := {
  getRequestBodySize : list Event -> Z;
  GUID : nat -> string;
  mergeObjects : JsDict -> JsDict -> JsDict;
  JSON_stringify : JsVal -> Completion JsVal;
  Date_parse : JsVal -> JsNum
}.

(** [new Date(v).getTime()]: an undefined argument gives an invalid date. *)
Definition Date_getTime (U : Env) (v : JsVal) : JsNum :=
  match v with
  | JsUndefined => NaN
  | _ => Date_parse U v
  end.

(** The recognised options after [initOptions]. *)
Record Options := {
  autoSubmitEvents : bool;
  autoSubmitInterval : Z;
  batchSizeLimit : Z;
  submitCallback : Cb;
  clientContext : Ctx;
  globalAttributes : JsDict;
  globalMetrics : JsDict
}.

(** ** validateEvent *)

(** The three helpers nested in [validateEvent]. *)
Definition customNameErrorFilter (name : string) : bool :=
  if (String.length name =? 0)%nat then true else (50 <? String.length name)%nat.

Definition customAttrValueErrorFilter (event : Event) (name : string) : bool :=
  truthy (get_prop (attributes event) name)
  && length_gt (get_prop (attributes event) name) 200.

(** [validationError] is a plain nested function that reads [this.logger].
    [this] is the receiver the call site supplies: [Some] logger for a method
    call, [None] when the function is called by its bare name, since the body
    of a class is strict code. *)
Definition validationError (this : option unit) (errorMsg : string)
  : list Effect * Completion (option Event) :=
  match this with
  | Some _ => ([LogError errorMsg], Normal None)
  | None => ([], Throw (TypeError "Cannot read property 'logger' of undefined"))
  end.

(** The receiver of the bare calls [validationError('...')]. *)
Definition bare_call_this : option unit := None.

Definition invalidMetrics (event : Event) : list string :=
  List.filter (fun metricName => negb (is_number (get_prop (metrics event) metricName)))
         (Object_keys (metrics event)).

Definition js_string_eq (v : JsVal) (s : string) : bool :=
  match v with
  | JsString s' => String.eqb s' s
  | _ => false
  end.

Definition validateEvent (event : Event) : list Effect * Completion (option Event) :=
  if negb (js_string_eq (version event) "v2.0") then
    validationError bare_call_this "Event must have version v2.0"
  else if negb (is_string (eventType event)) then
    validationError bare_call_this "Event Type must be a string"
  else if (0 <? length (invalidMetrics event))%nat then
    validationError bare_call_this
      ("Event Metrics must be numeric (" +:+ hd "" (invalidMetrics event) +:+ ")")
  else if (40 <? length (Object_keys (metrics event))
                 + length (Object_keys (attributes event)))%nat then
    validationError bare_call_this "Event Metric and Attribute Count cannot exceed 40"
  else if (0 <? length (List.filter customNameErrorFilter (Object_keys (attributes event))))%nat then
    validationError bare_call_this "Event Attribute names must be 1-50 characters"
  else if (0 <? length (List.filter customNameErrorFilter (Object_keys (metrics event))))%nat then
    validationError bare_call_this "Event Metric names must be 1-50 characters"
  else if (0 <? length (List.filter (customAttrValueErrorFilter event)
                               (Object_keys (attributes event))))%nat then
    validationError bare_call_this
      "Event Attribute values cannot be longer than 200 characters"
  else ([], Normal (Some event)).

(** ** createEvent *)

(** [obj[name] = v]. *)
Fixpoint set_prop (o : JsDict) (name : string) (v : JsVal) : JsDict :=
  match o with
  | [] => [(name, v)]
  | (k, x) :: o' =>
      if String.eqb k name then (k, v) :: o' else (k, x) :: set_prop o' name v
  end.

(** The [forEach] over [Object.keys(attributes)] that turns every value that
    is not a string into its JSON text.  The [catch] clause reads
    [this.logger] inside a plain callback, where [this] is undefined: a
    [JSON.stringify] that throws ends the call with a [TypeError]. *)
Fixpoint stringifyAttributes (U : Env) (names : list string) (attrs : JsDict)
  : Completion JsDict :=
  match names with
  | [] => Normal attrs
  | name :: names' =>
      if is_string (get_prop attrs name) then stringifyAttributes U names' attrs
      else
        match JSON_stringify U (get_prop attrs name) with
        | Normal v => stringifyAttributes U names' (set_prop attrs name v)
        | Throw _ => Throw (TypeError "Cannot read property 'logger' of undefined")
        end
  end.

(** [nowISO] is [new Date().toISOString()] at the time of the call; an omitted
    [attributes] or [metrics] argument is [None]. *)
Definition createEvent (U : Env) (opts : Options) (nowISO : string)
    (eventType : JsVal) (sess : SessionArg) (attributes metrics : option JsDict)
  : list Effect * Completion (option Event) :=
  let attributes := mergeObjects U (default [] attributes) (globalAttributes opts) in
  let metrics := mergeObjects U (default [] metrics) (globalMetrics opts) in
  match stringifyAttributes U (Object_keys attributes) attributes with
  | Throw e => ([], Throw e)
  | Normal attributes =>
      let event :=
        {| eventType := eventType;
           timestamp := nowISO;
           session := {| session_id := arg_id sess;
                         startTimestamp := arg_startTimestamp sess;
                         stopTimestamp := None;
                         duration := None |};
           version := JsString "v2.0";
           attributes := attributes;
           metrics := metrics |} in
      let event :=
        if truthy (arg_stopTimestamp sess) then
          {| eventType := eventType;
             timestamp := nowISO;
             session :=
               {| session_id := arg_id sess;
                  startTimestamp := arg_startTimestamp sess;
                  stopTimestamp := Some (arg_stopTimestamp sess);
                  duration :=
                    Some (JsNumber
                            (js_sub (Date_getTime U (event_prop event "stopTimestamp"))
                                    (Date_getTime U (event_prop event "startTimestamp")))) |};
             version := JsString "v2.0";
             attributes := attributes;
             metrics := metrics |}
        else event in
      validateEvent event
  end.

(** ** The client object *)

(** The three persisted slots; [storage.set] stores a snapshot of the value. *)
Record Storage := {
  EVENTS : list Event;
  BATCHES : gmap string (list Event);
  BATCH_INDEX : list string
}.

(** [this.outputs], the storage, the number of [Util.GUID] calls made so far
    and the trace.  [isThrottled] starts out undefined and is only ever tested
    for truth, so undefined is [false]; an undefined [lastSubmitTimestamp] is
    [None]. *)
Record Client := {
  events : list Event;
  batches : gmap string (list Event);
  batchIndex : list string;
  batchesInFlight : gmap string Z;
  isThrottled : bool;
  lastSubmitTimestamp : option Z;
  storage : Storage;
  guidCalls : nat;
  trace : list Effect
}.

Definition set_events (v : list Event) (c : Client) : Client :=
  {| events := v; batches := batches c; batchIndex := batchIndex c;
     batchesInFlight := batchesInFlight c; isThrottled := isThrottled c;
     lastSubmitTimestamp := lastSubmitTimestamp c; storage := storage c;
     guidCalls := guidCalls c; trace := trace c |}.

Definition set_batches (v : gmap string (list Event)) (c : Client) : Client :=
  {| events := events c; batches := v; batchIndex := batchIndex c;
     batchesInFlight := batchesInFlight c; isThrottled := isThrottled c;
     lastSubmitTimestamp := lastSubmitTimestamp c; storage := storage c;
     guidCalls := guidCalls c; trace := trace c |}.

Definition set_batchIndex (v : list string) (c : Client) : Client :=
  {| events := events c; batches := batches c; batchIndex := v;
     batchesInFlight := batchesInFlight c; isThrottled := isThrottled c;
     lastSubmitTimestamp := lastSubmitTimestamp c; storage := storage c;
     guidCalls := guidCalls c; trace := trace c |}.

Definition set_batchesInFlight (v : gmap string Z) (c : Client) : Client :=
  {| events := events c; batches := batches c; batchIndex := batchIndex c;
     batchesInFlight := v; isThrottled := isThrottled c;
     lastSubmitTimestamp := lastSubmitTimestamp c; storage := storage c;
     guidCalls := guidCalls c; trace := trace c |}.

Definition set_isThrottled (v : bool) (c : Client) : Client :=
  {| events := events c; batches := batches c; batchIndex := batchIndex c;
     batchesInFlight := batchesInFlight c; isThrottled := v;
     lastSubmitTimestamp := lastSubmitTimestamp c; storage := storage c;
     guidCalls := guidCalls c; trace := trace c |}.

Definition set_lastSubmitTimestamp (v : option Z) (c : Client) : Client :=
  {| events := events c; batches := batches c; batchIndex := batchIndex c;
     batchesInFlight := batchesInFlight c; isThrottled := isThrottled c;
     lastSubmitTimestamp := v; storage := storage c;
     guidCalls := guidCalls c; trace := trace c |}.

Definition set_storage (v : Storage) (c : Client) : Client :=
  {| events := events c; batches := batches c; batchIndex := batchIndex c;
     batchesInFlight := batchesInFlight c; isThrottled := isThrottled c;
     lastSubmitTimestamp := lastSubmitTimestamp c; storage := v;
     guidCalls := guidCalls c; trace := trace c |}.

Definition set_guidCalls (v : nat) (c : Client) : Client :=
  {| events := events c; batches := batches c; batchIndex := batchIndex c;
     batchesInFlight := batchesInFlight c; isThrottled := isThrottled c;
     lastSubmitTimestamp := lastSubmitTimestamp c; storage := storage c;
     guidCalls := v; trace := trace c |}.

(** Appending one effect to the trace. *)
Definition emit (e : Effect) (c : Client) : Client :=
  {| events := events c; batches := batches c; batchIndex := batchIndex c;
     batchesInFlight := batchesInFlight c; isThrottled := isThrottled c;
     lastSubmitTimestamp := lastSubmitTimestamp c; storage := storage c;
     guidCalls := guidCalls c; trace := trace c ++ [e] |}.

(** [this.storage.set(this.StorageKeys.K, this.outputs.k)] for the three slots. *)
Definition persist_EVENTS (c : Client) : Client :=
  set_storage {| EVENTS := events c; BATCHES := BATCHES (storage c);
                 BATCH_INDEX := BATCH_INDEX (storage c) |} c.

Definition persist_BATCHES (c : Client) : Client :=
  set_storage {| EVENTS := EVENTS (storage c); BATCHES := batches c;
                 BATCH_INDEX := BATCH_INDEX (storage c) |} c.

Definition persist_BATCH_INDEX (c : Client) : Client :=
  set_storage {| EVENTS := EVENTS (storage c); BATCHES := BATCHES (storage c);
                 BATCH_INDEX := batchIndex c |} c.

(** ** Batch generation *)

Definition HARD_CAP : Z := 512000.

Definition persistBatch (U : Env) (eventBatch : list Event) (c : Client) : bool * Client :=
  if (getRequestBodySize U eventBatch <? HARD_CAP)%Z then
    let batchId := GUID U (guidCalls c) in
    let c := set_guidCalls (S (guidCalls c)) c in
    let c := set_batches (<[batchId := eventBatch]> (batches c)) c in
    let c := persist_BATCHES c in
    let c := set_batchIndex (batchIndex c ++ [batchId]) c in
    let c := persist_BATCH_INDEX c in
    (true, c)
  else (false, emit (LogError "Events too large") c).

(** The inner loop of [generateBatches]: lower [lastIndex] while it is above 1
    and the first [lastIndex] events are larger than [batchSizeLimit]. *)
Fixpoint findLastIndex (U : Env) (opts : Options) (evs : list Event) (lastIndex : nat) : nat :=
  match lastIndex with
  | S (S _ as lower) =>
      if (batchSizeLimit opts <? getRequestBodySize U (take lastIndex evs))%Z
      then findLastIndex U opts evs lower
      else lastIndex
  | _ => lastIndex
  end.

(** One turn of the outer loop, entered with a non-empty queue. *)
Definition generateBatches_turn (U : Env) (opts : Options) (c : Client) : Client :=
  let lastIndex := findLastIndex U opts (events c) (length (events c)) in
  let '(persisted, c1) := persistBatch U (take lastIndex (events c)) c in
  if persisted then persist_EVENTS (set_events (drop lastIndex (events c1)) c1)
  else c1.

(** The outer loop [while (this.outputs.events.length > 0)].  Nothing in the
    source bounds the number of turns: [fuel] does, and [None] is a run that
    is still looping when the fuel is spent. *)
Fixpoint generateBatches (U : Env) (opts : Options) (fuel : nat) (c : Client) : option Client :=
  match events c with
  | [] => Some c
  | _ :: _ =>
      match fuel with
      | O => None
      | S fuel' => generateBatches U opts fuel' (generateBatches_turn U opts c)
      end
  end.

(** ** Submission *)

(** The [options] object of [submitEvents], [submitAllBatches] and
    [submitBatchById]; an absent property is [None]. *)
Record SubmitOptions := {
  opt_batchId : option string;
  opt_submitCallback : option Cb;
  opt_clientContext : option Ctx
}.

(** [now] is the reading of [Util.timestamp()] during the call.  The guard
    [!options.batchId] holds for an undefined id and for the empty string. *)
Definition submitBatchById (opts : Options) (now : Z) (options : SubmitOptions) (c : Client)
  : option string * Client :=
  match opt_batchId options with
  | Some batchId =>
      if String.eqb batchId "" then
        (None, emit (LogError "Invalid Options passed to submitBatchById") c)
      else
        let cb := default (submitCallback opts) (opt_submitCallback options) in
        let ctx := default (clientContext opts) (opt_clientContext options) in
        let evs := batches c !! batchId in
        let c := set_batchesInFlight (<[batchId := now]> (batchesInFlight c)) c in
        (Some batchId, emit (PutEvents batchId evs ctx cb) c)
  | None => (None, emit (LogError "Invalid Options passed to submitBatchById") c)
  end.

(** [that.outputs.batchesInFlight[id]] as a condition: a recorded dispatch
    time that is not zero. *)
Definition inFlight (c : Client) (id : string) : bool :=
  match batchesInFlight c !! id with
  | Some t => negb (t =? 0)%Z
  | None => false
  end.

(** The [forEach] of [submitAllBatches] over the remaining ids. *)
Fixpoint submitAllBatches_each (opts : Options) (now : Z) (ids : list string)
    (options : SubmitOptions) (indices : list (option string)) (c : Client)
  : list (option string) * Client :=
  match ids with
  | [] => (indices, c)
  | id :: ids' =>
      let options :=
        {| opt_batchId := Some id;
           opt_submitCallback := opt_submitCallback options;
           opt_clientContext :=
             Some (default (clientContext opts) (opt_clientContext options)) |} in
      if negb (inFlight c id) then
        let '(r, c') := submitBatchById opts now options c in
        submitAllBatches_each opts now ids' options (indices ++ [r]) c'
      else submitAllBatches_each opts now ids' options indices c
  end.

Definition submitAllBatches (opts : Options) (now : Z) (options : SubmitOptions) (c : Client)
  : list (option string) * Client :=
  let options :=
    {| opt_batchId := opt_batchId options;
       opt_submitCallback :=
         Some (default (submitCallback opts) (opt_submitCallback options));
       opt_clientContext := opt_clientContext options |} in
  submitAllBatches_each opts now (batchIndex c) options [] c.

(** [array.indexOf(x)], with [None] for [-1]. *)
Fixpoint indexOf (l : list string) (x : string) : option nat :=
  match l with
  | [] => None
  | y :: l' => if String.eqb y x then Some O else S <$> indexOf l' x
  end.

Definition clearBatchById (batchId : string) (c : Client) : Client :=
  match indexOf (batchIndex c) batchId with
  | Some i =>
      let c := set_batches (delete batchId (batches c)) c in
      let c := set_batchIndex (delete i (batchIndex c)) c in
      let c := persist_BATCH_INDEX c in
      persist_BATCHES c
  | None => c
  end.

Definition NON_RETRYABLE_EXCEPTIONS : list string :=
  ["BadRequestException"; "SerializationException"; "ValidationException"].

(** [NON_RETRYABLE_EXCEPTIONS.indexOf(err.code) < 0]. *)
Definition retryable (err : AwsError) : bool :=
  match code err with
  | Some k => negb (bool_decide (is_Some (indexOf NON_RETRYABLE_EXCEPTIONS k)))
  | None => true
  end.

Definition is_ThrottlingException (err : AwsError) : bool :=
  match code err with
  | Some k => String.eqb k "ThrottlingException"
  | None => false
  end.

(** [err.statusCode === undefined || err.statusCode === 400]. *)
Definition status_undefined_or_400 (err : AwsError) : bool :=
  match statusCode err with
  | None => true
  | Some s => (s =? 400)%Z
  end.

(** The function returned by [handlePutEventsResponse(batchId, callback)],
    applied to [(err, data)]; [err] is [None] on success.  [now] is the clock
    reading of the flush it may start.  The caller's callback is recorded in
    the trace and leaves the client as it is. *)
Definition handlePutEventsResponse (opts : Options) (batchId : string) (callback : Cb)
    (err : option AwsError) (data : string) (now : Z) (c : Client) : Client :=
  let wasThrottled := isThrottled c in
  let '(clearBatch, c) :=
    match err with
    | Some e =>
        let c := emit (LogFailure e data) c in
        if status_undefined_or_400 e then
          let clearBatch := if retryable e then false else true in
          let c := set_isThrottled (is_ThrottlingException e) c in
          let c := if isThrottled c
                   then emit (LogWarn "Application is currently throttled") c
                   else c in
          (clearBatch, c)
        else (true, c)
    | None =>
        let c := emit (LogInfo "Events Submitted Successfully") c in
        (true, set_isThrottled false c)
    end in
  let c := if clearBatch then clearBatchById batchId c else c in
  let c := set_batchesInFlight (delete batchId (batchesInFlight c)) c in
  let c := emit (SubmitCallback callback err data batchId) c in
  if wasThrottled && negb (isThrottled c) then
    let c := emit (LogWarn "Was throttled flushing remaining batches") c in
    snd (submitAllBatches opts now
           {| opt_batchId := None; opt_submitCallback := Some callback;
              opt_clientContext := None |} c)
  else c.

(** ** The submission gate *)

(** [timestamp = timestamp || Util.timestamp()], then the squared elapsed time
    over [60000] squared; an undefined [lastSubmitTimestamp] gives [NaN]. *)
Definition throttlingSuppressionFunction (timestamp : option Z) (now : Z) (c : Client) : JsNum :=
  let timestamp :=
    match timestamp with
    | Some t => if (t =? 0)%Z then now else t
    | None => now
    end in
  match lastSubmitTimestamp c with
  | Some last => Fin (inject_Z ((timestamp - last) ^ 2) / inject_Z (60000 ^ 2))
  | None => NaN
  end.

(** [this.outputs.batches.length === 0].  [batches] is the plain object that
    maps a batch id to its events, so [.length] reads the property named
    "length": the array stored under that id, or undefined.  Neither is
    strictly equal to the number 0. *)
Definition batches_length_is_0 (c : Client) : bool :=
  match batches c !! "length" with
  | Some _ => false
  | None => false
  end.

(** [this.outputs.lastSubmitTimestamp && now - lastSubmitTimestamp < 1000]. *)
Definition submitted_under_a_second_ago (now : Z) (c : Client) : bool :=
  match lastSubmitTimestamp c with
  | Some last => negb (last =? 0)%Z && (now - last <? 1000)%Z
  | None => false
  end.

(** The [if] / [else if] chain that sets [warnMessage]; [rnd] is the value of
    [Math.random()]. *)
Definition warnMessage (now : Z) (rnd : Q) (c : Client) : option string :=
  if isThrottled c && js_lt (throttlingSuppressionFunction None now c) (Fin rnd) then
    Some "Prevented submission while throttled"
  else if (0 <? size (batchesInFlight c))%nat then
    Some "Prevented submission while batches are in flight"
  else if batches_length_is_0 c && (length (events c) =? 0)%nat then
    Some "No batches or events to be submitted"
  else if submitted_under_a_second_ago now c then
    Some "Prevented multiple submissions in under a second"
  else None.

(** The returned array holds batch ids; an entry is [None] where
    [submitBatchById] returned undefined.  The result is [None] when
    [generateBatches] is still looping after [fuel] turns. *)
Definition submitEvents (U : Env) (opts : Options) (fuel : nat) (now : Z) (rnd : Q)
    (options : SubmitOptions) (c : Client) : option (list (option string) * Client) :=
  let options :=
    {| opt_batchId := opt_batchId options;
       opt_submitCallback :=
         Some (default (submitCallback opts) (opt_submitCallback options));
       opt_clientContext := opt_clientContext options |} in
  let c :=
    if autoSubmitEvents opts
    then emit (SetTimeout (autoSubmitInterval opts)) (emit ClearTimeout c)
    else c in
  match warnMessage now rnd c with
  | Some msg => Some ([], emit (LogWarn msg) c)
  | None =>
      match generateBatches U opts fuel c with
      | None => None
      | Some c =>
          let c := set_lastSubmitTimestamp (Some now) c in
          if isThrottled c then
            let c := emit (LogWarn "Is throttled submitting first batch") c in
            let options :=
              {| opt_batchId := batchIndex c !! O;
                 opt_submitCallback := opt_submitCallback options;
                 opt_clientContext := opt_clientContext options |} in
            let '(r, c) := submitBatchById opts now options c in
            Some ([r], c)
          else Some (submitAllBatches opts now options c)
      end
  end.

(** ** Recording events *)

(** [pushEvent] returns the index of the event in the queue, [-1] for a missing
    event. *)
Definition pushEvent (event : option Event) (c : Client) : Z * Client :=
  match event with
  | None => ((-1)%Z, c)
  | Some e =>
      let c := set_events (events c ++ [e]) c in
      let eventIndex := Z.of_nat (length (events c)) in
      ((eventIndex - 1)%Z, persist_EVENTS c)
  end.

(** [recordEvent]: the outer [option] is [None] when the [submitEvents] it
    starts does not return within [fuel] turns. *)
Definition recordEvent (U : Env) (opts : Options) (fuel : nat) (nowISO : string)
    (now : Z) (rnd : Q) (eventType : JsVal) (sess : SessionArg)
    (attributes metrics : option JsDict) (c : Client)
  : option (Completion (option Event) * Client) :=
  let '(log, r) := createEvent U opts nowISO eventType sess attributes metrics in
  let c := fold_left (fun c e => emit e c) log c in
  match r with
  | Throw e => Some (Throw e, c)
  | Normal None => Some (Normal None, c)
  | Normal (Some event) =>
      let '(index, c) := pushEvent (Some event) c in
      if (batchSizeLimit opts <=? getRequestBodySize U (events c))%Z then
        match submitEvents U opts fuel now rnd
                {| opt_batchId := None; opt_submitCallback := None;
                   opt_clientContext := None |} c with
        | None => None
        | Some (_, c) => Some (Normal (events c !! Z.to_nat index), c)
        end
      else Some (Normal (events c !! Z.to_nat index), c)
  end.

(** ** Monetization events *)

(** [a || b]. *)
Definition js_or (a b : JsVal) : JsVal := if truthy a then a else b.

(** The [monetizationDetails] argument; a missing property reads as
    [JsUndefined]. *)
Record MonetizationDetails := {
  currency : JsVal;
  productId : JsVal;
  quantity : JsVal;
  price : JsVal
}.

Definition recordMonetizationEvent (U : Env) (opts : Options) (fuel : nat)
    (nowISO : string) (now : Z) (rnd : Q) (sess : SessionArg)
    (monetizationDetails : MonetizationDetails) (attributes metrics : option JsDict)
    (c : Client) : option (Completion (option Event) * Client) :=
  let attributes := default [] attributes in
  let metrics := default [] metrics in
  let attributes :=
    set_prop attributes "_currency"
      (js_or (currency monetizationDetails) (get_prop attributes "_currency")) in
  let attributes :=
    set_prop attributes "_product_id"
      (js_or (productId monetizationDetails) (get_prop attributes "_product_id")) in
  let metrics :=
    set_prop metrics "_quantity"
      (js_or (quantity monetizationDetails) (get_prop metrics "_quantity")) in
  let '(attributes, metrics) :=
    if is_number (price monetizationDetails) then
      (attributes,
       set_prop metrics "_item_price"
         (js_or (price monetizationDetails) (get_prop metrics "_item_price")))
    else
      (set_prop attributes "_item_price_formatted"
         (js_or (price monetizationDetails) (get_prop attributes "_item_price_formatted")),
       metrics) in
  recordEvent U opts fuel nowISO now rnd (JsString "_monetization.purchase") sess
    (Some attributes) (Some metrics) c.

(** ** Properties the statements below are about *)

(** The seven checks of the validator as the specification lists them. *)
Definition schema_ok (event : Event) : bool :=
  js_string_eq (version event) "v2.0"
  && is_string (eventType event)
  && forallb (fun name => is_number (get_prop (metrics event) name))
             (Object_keys (metrics event))
  && (length (attributes event) + length (metrics event) <=? 40)%nat
  && forallb (fun name => (1 <=? String.length name)%nat && (String.length name <=? 50)%nat)
             (Object_keys (attributes event))
  && forallb (fun name => (1 <=? String.length name)%nat && (String.length name <=? 50)%nat)
             (Object_keys (metrics event))
  && forallb (fun name => negb (length_gt (get_prop (attributes event) name) 200))
             (Object_keys (attributes event)).

(** A batch id is in the Batch Store, or gone from it. *)
Definition batch_present (batchId : string) (c : Client) : Prop :=
  is_Some (batches c !! batchId) ∧ batchId ∈ batchIndex c.

Definition batch_absent (batchId : string) (c : Client) : Prop :=
  batches c !! batchId = None ∧ batchId ∉ batchIndex c.

(** The invariant of the Batch Store: no id twice in [batchIndex], and the ids
    of [batchIndex] are the keys of [batches]. *)
Definition store_inv (c : Client) : Prop :=
  NoDup (batchIndex c) ∧ dom (batches c) = list_to_set (batchIndex c).

(** Both batch slots of the storage hold the current values. *)
Definition batch_slots_persisted (c : Client) : Prop :=
  BATCHES (storage c) = batches c ∧ BATCH_INDEX (storage c) = batchIndex c.

(** The events stored under a batch id. *)
Definition batch_events (c : Client) (batchId : string) : list Event :=
  default [] (batches c !! batchId).

(** The batch ids of the [putEvents] requests of a trace, in order. *)
Fixpoint dispatched (t : list Effect) : list string :=
  match t with
  | [] => []
  | PutEvents batchId _ _ _ :: t' => batchId :: dispatched t'
  | _ :: t' => dispatched t'
  end.

(** The messages passed to [logger.warn] and [logger.error] in a trace. *)
Fixpoint warnings (t : list Effect) : list string :=
  match t with
  | [] => []
  | LogWarn msg :: t' => msg :: warnings t'
  | _ :: t' => warnings t'
  end.

Fixpoint errors (t : list Effect) : list string :=
  match t with
  | [] => []
  | LogError msg :: t' => msg :: errors t'
  | _ :: t' => errors t'
  end.

(** The probability the specification gives for passing the throttle gate
    after [elapsed] milliseconds. *)
Definition allowProbability (elapsed : Z) : Q :=
  Qmin 1 (inject_Z (elapsed ^ 2) / inject_Z (60000 ^ 2)).

(** The throttle gate lets the call through. *)
Definition passes_throttle_gate (now : Z) (rnd : Q) (c : Client) : Prop :=
  warnMessage now rnd c ≠ Some "Prevented submission while throttled".

(** Every field but [batchesInFlight] and [trace] is the same in both. *)
Definition same_store (c1 c0 : Client) : Prop :=
  events c1 = events c0 ∧ batches c1 = batches c0 ∧ batchIndex c1 = batchIndex c0
  ∧ isThrottled c1 = isThrottled c0 ∧ lastSubmitTimestamp c1 = lastSubmitTimestamp c0
  ∧ storage c1 = storage c0 ∧ guidCalls c1 = guidCalls c0.

(** The responses after which the handler clears the batch, and the throttle
    flag it leaves. *)
Definition clears_batch (err : option AwsError) : bool :=
  match err with
  | None => true
  | Some e => if status_undefined_or_400 e then negb (retryable e) else true
  end.

Definition isThrottled_after (before : bool) (err : option AwsError) : bool :=
  match err with
  | None => false
  | Some e => if status_undefined_or_400 e then is_ThrottlingException e else before
  end.

(** The client at the moment the caller's callback has returned. *)
Definition after_callback (batchId : string) (callback : Cb) (err : option AwsError)
    (data : string) (c : Client) : Client :=
  let c :=
    match err with
    | Some e =>
        let c := emit (LogFailure e data) c in
        if status_undefined_or_400 e then
          let c := set_isThrottled (is_ThrottlingException e) c in
          if isThrottled c then emit (LogWarn "Application is currently throttled") c else c
        else c
    | None => set_isThrottled false (emit (LogInfo "Events Submitted Successfully") c)
    end in
  let c := if clears_batch err then clearBatchById batchId c else c in
  let c := set_batchesInFlight (delete batchId (batchesInFlight c)) c in
  emit (SubmitCallback callback err data batchId) c.

(** The pending batches that are not in flight, in [batchIndex] order, and
    the [putEvents] requests that dispatch a list of batches. *)
Definition pending_not_in_flight (c : Client) : list string :=
  List.filter (fun id => negb (inFlight c id)) (batchIndex c).

Definition requests (cb : Cb) (ctx : Ctx) (c : Client) (ids : list string) : list Effect :=
  map (fun id => PutEvents id (batches c !! id) ctx cb) ids.

(** All three slots of the storage hold the current values. *)
Definition all_persisted (c : Client) : Prop :=
  EVENTS (storage c) = events c
  ∧ BATCHES (storage c) = batches c
  ∧ BATCH_INDEX (storage c) = batchIndex c.

(** The calls of the per-submission callback in a trace, in order. *)
Fixpoint callbacks (t : list Effect) : list (Cb * option AwsError * string * string) :=
  match t with
  | [] => []
  | SubmitCallback cb err data batchId :: t' => (cb, err, data, batchId) :: callbacks t'
  | _ :: t' => callbacks t'
  end.

(** The timer effects at the start of [submitEvents]. *)
Definition rearmed (opts : Options) (c : Client) : Client :=
  if autoSubmitEvents opts
  then emit (SetTimeout (autoSubmitInterval opts)) (emit ClearTimeout c)
  else c.

(** ** Sample data *)

Module Sample.

Fixpoint repeat_string (n : nat) (s : string) : string :=
  match n with
  | O => ""
  | S n' => s +:+ repeat_string n' s
  end.

Definition value_size (v : JsVal) : Z :=
  match v with
  | JsString s => Z.of_nat (String.length s) + 2
  | _ => 4
  end.

Definition dict_size (d : JsDict) : Z :=
  fold_right (fun kv acc => Z.of_nat (String.length (fst kv)) + value_size (snd kv) + 4 + acc)%Z
             2%Z d.

Definition event_size (e : Event) : Z :=
  (value_size (eventType e) + Z.of_nat (String.length (timestamp e))
   + dict_size (attributes e) + dict_size (metrics e) + 150)%Z.

(** A size that counts the characters of the strings of each event. *)
Definition bodySize (evs : list Event) : Z :=
  fold_right (fun e acc => event_size e + 1 + acc)%Z 2%Z evs.

(** Keep the values of [override], add the keys only [initial] has. *)
Fixpoint merge (override initial : JsDict) : JsDict :=
  match initial with
  | [] => override
  | (k, v) :: initial' =>
      merge (if truthy (get_prop override k) then override else set_prop override k v)
            initial'
  end.

Definition stringify (v : JsVal) : Completion JsVal :=
  match v with
  | JsUndefined => Normal JsUndefined
  | JsNull => Normal (JsString "null")
  | JsBool true => Normal (JsString "true")
  | JsBool false => Normal (JsString "false")
  | JsNumber _ => Normal (JsString "0")
  | JsString s => Normal (JsString s)
  | JsObject => Normal (JsString "{}")
  end.

Definition start_iso := "2014-06-30T19:07:47.885Z".
Definition stop_iso := "2014-06-30T19:07:48.885Z".

Definition parse (v : JsVal) : JsNum :=
  match v with
  | JsString s =>
      if String.eqb s start_iso then Fin (inject_Z 1404155267885)
      else if String.eqb s stop_iso then Fin (inject_Z 1404155268885)
      else NaN
  | JsNumber n => n
  | _ => NaN
  end.

Definition env : Env :=
  {| getRequestBodySize := bodySize;
     GUID := fun n => "batch-" +:+ pretty n;
     mergeObjects := merge;
     JSON_stringify := stringify;
     Date_parse := parse |}.

Definition opts : Options :=
  {| autoSubmitEvents := true;
     autoSubmitInterval := 10000;
     batchSizeLimit := 256000;
     submitCallback := "submitCallback";
     clientContext := "clientContext";
     globalAttributes := [];
     globalMetrics := [] |}.

Definition closed_session : SessionArg :=
  {| arg_id := JsString "session-1";
     arg_startTimestamp := JsString start_iso;
     arg_stopTimestamp := JsString stop_iso |}.

Definition event (ty : string) (attrs mets : JsDict) : Event :=
  {| eventType := JsString ty;
     timestamp := start_iso;
     session := {| session_id := JsString "session-1";
                   startTimestamp := JsString start_iso;
                   stopTimestamp := None;
                   duration := None |};
     version := JsString "v2.0";
     attributes := attrs;
     metrics := mets |}.

(** [n] attributes with distinct names and the same value. *)
Definition numbered (n : nat) (v : JsVal) : JsDict :=
  map (fun i => ("a" +:+ pretty i, v)) (seq 0 n).

(** An event whose type alone is 512000 characters long. *)
Definition oversized : Event :=
  event (repeat_string (Z.to_nat 512000) "a") [] [].

Definition empty_storage : Storage :=
  {| EVENTS := []; BATCHES := ∅; BATCH_INDEX := [] |}.

(** The client right after start-up with nothing persisted. *)
Definition fresh : Client :=
  {| events := []; batches := ∅; batchIndex := [];
     batchesInFlight := ∅; isThrottled := false;
     lastSubmitTimestamp := None; storage := empty_storage;
     guidCalls := 0; trace := [] |}.

(** A client with the given queue and nothing else. *)
Definition queued (evs : list Event) : Client :=
  persist_EVENTS (set_events evs fresh).

(** A client holding two batches, the first of them in flight. *)
Definition two_batches : Client :=
  let c := snd (persistBatch env [event "one" [] []] fresh) in
  let c := snd (persistBatch env [event "two" [] []] c) in
  set_batchesInFlight {[ "batch-0" := 1404155270000%Z ]} c.

(** The same client while throttled. *)
Definition throttled_two_batches : Client := set_isThrottled true two_batches.

(** Options with a soft limit that two sample events fit under and three do
    not, and a queue of three events. *)
Definition small_batches : Options :=
  {| autoSubmitEvents := true;
     autoSubmitInterval := 10000;
     batchSizeLimit := 400;
     submitCallback := "submitCallback";
     clientContext := "clientContext";
     globalAttributes := [];
     globalMetrics := [] |}.

Definition three_events : list Event :=
  [event "one" [] []; event "two" [] []; event "three" [] []].


Definition server_error : AwsError :=
  {| statusCode := Some 500%Z; code := Some "InternalFailure" |}.

Definition throttling_error : AwsError :=
  {| statusCode := Some 400%Z; code := Some "ThrottlingException" |}.

Definition validation_error : AwsError :=
  {| statusCode := Some 400%Z; code := Some "ValidationException" |}.

(** [submitEvents()] called without options. *)
Definition no_options : SubmitOptions :=
  {| opt_batchId := None; opt_submitCallback := None; opt_clientContext := None |}.

(** A client with two queued events. *)
Definition two_queued : Client := queued [event "one" [] []; event "two" [] []].

(** A purchase with a price and no quantity. *)
Definition purchase_without_quantity : MonetizationDetails :=
  {| currency := JsString "USD";
     productId := JsString "sword";
     quantity := JsUndefined;
     price := JsNumber (Fin (199 # 100)) |}.

End Sample.

(** * Theorems *)

(** ** Validation *)

Lemma filter_nonempty {A} (f : A -> bool) (l : list A) :
  (0 <? length (List.filter f l))%nat = negb (forallb (fun x => negb (f x)) l).
Proof.
  induction l as [|x l IH]; simpl; [reflexivity|].
  destruct (f x); simpl; [reflexivity | exact IH].
Qed.

Lemma forallb_pointwise {A} (f g : A -> bool) (l : list A) :
  (forall x, f x = g x) -> forallb f l = forallb g l.
Proof.
  intros E. induction l as [|x l IH]; simpl; [reflexivity|].
  rewrite E, IH. reflexivity.
Qed.

Lemma name_in_range (name : string) :
  negb (customNameErrorFilter name)
  = (1 <=? String.length name)%nat && (String.length name <=? 50)%nat.
Proof.
  unfold customNameErrorFilter.
  destruct (String.length name) as [|n]; simpl; [reflexivity|].
  destruct (Nat.ltb_spec 50 (S n)), (Nat.leb_spec n 49); simpl; try reflexivity; lia.
Qed.

Lemma long_value_is_truthy (v : JsVal) : length_gt v 200 = true -> truthy v = true.
Proof.
  destruct v as [| | |n|s|]; unfold length_gt; simpl; try discriminate.
  destruct s; simpl; [discriminate | reflexivity].
Qed.

Lemma value_in_range (event : Event) (name : string) :
  negb (customAttrValueErrorFilter event name)
  = negb (length_gt (get_prop (attributes event) name) 200).
Proof.
  unfold customAttrValueErrorFilter.
  destruct (length_gt _ 200) eqn:E.
  - rewrite (long_value_is_truthy _ E). reflexivity.
  - rewrite andb_false_r. reflexivity.
Qed.

Lemma count_in_range (event : Event) :
  (40 <? length (Object_keys (metrics event)) + length (Object_keys (attributes event)))%nat
  = negb (length (attributes event) + length (metrics event) <=? 40)%nat.
Proof.
  unfold Object_keys. rewrite !length_map.
  destruct (Nat.ltb_spec 40 (length (metrics event) + length (attributes event))),
           (Nat.leb_spec (length (attributes event) + length (metrics event)) 40);
    simpl; try reflexivity; lia.
Qed.

(** What [validateEvent] returns is the event it was given. *)
Lemma validateEvent_returned (event ev : Event) (log : list Effect) :
  validateEvent event = (log, Normal (Some ev)) -> ev = event.
Proof.
  unfold validateEvent, validationError, bare_call_this.
  repeat match goal with
         | |- context [if ?b then _ else _] => destruct b; [discriminate|]
         end.
  intros H. injection H as _ H. auto.
Qed.

(** C5. [validateEvent] returns the event exactly when the seven schema checks
    hold.  When one of them fails it does not report and return a rejection:
    the call ends with a [TypeError] and nothing has been logged. *)
Theorem validateEvent_rejection_throws (event : Event) :
  validateEvent event =
    if schema_ok event then ([], Normal (Some event))
    else ([], Throw (TypeError "Cannot read property 'logger' of undefined")).
Proof.
  unfold validateEvent, schema_ok, invalidMetrics.
  rewrite !filter_nonempty, count_in_range.
  rewrite (forallb_pointwise _ _ (Object_keys (metrics event))
             (fun x => negb_involutive (is_number (get_prop (metrics event) x)))).
  rewrite (forallb_pointwise _ _ (Object_keys (attributes event)) name_in_range).
  rewrite (forallb_pointwise _ _ (Object_keys (metrics event)) name_in_range).
  rewrite (forallb_pointwise _ _ (Object_keys (attributes event)) (value_in_range event)).
  destruct (js_string_eq (version event) "v2.0"); simpl; [|reflexivity].
  destruct (is_string (eventType event)); simpl; [|reflexivity].
  destruct (forallb _ (Object_keys (metrics event))); simpl; [|reflexivity].
  destruct (_ <=? 40)%nat; simpl; [|reflexivity].
  destruct (forallb _ (Object_keys (attributes event))); simpl; [|reflexivity].
  destruct (forallb _ (Object_keys (metrics event))); simpl; [|reflexivity].
  destruct (forallb _ (Object_keys (attributes event))); reflexivity.
Qed.

(** The boundaries: 40 entries and a 200-character value pass, 41 entries and
    a 201-character value end in the [TypeError]. *)
Example validateEvent_40_entries :
  let e := Sample.event "level" (Sample.numbered 30 (JsString "v"))
                        (Sample.numbered 10 (JsNumber (Fin 1))) in
  validateEvent e = ([], Normal (Some e)).
Proof. reflexivity. Qed.

Example validateEvent_41_entries :
  validateEvent (Sample.event "level" (Sample.numbered 31 (JsString "v"))
                              (Sample.numbered 10 (JsNumber (Fin 1))))
  = ([], Throw (TypeError "Cannot read property 'logger' of undefined")).
Proof. reflexivity. Qed.

Example validateEvent_200_characters :
  let e := Sample.event "level" [("name", JsString (Sample.repeat_string 200 "x"))] [] in
  validateEvent e = ([], Normal (Some e)).
Proof. reflexivity. Qed.

Example validateEvent_201_characters :
  validateEvent (Sample.event "level" [("name", JsString (Sample.repeat_string 201 "x"))] [])
  = ([], Throw (TypeError "Cannot read property 'logger' of undefined")).
Proof. reflexivity. Qed.

(** ** createEvent *)

(** C4. When the session argument carries a [stopTimestamp], the event that
    [createEvent] returns has [NaN] as its [session.duration]: both dates are
    read from properties that the event object does not have. *)
Theorem createEvent_duration_NaN (U : Env) (opts : Options) (nowISO : string)
    (ty : JsVal) (sess : SessionArg) (attrs mets : option JsDict)
    (log : list Effect) (ev : Event) :
  truthy (arg_stopTimestamp sess) = true ->
  createEvent U opts nowISO ty sess attrs mets = (log, Normal (Some ev)) ->
  stopTimestamp (session ev) = Some (arg_stopTimestamp sess)
  ∧ duration (session ev) = Some (JsNumber NaN).
Proof.
  intros Hstop. unfold createEvent. rewrite Hstop.
  destruct (stringifyAttributes U _ _) as [attributes'|err]; [|discriminate].
  intros H. apply validateEvent_returned in H as ->.
  split; reflexivity.
Qed.

Lemma createEvent_duration_NaN_witness :
  exists ev,
    createEvent Sample.env Sample.opts Sample.stop_iso (JsString "level_up")
                Sample.closed_session None None = ([], Normal (Some ev))
    ∧ stopTimestamp (session ev) = Some (JsString Sample.stop_iso)
    ∧ duration (session ev) = Some (JsNumber NaN).
Proof.
  eexists. split; [reflexivity|].
  apply (createEvent_duration_NaN Sample.env Sample.opts Sample.stop_iso
           (JsString "level_up") Sample.closed_session None None []);
    reflexivity.
Defined.

(** The difference the specification asks for, for the same two timestamps. *)
Example closed_session_lasts_a_second :
  js_sub (Date_getTime Sample.env (JsString Sample.stop_iso))
         (Date_getTime Sample.env (JsString Sample.start_iso))
  = Fin (inject_Z 1404155268885 - inject_Z 1404155267885).
Proof. reflexivity. Qed.

(** ** Batch generation: an oversized event *)

(** A turn that finds its batch at or above the hard cap leaves the queue as
    it was and logs the error. *)
Lemma generateBatches_turn_refused (U : Env) (opts : Options) (c : Client) :
  (HARD_CAP <=
     getRequestBodySize U
       (take (findLastIndex U opts (events c) (length (events c))) (events c)))%Z ->
  generateBatches_turn U opts c = emit (LogError "Events too large") c.
Proof.
  intros H. unfold generateBatches_turn, persistBatch.
  destruct (Z.ltb_spec (getRequestBodySize U
              (take (findLastIndex U opts (events c) (length (events c))) (events c)))
              HARD_CAP); [lia | reflexivity].
Qed.

(** C1. With a single queued event whose serialized size is at or above the
    hard cap of 512000 bytes, [generateBatches] does not return, whatever the
    number of turns it is given: each turn logs the error and leaves the event
    at the front of the queue. *)
Theorem generateBatches_oversized_event_loops (U : Env) (opts : Options)
    (c : Client) (e : Event) :
  events c = [e] ->
  (HARD_CAP <= getRequestBodySize U [e])%Z ->
  forall fuel : nat,
    generateBatches U opts fuel c = None
    ∧ events (Nat.iter fuel (generateBatches_turn U opts) c) = [e]
    ∧ errors (trace (Nat.iter fuel (generateBatches_turn U opts) c))
      = (errors (trace c) ++ replicate fuel "Events too large")%list.
Proof.
  intros Hq Hsize fuel. revert c Hq.
  induction fuel as [|fuel IH]; intros c Hq.
  - simpl. rewrite Hq, app_nil_r. auto.
  - assert (Hturn : generateBatches_turn U opts c = emit (LogError "Events too large") c).
    { apply generateBatches_turn_refused. rewrite Hq. exact Hsize. }
    destruct (IH (emit (LogError "Events too large") c) Hq) as (H1 & H2 & H3).
    rewrite Nat.iter_succ_r, Hturn. simpl generateBatches. rewrite Hq, Hturn.
    split; [exact H1|]. split; [exact H2|].
    rewrite H3. simpl trace.
    assert (Herr : forall t, errors (t ++ [LogError "Events too large"])
                             = (errors t ++ ["Events too large"])%list).
    { induction t as [|x t IHt]; simpl; [reflexivity|].
      destruct x; simpl; rewrite IHt; reflexivity. }
    rewrite Herr, <- app_assoc. reflexivity.
Qed.

Lemma generateBatches_oversized_event_loops_witness :
  generateBatches Sample.env Sample.opts 25 (Sample.queued [Sample.oversized]) = None.
Proof.
  apply (generateBatches_oversized_event_loops Sample.env Sample.opts
           (Sample.queued [Sample.oversized]) Sample.oversized).
  - reflexivity.
  - apply Z.leb_le. vm_compute. reflexivity.
Defined.

(** The oversized event is one that [validateEvent] lets through. *)
Example oversized_event_is_valid : schema_ok Sample.oversized = true.
Proof. reflexivity. Qed.

(** ** The submission gate *)

Lemma warnings_app (t u : list Effect) :
  warnings (t ++ u) = (warnings t ++ warnings u)%list.
Proof.
  induction t as [|x t IH]; simpl; [reflexivity|].
  destruct x; simpl; rewrite IH; reflexivity.
Qed.

Lemma generateBatches_empty (U : Env) (opts : Options) (fuel : nat) (c : Client) :
  events c = [] -> generateBatches U opts fuel c = Some c.
Proof. intros H. destruct fuel; simpl; rewrite H; reflexivity. Qed.

(** C3. With an empty queue, an empty Batch Store, nothing in flight, no
    throttling and no submission in the last second, [submitEvents] passes the
    gate: it returns the empty array, but it has run [generateBatches], it
    records [now] as [lastSubmitTimestamp], and it logs no warning. *)
Theorem submitEvents_empty_store_passes_gate (U : Env) (opts : Options) (fuel : nat)
    (now : Z) (rnd : Q) (options : SubmitOptions) (c : Client) :
  events c = [] ->
  batches c = ∅ ->
  batchIndex c = [] ->
  batchesInFlight c = ∅ ->
  isThrottled c = false ->
  submitted_under_a_second_ago now c = false ->
  exists c',
    submitEvents U opts fuel now rnd options c = Some ([], c')
    ∧ warnMessage now rnd c = None
    ∧ lastSubmitTimestamp c' = Some now
    ∧ warnings (trace c') = warnings (trace c).
Proof.
  intros Hev Hb Hbi Hfl Hth Hlast.
  assert (Hgate : forall c0, events c0 = [] -> batchesInFlight c0 = ∅ ->
            isThrottled c0 = false -> submitted_under_a_second_ago now c0 = false ->
            warnMessage now rnd c0 = None).
  { intros c0 E1 E2 E3 E4. unfold warnMessage, batches_length_is_0.
    rewrite E3, E2, E4. simpl. destruct (batches c0 !! "length"); reflexivity. }
  set (c1 := if autoSubmitEvents opts
             then emit (SetTimeout (autoSubmitInterval opts)) (emit ClearTimeout c)
             else c).
  assert (Hsame : events c1 = events c ∧ batches c1 = batches c
                  ∧ batchIndex c1 = batchIndex c
                  ∧ batchesInFlight c1 = batchesInFlight c
                  ∧ isThrottled c1 = isThrottled c
                  ∧ lastSubmitTimestamp c1 = lastSubmitTimestamp c
                  ∧ warnings (trace c1) = warnings (trace c)).
  { unfold c1. destruct (autoSubmitEvents opts); simpl; repeat split.
    rewrite !warnings_app, !app_nil_r. reflexivity. }
  destruct Hsame as (E1 & E2 & E3 & E4 & E5 & E6 & E7).
  assert (Hgate1 : warnMessage now rnd c1 = None).
  { apply Hgate; [congruence | congruence | congruence |].
    unfold submitted_under_a_second_ago in *. rewrite E6. exact Hlast. }
  exists (set_lastSubmitTimestamp (Some now) c1).
  split.
  - unfold submitEvents. fold c1. rewrite Hgate1.
    rewrite (generateBatches_empty U opts fuel c1) by congruence.
    simpl isThrottled. rewrite E5, Hth.
    unfold submitAllBatches. simpl batchIndex. rewrite E3, Hbi. reflexivity.
  - split; [apply Hgate; assumption|]. split; [reflexivity | exact E7].
Qed.

Lemma submitEvents_empty_store_passes_gate_witness :
  exists c',
    submitEvents Sample.env Sample.opts 0 1404155270000 (1 # 2)
      {| opt_batchId := None; opt_submitCallback := None; opt_clientContext := None |}
      Sample.fresh = Some ([], c')
    ∧ warnMessage 1404155270000 (1 # 2) Sample.fresh = None
    ∧ lastSubmitTimestamp c' = Some 1404155270000%Z
    ∧ warnings (trace c') = warnings (trace Sample.fresh).
Proof.
  apply (submitEvents_empty_store_passes_gate Sample.env Sample.opts 0 1404155270000
           (1 # 2) _ Sample.fresh); reflexivity.
Defined.

(** ** The throttle gate *)

Lemma throttled_warnMessage (now : Z) (rnd : Q) (c : Client) :
  isThrottled c = true ->
  (warnMessage now rnd c = Some "Prevented submission while throttled"
   <-> js_lt (throttlingSuppressionFunction None now c) (Fin rnd) = true).
Proof.
  intros Hth. unfold warnMessage. rewrite Hth. simpl andb.
  destruct (js_lt _ _); [tauto|].
  split; [|discriminate].
  repeat match goal with
         | |- context [if ?b then _ else _] => destruct b
         end; discriminate.
Qed.

Lemma suppression_value (now last : Z) (c : Client) :
  lastSubmitTimestamp c = Some last ->
  throttlingSuppressionFunction None now c
  = Fin (inject_Z ((now - last) ^ 2) / inject_Z (60000 ^ 2)).
Proof. intros H. unfold throttlingSuppressionFunction. rewrite H. reflexivity. Qed.

Lemma ramp_lower_bound (p : Z) (q : positive) (d : Z) :
  (p * 60000 ^ 2 <= Z.pos q * d ^ 2)%Z ->
  (p # q <= inject_Z (d ^ 2) / inject_Z (60000 ^ 2))%Q.
Proof.
  intros H. apply Qle_shift_div_l; [reflexivity|].
  unfold Qle, Qmult, inject_Z. cbn [Qnum Qden].
  rewrite Pos.mul_1_r. lia.
Qed.

(** C8. While the client is throttled, a call at time [now] passes the
    throttle gate exactly when the random draw is at most
    [min(1, (now - lastSubmitTimestamp)² / 60000²)]: for a draw uniform on
    [0, 1) that is an event of that probability.  The bound is at least 0.99
    from 59700 ms on, and from 60000 ms on every draw passes. *)
Theorem throttle_gate_probability (now last : Z) (rnd : Q) (c : Client) :
  isThrottled c = true ->
  lastSubmitTimestamp c = Some last ->
  (0 <= rnd)%Q -> (rnd < 1)%Q ->
  (passes_throttle_gate now rnd c <-> (rnd <= allowProbability (now - last))%Q)
  ∧ ((59700 <= now - last)%Z -> (99 # 100 <= allowProbability (now - last))%Q)
  ∧ ((60000 <= now - last)%Z ->
     (allowProbability (now - last) == 1)%Q ∧ passes_throttle_gate now rnd c).
Proof.
  intros Hth Hlast Hr0 Hr1.
  assert (Hpass : passes_throttle_gate now rnd c
                  <-> (rnd <= allowProbability (now - last))%Q).
  { unfold passes_throttle_gate, allowProbability.
    rewrite (throttled_warnMessage now rnd c Hth), (suppression_value now last c Hlast).
    unfold js_lt. rewrite Q.min_glb_iff.
    destruct (Qle_bool rnd _) eqn:E; simpl.
    - apply Qle_bool_iff in E. split; [intros _|intros _ ?; discriminate].
      split; [apply Qlt_le_weak; exact Hr1 | exact E].
    - split; [intros H; exfalso; apply H; reflexivity|].
      intros [_ H]. apply Qle_bool_iff in H. congruence. }
  assert (Hfull : (60000 <= now - last)%Z ->
                  (1 <= inject_Z ((now - last) ^ 2) / inject_Z (60000 ^ 2))%Q).
  { intros Hd. apply (ramp_lower_bound 1 1 (now - last)). nia. }
  split; [exact Hpass|]. split.
  - intros Hd. unfold allowProbability. apply Q.min_glb_iff. split.
    + unfold Qle. simpl. lia.
    + apply (ramp_lower_bound 99 100 (now - last)). nia.
  - intros Hd.
    assert (Hone : (allowProbability (now - last) == 1)%Q).
    { unfold allowProbability. apply Q.min_l, Hfull, Hd. }
    split; [exact Hone|].
    apply Hpass. rewrite Hone. apply Qlt_le_weak. exact Hr1.
Qed.

Lemma throttle_gate_probability_witness :
  (passes_throttle_gate 1404155330000 (1 # 2)
     (set_lastSubmitTimestamp (Some 1404155270000%Z) (set_isThrottled true Sample.two_batches))
   <-> (1 # 2 <= allowProbability 60000)%Q)
  ∧ ((59700 <= 60000)%Z -> (99 # 100 <= allowProbability 60000)%Q)
  ∧ ((60000 <= 60000)%Z ->
     (allowProbability 60000 == 1)%Q
     ∧ passes_throttle_gate 1404155330000 (1 # 2)
         (set_lastSubmitTimestamp (Some 1404155270000%Z)
            (set_isThrottled true Sample.two_batches))).
Proof.
  apply (throttle_gate_probability 1404155330000 1404155270000 (1 # 2)
           (set_lastSubmitTimestamp (Some 1404155270000%Z)
              (set_isThrottled true Sample.two_batches))).
  - reflexivity.
  - reflexivity.
  - unfold Qle. simpl. lia.
  - unfold Qlt. simpl. lia.
Defined.

(** At 59700 ms the bound is 0.990025; at 30000 ms it is one quarter. *)
Example allowProbability_59700 : (allowProbability 59700 == 39601 # 40000)%Q.
Proof. vm_compute. reflexivity. Qed.

Example allowProbability_30000 : (allowProbability 30000 == 1 # 4)%Q.
Proof. vm_compute. reflexivity. Qed.

(** ** The Batch Store *)

Lemma indexOf_None (l : list string) (x : string) : indexOf l x = None <-> x ∉ l.
Proof.
  induction l as [|y l IH]; simpl.
  - split; [intros _; apply not_elem_of_nil | reflexivity].
  - destruct (String.eqb_spec y x) as [->|Hne].
    + split; [discriminate | intros H; exfalso; apply H; left].
    + rewrite not_elem_of_cons, <- IH.
      destruct (indexOf l x); simpl.
      * split; [discriminate | intros [_ H]; discriminate H].
      * split; [intros _; split; [congruence | reflexivity] | reflexivity].
Qed.

Lemma indexOf_Some (l : list string) (x : string) (i : nat) :
  indexOf l x = Some i -> l !! i = Some x.
Proof.
  revert i. induction l as [|y l IH]; simpl; intros i; [discriminate|].
  destruct (String.eqb_spec y x) as [->|Hne].
  - intros [= <-]. reflexivity.
  - destruct (indexOf l x) as [j|]; simpl; [|discriminate].
    intros [= <-]. apply IH. reflexivity.
Qed.

Lemma indexOf_elem (l : list string) (x : string) : x ∈ l -> is_Some (indexOf l x).
Proof.
  intros H. destruct (indexOf l x) eqn:E; [eauto|].
  apply indexOf_None in E. contradiction.
Qed.

(** Cutting out the one occurrence of an id. *)
Lemma NoDup_delete_lookup (l : list string) (i : nat) (x : string) :
  NoDup l -> l !! i = Some x ->
  NoDup (delete i l) ∧ forall y, y ∈ delete i l <-> y ∈ l ∧ y ≠ x.
Proof.
  revert i. induction l as [|z l IH]; intros i Hnd Hi; [discriminate|].
  apply NoDup_cons in Hnd as [Hz Hnd].
  destruct i as [|i]; simpl in *.
  - injection Hi as ->. split; [exact Hnd|].
    intros y. rewrite elem_of_cons. split.
    + intros Hy. split; [tauto | intros ->; contradiction].
    + intros [[->|Hy] Hne]; [contradiction | exact Hy].
  - destruct (IH i Hnd Hi) as [Hnd' Hmem]. split.
    + apply NoDup_cons. split; [|exact Hnd'].
      intros Hz'. apply Hmem in Hz' as [Hz' _]. contradiction.
    + intros y. rewrite !elem_of_cons, Hmem. split.
      * intros [->|[Hy Hne]]; [|tauto].
        split; [tauto|]. intros ->. apply Hz.
        apply list_elem_of_lookup. eauto.
      * intros [[->|Hy] Hne]; tauto.
Qed.

Lemma clearBatchById_known (batchId : string) (c : Client) (i : nat) :
  indexOf (batchIndex c) batchId = Some i ->
  batches (clearBatchById batchId c) = delete batchId (batches c)
  ∧ batchIndex (clearBatchById batchId c) = delete i (batchIndex c)
  ∧ batch_slots_persisted (clearBatchById batchId c).
Proof.
  intros H. unfold clearBatchById. rewrite H. repeat split.
Qed.

Lemma clearBatchById_unknown (batchId : string) (c : Client) :
  batchId ∉ batchIndex c -> clearBatchById batchId c = c.
Proof.
  intros H. apply indexOf_None in H. unfold clearBatchById. rewrite H. reflexivity.
Qed.

Lemma filter_all (A : Type) (f : A -> bool) (l : list A) :
  (forall x, x ∈ l -> f x = true) -> List.filter f l = l.
Proof.
  induction l as [|x l IH]; intros H; simpl; [reflexivity|].
  rewrite (H x) by left. f_equal. apply IH. intros y Hy. apply H. right. exact Hy.
Qed.

Lemma delete_first_filter (l : list string) (x : string) (i : nat) :
  NoDup l -> indexOf l x = Some i ->
  delete i l = List.filter (fun y => negb (String.eqb y x)) l.
Proof.
  revert i. induction l as [|z l IH]; intros i Hnd Hi; [discriminate|].
  apply NoDup_cons in Hnd as [Hz Hnd]. simpl in Hi |- *.
  destruct (String.eqb_spec z x) as [->|Hne].
  - injection Hi as <-. simpl. symmetry. apply filter_all.
    intros y Hy. apply negb_true_iff. destruct (String.eqb_spec y x) as [->|]; [|reflexivity].
    contradiction.
  - destruct (indexOf l x) as [j|] eqn:E; [|discriminate]. injection Hi as <-.
    simpl. f_equal. apply IH; [exact Hnd | reflexivity].
Qed.

(** What [clearBatchById] leaves of a store that satisfies its invariant. *)
Lemma clearBatchById_store (batchId : string) (c : Client) :
  store_inv c ->
  batches (clearBatchById batchId c) = delete batchId (batches c)
  ∧ batchIndex (clearBatchById batchId c)
    = List.filter (fun id => negb (String.eqb id batchId)) (batchIndex c)
  ∧ EVENTS (storage (clearBatchById batchId c)) = EVENTS (storage c).
Proof.
  intros [Hnd Hdom]. destruct (indexOf (batchIndex c) batchId) as [i|] eqn:E.
  - destruct (clearBatchById_known batchId c i E) as (Hb & Hi & _).
    rewrite Hb, Hi. split; [reflexivity|]. split.
    + apply delete_first_filter; assumption.
    + unfold clearBatchById. rewrite E. reflexivity.
  - apply indexOf_None in E. rewrite clearBatchById_unknown by exact E.
    split; [|split; [|reflexivity]].
    + symmetry. apply delete_id, not_elem_of_dom.
      rewrite Hdom, elem_of_list_to_set. exact E.
    + symmetry. apply filter_all. intros y Hy. apply negb_true_iff.
      destruct (String.eqb_spec y batchId) as [->|]; [contradiction | reflexivity].
Qed.

Lemma clearBatchById_inv (batchId : string) (c : Client) :
  store_inv c -> store_inv (clearBatchById batchId c).
Proof.
  intros [Hnd Hdom]. destruct (indexOf (batchIndex c) batchId) as [i|] eqn:E.
  - destruct (clearBatchById_known batchId c i E) as (Hb & Hi & _).
    destruct (NoDup_delete_lookup _ i batchId Hnd (indexOf_Some _ _ _ E)) as [Hnd' Hmem].
    unfold store_inv. rewrite Hb, Hi. split; [exact Hnd'|].
    rewrite dom_delete_L, Hdom. apply set_eq. intros y.
    rewrite elem_of_difference, !elem_of_list_to_set, Hmem, elem_of_singleton.
    reflexivity.
  - apply indexOf_None in E. rewrite clearBatchById_unknown by exact E. split; assumption.
Qed.

Lemma clearBatchById_absent (batchId : string) (c : Client) :
  store_inv c -> batch_absent batchId (clearBatchById batchId c).
Proof.
  intros [Hnd Hdom]. destruct (indexOf (batchIndex c) batchId) as [i|] eqn:E.
  - destruct (clearBatchById_known batchId c i E) as (Hb & Hi & _).
    destruct (NoDup_delete_lookup _ i batchId Hnd (indexOf_Some _ _ _ E)) as [_ Hmem].
    unfold batch_absent. rewrite Hb, Hi. split; [apply lookup_delete_eq|].
    intros H. apply Hmem in H as [_ H]. apply H. reflexivity.
  - apply indexOf_None in E. rewrite clearBatchById_unknown by exact E.
    split; [|exact E].
    apply not_elem_of_dom. rewrite Hdom, elem_of_list_to_set. exact E.
Qed.


(** ** Dispatching *)

Lemma same_store_refl (c : Client) : same_store c c.
Proof. repeat split. Qed.

Lemma same_store_trans (c2 c1 c0 : Client) :
  same_store c2 c1 -> same_store c1 c0 -> same_store c2 c0.
Proof.
  unfold same_store. intros (A1 & A2 & A3 & A4 & A5 & A6 & A7) (B1 & B2 & B3 & B4 & B5 & B6 & B7).
  repeat split; congruence.
Qed.

Lemma submitBatchById_named (opts : Options) (now : Z) (options : SubmitOptions)
    (c : Client) (id : string) :
  opt_batchId options = Some id -> id ≠ "" ->
  submitBatchById opts now options c
  = (Some id,
     emit (PutEvents id (batches c !! id)
             (default (clientContext opts) (opt_clientContext options))
             (default (submitCallback opts) (opt_submitCallback options)))
          (set_batchesInFlight (<[id := now]> (batchesInFlight c)) c)).
Proof.
  intros H Hne. unfold submitBatchById. rewrite H.
  destruct (String.eqb_spec id ""); [contradiction | reflexivity].
Qed.

Lemma inFlight_insert_ne (c : Client) (id id' : string) (now : Z) (e : Effect) :
  id ≠ id' ->
  inFlight (emit e (set_batchesInFlight (<[id := now]> (batchesInFlight c)) c)) id'
  = inFlight c id'.
Proof.
  intros Hne. unfold inFlight. simpl. rewrite lookup_insert_ne by exact Hne. reflexivity.
Qed.

(** The loop of [submitAllBatches] over ids that are distinct and not empty:
    it dispatches, in order, the ids that were not in flight when it began. *)
Lemma submitAllBatches_each_spec (opts : Options) (now : Z) (ids : list string) :
  NoDup ids -> "" ∉ ids ->
  forall (options : SubmitOptions) (indices : list (option string)) (c0 : Client),
    fst (submitAllBatches_each opts now ids options indices c0)
    = (indices ++ map Some (List.filter (fun id => negb (inFlight c0 id)) ids))%list
    ∧ trace (snd (submitAllBatches_each opts now ids options indices c0))
      = (trace c0
         ++ requests (default (submitCallback opts) (opt_submitCallback options))
                     (default (clientContext opts) (opt_clientContext options))
                     c0 (List.filter (fun id => negb (inFlight c0 id)) ids))%list
    ∧ same_store (snd (submitAllBatches_each opts now ids options indices c0)) c0.
Proof.
  induction ids as [|id ids IH]; intros Hnd Hne options indices c0.
  - simpl. rewrite !app_nil_r. repeat split.
  - apply NoDup_cons in Hnd as [Hid Hnd].
    apply not_elem_of_cons in Hne as [Hid0 Hne].
    specialize (IH Hnd Hne).
    cbn [submitAllBatches_each List.filter].
    destruct (inFlight c0 id) eqn:Efl; cbn [negb].
    + match goal with
      | |- context [submitAllBatches_each opts now ids ?o ?i ?c] =>
          destruct (IH o i c) as (H1 & H2 & H3)
      end.
      cbn [opt_clientContext opt_submitCallback default] in H2.
      rewrite H1, H2. repeat split; apply H3.
    + rewrite (submitBatchById_named opts now _ c0 id) by (auto; reflexivity).
      cbn [opt_clientContext opt_submitCallback default].
      set (c1 := emit _ (set_batchesInFlight _ c0)).
      match goal with
      | |- context [submitAllBatches_each opts now ids ?o ?i c1] =>
          destruct (IH o i c1) as (H1 & H2 & H3)
      end.
      cbn [opt_clientContext opt_submitCallback default] in H2.
      assert (Hfilter : List.filter (fun id' => negb (inFlight c1 id')) ids
                        = List.filter (fun id' => negb (inFlight c0 id')) ids).
      { apply filter_ext_in. intros id' Hin. f_equal. apply inFlight_insert_ne.
        intros ->. apply Hid. apply list_elem_of_In. exact Hin. }
      rewrite H1, H2, Hfilter. split; [|split].
      * rewrite <- app_assoc. reflexivity.
      * unfold c1. cbn [trace emit set_batchesInFlight requests map batches].
        rewrite <- app_assoc. reflexivity.
      * eapply same_store_trans; [exact H3|]. repeat split.
Qed.

Lemma submitAllBatches_spec (opts : Options) (now : Z) (options : SubmitOptions) (c : Client) :
  NoDup (batchIndex c) -> "" ∉ batchIndex c ->
  fst (submitAllBatches opts now options c) = map Some (pending_not_in_flight c)
  ∧ trace (snd (submitAllBatches opts now options c))
    = (trace c
       ++ requests (default (submitCallback opts) (opt_submitCallback options))
                   (default (clientContext opts) (opt_clientContext options))
                   c (pending_not_in_flight c))%list
  ∧ same_store (snd (submitAllBatches opts now options c)) c.
Proof.
  intros Hnd Hne. unfold submitAllBatches.
  match goal with
  | |- context [submitAllBatches_each opts now (batchIndex c) ?o [] c] =>
      destruct (submitAllBatches_each_spec opts now (batchIndex c) Hnd Hne o [] c)
        as (H1 & H2 & H3)
  end.
  rewrite H1, H2. repeat split; apply H3.
Qed.

Lemma submitBatchById_same_store (opts : Options) (now : Z) (options : SubmitOptions)
    (c : Client) :
  same_store (snd (submitBatchById opts now options c)) c.
Proof.
  unfold submitBatchById. destruct (opt_batchId options) as [id|]; [|repeat split].
  destruct (String.eqb id ""); repeat split.
Qed.

Lemma submitAllBatches_each_same_store (opts : Options) (now : Z) (ids : list string) :
  forall (options : SubmitOptions) (indices : list (option string)) (c : Client),
    same_store (snd (submitAllBatches_each opts now ids options indices c)) c.
Proof.
  induction ids as [|id ids IH]; intros options indices c; [apply same_store_refl|].
  cbn [submitAllBatches_each]. destruct (negb (inFlight c id)); [|apply IH].
  destruct (submitBatchById opts now _ c) as [r c1] eqn:E.
  eapply same_store_trans; [apply IH|].
  change c1 with (snd (r, c1)). rewrite <- E. apply submitBatchById_same_store.
Qed.

Lemma submitAllBatches_same_store (opts : Options) (now : Z) (options : SubmitOptions)
    (c : Client) :
  same_store (snd (submitAllBatches opts now options c)) c.
Proof. apply submitAllBatches_each_same_store. Qed.

(** ** The response handler *)

(** The handler is what happens up to the callback, then the flush if the
    throttle has just cleared. *)
Lemma handlePutEventsResponse_unfold (opts : Options) (batchId : string) (callback : Cb)
    (err : option AwsError) (data : string) (now : Z) (c : Client) :
  handlePutEventsResponse opts batchId callback err data now c
  = if isThrottled c && negb (isThrottled (after_callback batchId callback err data c))
    then snd (submitAllBatches opts now
                {| opt_batchId := None; opt_submitCallback := Some callback;
                   opt_clientContext := None |}
                (emit (LogWarn "Was throttled flushing remaining batches")
                      (after_callback batchId callback err data c)))
    else after_callback batchId callback err data c.
Proof.
  unfold handlePutEventsResponse, after_callback, clears_batch.
  destruct err as [e|]; [|reflexivity].
  destruct (status_undefined_or_400 e); [|reflexivity].
  destruct (retryable e); reflexivity.
Qed.

(** What the first part of the handler does to each field. *)
Lemma after_callback_fields (batchId : string) (callback : Cb) (err : option AwsError)
    (data : string) (c : Client) :
  let m := after_callback batchId callback err data c in
  let cleared := if clears_batch err then clearBatchById batchId c else c in
  batches m = batches cleared
  ∧ batchIndex m = batchIndex cleared
  ∧ storage m = storage cleared
  ∧ events m = events c
  ∧ isThrottled m = isThrottled_after (isThrottled c) err
  ∧ batchesInFlight m = delete batchId (batchesInFlight c).
Proof.
  unfold after_callback, isThrottled_after, clearBatchById.
  destruct err as [e|]; cbn [clears_batch].
  - destruct (status_undefined_or_400 e).
    + destruct (negb (retryable e)), (is_ThrottlingException e); cbn;
        destruct (indexOf (batchIndex c) batchId); repeat split.
    + cbn. destruct (indexOf (batchIndex c) batchId); repeat split.
  - cbn. destruct (indexOf (batchIndex c) batchId); repeat split.
Qed.

Lemma handlePutEventsResponse_same_store (opts : Options) (batchId : string)
    (callback : Cb) (err : option AwsError) (data : string) (now : Z) (c : Client) :
  same_store (handlePutEventsResponse opts batchId callback err data now c)
             (after_callback batchId callback err data c).
Proof.
  rewrite handlePutEventsResponse_unfold.
  destruct (_ && _); [|apply same_store_refl].
  eapply same_store_trans; [apply submitAllBatches_same_store | repeat split].
Qed.

(** The Batch Store and the throttle flag after the handler. *)
Lemma handlePutEventsResponse_fields (opts : Options) (batchId : string) (callback : Cb)
    (err : option AwsError) (data : string) (now : Z) (c : Client) :
  let c' := handlePutEventsResponse opts batchId callback err data now c in
  let cleared := if clears_batch err then clearBatchById batchId c else c in
  batches c' = batches cleared
  ∧ batchIndex c' = batchIndex cleared
  ∧ storage c' = storage cleared
  ∧ isThrottled c' = isThrottled_after (isThrottled c) err.
Proof.
  intros c' cleared.
  destruct (handlePutEventsResponse_same_store opts batchId callback err data now c)
    as (_ & H2 & H3 & H4 & _ & H6 & _).
  destruct (after_callback_fields batchId callback err data c)
    as (A1 & A2 & A3 & _ & A5 & _).
  unfold c', cleared. rewrite H2, H3, H4, H6. auto.
Qed.




(** A third batch gets an id that the two stored ones do not have. *)
Example third_batch_id_is_fresh :
  GUID Sample.env (guidCalls Sample.two_batches) ∉ batchIndex Sample.two_batches.
Proof. apply (bool_decide_unpack _). vm_compute. exact I. Qed.

(** ** Failures with a status code other than 400 *)

(** The claim that such a failure retains the batch fails on a response with
    status 500: the batch was in the store before the handler ran and is not
    in it afterwards. *)
Lemma other_status_failure_counterexample :
  batch_present "batch-0" Sample.two_batches
  ∧ ~ batch_present "batch-0"
        (handlePutEventsResponse Sample.opts "batch-0" "submitCallback"
           (Some Sample.server_error) "" 1404155271000 Sample.two_batches).
Proof.
  split.
  - split.
    + exists [Sample.event "one" [] []]. vm_compute. reflexivity.
    + apply (bool_decide_unpack _). vm_compute. exact I.
  - intros [[evs Hevs] _]. vm_compute in Hevs. discriminate Hevs.
Qed.

(** C2, amended. A failure whose status code is defined and is not 400 clears
    the batch exactly as a success does.  In a store that satisfies its
    invariant, [batches] afterwards is the old mapping without that id and
    [batchIndex] the old index without it, the other ids in their order, so
    the batch is in neither; the queue is as before; [batches], [batchIndex]
    and the storage are what a success leaves.  The throttle flag is left as
    it was. *)
Theorem other_status_failure_clears (opts : Options) (batchId : string) (callback : Cb)
    (e : AwsError) (s : Z) (data : string) (now : Z) (c : Client) :
  store_inv c ->
  statusCode e = Some s -> s ≠ 400%Z ->
  let c' := handlePutEventsResponse opts batchId callback (Some e) data now c in
  let ok := handlePutEventsResponse opts batchId callback None data now c in
  batch_absent batchId c'
  ∧ isThrottled c' = isThrottled c
  ∧ batches c' = delete batchId (batches c)
  ∧ batchIndex c'
    = List.filter (fun id => negb (String.eqb id batchId)) (batchIndex c)
  ∧ events c' = events c
  ∧ batches c' = batches ok ∧ batchIndex c' = batchIndex ok ∧ storage c' = storage ok.
Proof.
  intros Hinv Hs Hne c' ok.
  assert (H400 : status_undefined_or_400 e = false).
  { unfold status_undefined_or_400. rewrite Hs. apply Z.eqb_neq. exact Hne. }
  destruct (handlePutEventsResponse_fields opts batchId callback (Some e) data now c)
    as (H1 & H2 & H3 & H4).
  destruct (handlePutEventsResponse_fields opts batchId callback None data now c)
    as (K1 & K2 & K3 & _).
  cbn [clears_batch isThrottled_after] in H1, H2, H3, H4, K1, K2, K3.
  rewrite H400 in H1, H2, H3, H4.
  fold c' in H1, H2, H3, H4. fold ok in K1, K2, K3.
  destruct (clearBatchById_store batchId c Hinv) as (S1 & S2 & _).
  split; [unfold batch_absent; rewrite H1, H2; apply clearBatchById_absent, Hinv|].
  split; [exact H4|].
  split; [rewrite H1; exact S1|].
  split; [rewrite H2; exact S2|].
  split.
  { destruct (handlePutEventsResponse_same_store opts batchId callback (Some e) data
                now c) as (E1 & _).
    destruct (after_callback_fields batchId callback (Some e) data c)
      as (_ & _ & _ & A4 & _).
    unfold c'. rewrite E1. exact A4. }
  split; [congruence|]. split; congruence.
Qed.

Lemma other_status_failure_clears_witness :
  let c' := handlePutEventsResponse Sample.opts "batch-0" "submitCallback"
              (Some Sample.server_error) "" 1404155271000 Sample.two_batches in
  let ok := handlePutEventsResponse Sample.opts "batch-0" "submitCallback" None ""
              1404155271000 Sample.two_batches in
  batch_absent "batch-0" c'
  ∧ isThrottled c' = isThrottled Sample.two_batches
  ∧ batches c' = delete "batch-0" (batches Sample.two_batches)
  ∧ batchIndex c'
    = List.filter (fun id => negb (String.eqb id "batch-0"))
                  (batchIndex Sample.two_batches)
  ∧ events c' = events Sample.two_batches
  ∧ batches c' = batches ok ∧ batchIndex c' = batchIndex ok ∧ storage c' = storage ok.
Proof.
  apply (other_status_failure_clears Sample.opts "batch-0" "submitCallback"
           Sample.server_error 500 "" 1404155271000 Sample.two_batches).
  - split.
    + apply (bool_decide_unpack _). vm_compute. exact I.
    + vm_compute. reflexivity.
  - reflexivity.
  - lia.
Defined.

(** The other batch of the sample is still stored after the failure. *)
Example other_status_failure_keeps_other_batch :
  let c' := handlePutEventsResponse Sample.opts "batch-0" "submitCallback"
              (Some Sample.server_error) "" 1404155271000 Sample.two_batches in
  batchIndex c' = ["batch-1"]
  ∧ batches c' !! "batch-1" = Some [Sample.event "two" [] []].
Proof. vm_compute. split; reflexivity. Qed.

(** ** Success and terminal failures *)

Lemma non_retryable_code (e : AwsError) (k : string) :
  code e = Some k -> k ∈ NON_RETRYABLE_EXCEPTIONS ->
  retryable e = false ∧ is_ThrottlingException e = false.
Proof.
  intros Hk Hin. unfold retryable, is_ThrottlingException. rewrite Hk. split.
  - apply negb_false_iff, bool_decide_eq_true, indexOf_elem, Hin.
  - unfold NON_RETRYABLE_EXCEPTIONS in Hin.
    repeat (apply elem_of_cons in Hin as [->|Hin]; [reflexivity|]).
    apply elem_of_nil in Hin. contradiction.
Qed.

(** C6. After a success, and after a failure with no status code or with
    status 400 whose error code is one of [BadRequestException],
    [SerializationException] and [ValidationException], [isThrottled] is
    false and the batch is in neither [batches] nor [batchIndex]: [batches]
    is the old mapping without that id, [batchIndex] the old index without
    it, the other ids in their order.  Both slots of the storage hold the new
    values; the queue and its slot are as before. *)
Theorem success_or_terminal_failure_clears (opts : Options) (batchId : string)
    (callback : Cb) (err : option AwsError) (data : string) (now : Z) (c : Client) :
  store_inv c ->
  batchId ∈ batchIndex c ->
  (err = None
   ∨ exists (e : AwsError) (k : string),
       err = Some e
       ∧ (statusCode e = None ∨ statusCode e = Some 400%Z)
       ∧ code e = Some k ∧ k ∈ NON_RETRYABLE_EXCEPTIONS) ->
  let c' := handlePutEventsResponse opts batchId callback err data now c in
  isThrottled c' = false
  ∧ batch_absent batchId c'
  ∧ batch_slots_persisted c'
  ∧ batches c' = delete batchId (batches c)
  ∧ batchIndex c'
    = List.filter (fun id => negb (String.eqb id batchId)) (batchIndex c)
  ∧ BATCHES (storage c') = delete batchId (batches c)
  ∧ BATCH_INDEX (storage c')
    = List.filter (fun id => negb (String.eqb id batchId)) (batchIndex c)
  ∧ events c' = events c
  ∧ EVENTS (storage c') = EVENTS (storage c).
Proof.
  intros Hinv Hin Hresp c'.
  assert (Hdecide : clears_batch err = true ∧ isThrottled_after (isThrottled c) err = false).
  { destruct Hresp as [->|(e & k & -> & Hstatus & Hk & Hnr)]; [split; reflexivity|].
    destruct (non_retryable_code e k Hk Hnr) as [Hr Ht].
    cbn [clears_batch isThrottled_after].
    assert (H400 : status_undefined_or_400 e = true).
    { unfold status_undefined_or_400. destruct Hstatus as [->| ->]; reflexivity. }
    rewrite H400, Hr, Ht. split; reflexivity. }
  destruct Hdecide as [Hclear Hthr].
  destruct (handlePutEventsResponse_fields opts batchId callback err data now c)
    as (H1 & H2 & H3 & H4).
  rewrite Hclear in H1, H2, H3. rewrite Hthr in H4.
  fold c' in H1, H2, H3, H4.
  destruct (indexOf_elem _ _ Hin) as [i Hi].
  destruct (clearBatchById_known batchId c i Hi) as (_ & _ & [P1 P2]).
  destruct (clearBatchById_store batchId c Hinv) as (S1 & S2 & S3).
  split; [exact H4|].
  split; [unfold batch_absent; rewrite H1, H2; apply clearBatchById_absent, Hinv|].
  split; [unfold batch_slots_persisted; rewrite H1, H2, H3; split; assumption|].
  split; [rewrite H1; exact S1|].
  split; [rewrite H2; exact S2|].
  split; [rewrite H3, P1; exact S1|].
  split; [rewrite H3, P2; exact S2|].
  split; [|rewrite H3; exact S3].
  destruct (handlePutEventsResponse_same_store opts batchId callback err data now c)
    as (E1 & _).
  destruct (after_callback_fields batchId callback err data c) as (_ & _ & _ & A4 & _).
  unfold c'. rewrite E1. exact A4.
Qed.

Lemma success_or_terminal_failure_clears_witness :
  let c' := handlePutEventsResponse Sample.opts "batch-0" "submitCallback"
              (Some Sample.validation_error) "" 1404155271000 Sample.two_batches in
  isThrottled c' = false
  ∧ batch_absent "batch-0" c'
  ∧ batch_slots_persisted c'
  ∧ batches c' = delete "batch-0" (batches Sample.two_batches)
  ∧ batchIndex c'
    = List.filter (fun id => negb (String.eqb id "batch-0"))
                  (batchIndex Sample.two_batches)
  ∧ BATCHES (storage c') = delete "batch-0" (batches Sample.two_batches)
  ∧ BATCH_INDEX (storage c')
    = List.filter (fun id => negb (String.eqb id "batch-0"))
                  (batchIndex Sample.two_batches)
  ∧ events c' = events Sample.two_batches
  ∧ EVENTS (storage c') = EVENTS (storage Sample.two_batches).
Proof.
  apply (success_or_terminal_failure_clears Sample.opts "batch-0" "submitCallback"
           (Some Sample.validation_error) "" 1404155271000 Sample.two_batches).
  - split.
    + apply (bool_decide_unpack _). vm_compute. exact I.
    + vm_compute. reflexivity.
  - apply (bool_decide_unpack _). vm_compute. exact I.
  - right. exists Sample.validation_error, "ValidationException".
    split; [reflexivity|]. split; [right; reflexivity|]. split; [reflexivity|].
    apply (bool_decide_unpack _). vm_compute. exact I.
Defined.

(** The same on a success. *)
Example success_clears_first_batch :
  let c' := handlePutEventsResponse Sample.opts "batch-0" "submitCallback" None ""
              1404155271000 Sample.two_batches in
  batchIndex c' = ["batch-1"] ∧ batches c' !! "batch-0" = None
  ∧ BATCH_INDEX (storage c') = ["batch-1"] ∧ isThrottled c' = false.
Proof. vm_compute. repeat split. Qed.

(** ** The flush when throttling clears *)

Lemma dispatched_app (t u : list Effect) :
  dispatched (t ++ u) = (dispatched t ++ dispatched u)%list.
Proof.
  induction t as [|x t IH]; simpl; [reflexivity|].
  destruct x; simpl; rewrite IH; reflexivity.
Qed.

Lemma dispatched_requests (cb : Cb) (ctx : Ctx) (c : Client) (ids : list string) :
  dispatched (requests cb ctx c ids) = ids.
Proof. induction ids as [|id ids IH]; simpl; [|rewrite IH]; reflexivity. Qed.

Lemma clearBatchById_index (batchId : string) (c : Client) :
  NoDup (batchIndex c) ->
  NoDup (batchIndex (clearBatchById batchId c))
  ∧ forall y, y ∈ batchIndex (clearBatchById batchId c) -> y ∈ batchIndex c.
Proof.
  intros Hnd. destruct (indexOf (batchIndex c) batchId) as [i|] eqn:E.
  - destruct (clearBatchById_known batchId c i E) as (_ & Hi & _).
    destruct (NoDup_delete_lookup _ i batchId Hnd (indexOf_Some _ _ _ E)) as [Hnd' Hmem].
    rewrite Hi. split; [exact Hnd'|]. intros y Hy. apply Hmem in Hy. tauto.
  - apply indexOf_None in E. rewrite clearBatchById_unknown by exact E. auto.
Qed.

(** Up to the callback the handler only logs, and the callback comes last. *)
Lemma after_callback_trace (batchId : string) (callback : Cb) (err : option AwsError)
    (data : string) (c : Client) :
  exists pre : list Effect,
    trace (after_callback batchId callback err data c)
    = (trace c ++ pre ++ [SubmitCallback callback err data batchId])%list
    ∧ dispatched pre = [].
Proof.
  exists (match err with
          | Some e =>
              LogFailure e data
              :: (if status_undefined_or_400 e && is_ThrottlingException e
                  then [LogWarn "Application is currently throttled"] else [])
          | None => [LogInfo "Events Submitted Successfully"]
          end).
  unfold after_callback, clearBatchById.
  destruct err as [e|]; cbn [clears_batch].
  - destruct (status_undefined_or_400 e).
    + destruct (negb (retryable e)), (is_ThrottlingException e); cbn;
        destruct (indexOf (batchIndex c) batchId); cbn; rewrite <- ?app_assoc;
        split; reflexivity.
    + cbn. destruct (indexOf (batchIndex c) batchId); cbn; rewrite <- ?app_assoc;
        split; reflexivity.
  - cbn. destruct (indexOf (batchIndex c) batchId); cbn; rewrite <- ?app_assoc;
      split; reflexivity.
Qed.

(** C9. When the client was throttled before a response and is not after it,
    the handler, once it has taken the batch out of [batchesInFlight] and
    called the per-submission callback, runs [submitAllBatches]: the requests
    it adds to the trace are, in [batchIndex] order, exactly the pending
    batches that are not in flight at that moment. *)
Theorem throttle_clear_flush (opts : Options) (batchId : string) (callback : Cb)
    (err : option AwsError) (data : string) (now : Z) (c : Client) :
  NoDup (batchIndex c) ->
  "" ∉ batchIndex c ->
  isThrottled c = true ->
  isThrottled (handlePutEventsResponse opts batchId callback err data now c) = false ->
  batchesInFlight (after_callback batchId callback err data c) !! batchId = None
  ∧ (exists pre : list Effect,
        trace (after_callback batchId callback err data c)
        = (trace c ++ pre ++ [SubmitCallback callback err data batchId])%list
        ∧ dispatched pre = [])
  ∧ trace (handlePutEventsResponse opts batchId callback err data now c)
    = (trace (after_callback batchId callback err data c)
       ++ LogWarn "Was throttled flushing remaining batches"
          :: requests callback (clientContext opts)
               (after_callback batchId callback err data c)
               (pending_not_in_flight (after_callback batchId callback err data c)))%list
  ∧ dispatched (trace (handlePutEventsResponse opts batchId callback err data now c))
    = (dispatched (trace c)
       ++ pending_not_in_flight (after_callback batchId callback err data c))%list
  ∧ same_store (handlePutEventsResponse opts batchId callback err data now c)
               (after_callback batchId callback err data c).
Proof.
  intros Hnd Hne Hwas Hnow.
  set (m := after_callback batchId callback err data c).
  pose proof (handlePutEventsResponse_same_store opts batchId callback err data now c)
    as Hsame.
  fold m in Hsame.
  assert (Hm : isThrottled m = false).
  { destruct Hsame as (_ & _ & _ & H & _). rewrite <- H. exact Hnow. }
  destruct (after_callback_fields batchId callback err data c)
    as (_ & A2 & _ & _ & _ & A6).
  fold m in A2, A6.
  assert (Hidx : NoDup (batchIndex m) ∧ "" ∉ batchIndex m).
  { rewrite A2. destruct (clears_batch err); [|auto].
    destruct (clearBatchById_index batchId c Hnd) as [H1 H2].
    split; [exact H1 | intros H; apply Hne, H2, H]. }
  destruct Hidx as [Hnd' Hne'].
  destruct (after_callback_trace batchId callback err data c) as (pre & Hpre & Hdis).
  fold m in Hpre.
  assert (Htrace : trace (handlePutEventsResponse opts batchId callback err data now c)
                   = (trace m ++ LogWarn "Was throttled flushing remaining batches"
                        :: requests callback (clientContext opts) m
                             (pending_not_in_flight m))%list).
  { rewrite handlePutEventsResponse_unfold. fold m. rewrite Hwas, Hm. cbn [andb negb].
    destruct (submitAllBatches_spec opts now
                {| opt_batchId := None; opt_submitCallback := Some callback;
                   opt_clientContext := None |}
                (emit (LogWarn "Was throttled flushing remaining batches") m)
                Hnd' Hne') as (_ & H & _).
    rewrite H. cbn [trace emit opt_submitCallback opt_clientContext default].
    rewrite <- app_assoc. reflexivity. }
  split; [rewrite A6; apply lookup_delete_eq|].
  split; [exists pre; auto|].
  split; [exact Htrace|].
  split; [|exact Hsame].
  rewrite Htrace, Hpre, !dispatched_app. cbn [dispatched].
  rewrite dispatched_requests, Hdis, !app_nil_r. reflexivity.
Qed.

Lemma throttle_clear_flush_witness :
  batchesInFlight
    (after_callback "batch-0" "submitCallback" None "" Sample.throttled_two_batches)
  !! "batch-0" = None
  ∧ (exists pre : list Effect,
        trace (after_callback "batch-0" "submitCallback" None ""
                 Sample.throttled_two_batches)
        = (trace Sample.throttled_two_batches
           ++ pre ++ [SubmitCallback "submitCallback" None "" "batch-0"])%list
        ∧ dispatched pre = [])
  ∧ trace (handlePutEventsResponse Sample.opts "batch-0" "submitCallback" None ""
             1404155271000 Sample.throttled_two_batches)
    = (trace (after_callback "batch-0" "submitCallback" None ""
                Sample.throttled_two_batches)
       ++ LogWarn "Was throttled flushing remaining batches"
          :: requests "submitCallback" (clientContext Sample.opts)
               (after_callback "batch-0" "submitCallback" None ""
                  Sample.throttled_two_batches)
               (pending_not_in_flight
                  (after_callback "batch-0" "submitCallback" None ""
                     Sample.throttled_two_batches)))%list
  ∧ dispatched (trace (handlePutEventsResponse Sample.opts "batch-0" "submitCallback"
                         None "" 1404155271000 Sample.throttled_two_batches))
    = (dispatched (trace Sample.throttled_two_batches)
       ++ pending_not_in_flight
            (after_callback "batch-0" "submitCallback" None ""
               Sample.throttled_two_batches))%list
  ∧ same_store (handlePutEventsResponse Sample.opts "batch-0" "submitCallback" None ""
                  1404155271000 Sample.throttled_two_batches)
               (after_callback "batch-0" "submitCallback" None ""
                  Sample.throttled_two_batches).
Proof.
  apply (throttle_clear_flush Sample.opts "batch-0" "submitCallback" None ""
           1404155271000 Sample.throttled_two_batches).
  - apply (bool_decide_unpack _). vm_compute. exact I.
  - apply (bool_decide_unpack _). vm_compute. exact I.
  - reflexivity.
  - reflexivity.
Defined.

(** The scenario of the specification: a throttling failure for the batch in
    flight sets the flag and keeps the batch; the success that follows clears
    the flag and the batch, and dispatches the other pending batch. *)
Example throttled_then_flushed :
  let c1 := handlePutEventsResponse Sample.opts "batch-0" "submitCallback"
              (Some Sample.throttling_error) "" 1404155271000 Sample.two_batches in
  let c2 := handlePutEventsResponse Sample.opts "batch-0" "submitCallback" None ""
              1404155272000 c1 in
  isThrottled c1 = true ∧ batchIndex c1 = ["batch-0"; "batch-1"]
  ∧ dispatched (trace c1) = []
  ∧ isThrottled c2 = false ∧ batchIndex c2 = ["batch-1"]
  ∧ dispatched (trace c2) = ["batch-1"]
  ∧ batchesInFlight c2 !! "batch-1" = Some 1404155272000%Z.
Proof. vm_compute. repeat split. Qed.

(** ** Batch generation: order of events *)

Section Order.

Variable U : Env.
Variable opts : Options.

(** Distinct draws from [Util.GUID] give distinct ids. *)
Hypothesis GUID_distinct : forall i j : nat, GUID U i = GUID U j -> i = j.

Lemma later_ids_differ (n len : nat) : GUID U n ∉ map (GUID U) (seq (S n) len).
Proof.
  intros H. apply list_elem_of_In, in_map_iff in H as (j & Hj & Hin).
  apply GUID_distinct in Hj. apply in_seq in Hin. lia.
Qed.

(** The two ways a turn can end. *)
Lemma generateBatches_turn_cases (c : Client) :
  let k := findLastIndex U opts (events c) (length (events c)) in
  (generateBatches_turn U opts c = emit (LogError "Events too large") c
   ∧ (HARD_CAP <= getRequestBodySize U (take k (events c)))%Z)
  ∨ ((getRequestBodySize U (take k (events c)) < HARD_CAP)%Z
     ∧ events (generateBatches_turn U opts c) = drop k (events c)
     ∧ batches (generateBatches_turn U opts c)
       = <[GUID U (guidCalls c) := take k (events c)]> (batches c)
     ∧ batchIndex (generateBatches_turn U opts c)
       = (batchIndex c ++ [GUID U (guidCalls c)])%list
     ∧ guidCalls (generateBatches_turn U opts c) = S (guidCalls c)).
Proof.
  intros k. unfold generateBatches_turn, persistBatch. fold k.
  destruct (Z.ltb_spec (getRequestBodySize U (take k (events c))) HARD_CAP).
  - right. repeat split. assumption.
  - left. split; [reflexivity | assumption].
Qed.

(** What a run that returns has done: the queue is empty, and the new ids, in
    the order of their creation at the end of [batchIndex], hold the old
    queue cut into consecutive pieces. *)
Lemma generateBatches_order (fuel : nat) :
  forall c c' : Client,
    generateBatches U opts fuel c = Some c' ->
    events c' = []
    ∧ exists ids : list string,
        batchIndex c' = (batchIndex c ++ ids)%list
        ∧ ids = map (GUID U) (seq (guidCalls c) (length ids))
        ∧ concat (map (batch_events c') ids) = events c
        ∧ forall id, id ∉ ids -> batches c' !! id = batches c !! id.
Proof.
  induction fuel as [|fuel IH]; intros c c' Hrun.
  - simpl in Hrun. destruct (events c) eqn:E; [|discriminate].
    injection Hrun as <-. split; [exact E|].
    exists []. rewrite app_nil_r. auto.
  - simpl in Hrun. destruct (events c) as [|e q] eqn:E.
    { injection Hrun as <-. split; [exact E|].
      exists []. rewrite app_nil_r. auto. }
    rewrite <- E in *.
    destruct (IH _ _ Hrun) as (Hempty & ids & Hidx & Hids & Hcat & Hframe).
    split; [exact Hempty|].
    destruct (generateBatches_turn_cases c) as [[Hturn _]|(_ & Hev & Hb & Hi & Hg)].
    + rewrite Hturn in *. exists ids. auto.
    + set (k := findLastIndex U opts (events c) (length (events c))) in *.
      rewrite Hg in Hids. rewrite Hi in Hidx. rewrite Hev in Hcat.
      exists (GUID U (guidCalls c) :: ids).
      assert (Hnew : GUID U (guidCalls c) ∉ ids).
      { rewrite Hids. apply later_ids_differ. }
      split; [rewrite Hidx, <- app_assoc; reflexivity|].
      split; [simpl; f_equal; exact Hids|].
      split.
      * simpl. rewrite Hcat. unfold batch_events.
        rewrite (Hframe _ Hnew), Hb, lookup_insert_eq. simpl. apply take_drop.
      * intros id Hid. apply not_elem_of_cons in Hid as [Hne Hid].
        rewrite (Hframe _ Hid), Hb. apply lookup_insert_ne. congruence.
Qed.

Lemma findLastIndex_step (evs : list Event) (n : nat) :
  findLastIndex U opts evs (S (S n))
  = if (batchSizeLimit opts <? getRequestBodySize U (take (S (S n)) evs))%Z
    then findLastIndex U opts evs (S n)
    else S (S n).
Proof. reflexivity. Qed.

(** The prefix length the inner loop settles on. *)
Lemma findLastIndex_spec (evs : list Event) (n : nat) :
  1 <= n ->
  1 <= findLastIndex U opts evs n <= n
  ∧ (findLastIndex U opts evs n = 1
     ∨ (getRequestBodySize U (take (findLastIndex U opts evs n) evs)
        <= batchSizeLimit opts)%Z).
Proof.
  induction n as [|n IH]; intros Hn; [lia|].
  destruct n as [|n]; [simpl; split; [lia | left; reflexivity]|].
  rewrite findLastIndex_step.
  destruct (Z.ltb_spec (batchSizeLimit opts)
              (getRequestBodySize U (take (S (S n)) evs))).
  - destruct IH as [IH1 IH2]; [lia|]. split; [lia | exact IH2].
  - split; [lia | right; assumption].
Qed.

(** With the soft limit under the hard cap and no single event at or above
    the cap, as many turns as there are queued events are enough. *)
Lemma generateBatches_terminates (fuel : nat) :
  (batchSizeLimit opts < HARD_CAP)%Z ->
  forall c : Client,
    length (events c) <= fuel ->
    (forall e, e ∈ events c -> (getRequestBodySize U [e] < HARD_CAP)%Z) ->
    exists c', generateBatches U opts fuel c = Some c'.
Proof.
  intros Hlimit. induction fuel as [|fuel IH]; intros c Hlen Hsmall.
  - destruct (events c) eqn:E; [|simpl in Hlen; lia].
    exists c. simpl. rewrite E. reflexivity.
  - simpl. destruct (events c) as [|e q] eqn:E; [eauto|].
    rewrite <- E in *.
    assert (Hpos : 1 <= length (events c)) by (rewrite E; simpl; lia).
    destruct (findLastIndex_spec (events c) (length (events c)) Hpos) as [Hk Hfit].
    destruct (generateBatches_turn_cases c) as [[_ Hbig]|(_ & Hev & _)].
    + exfalso. destruct Hfit as [H1|Hfit]; [|lia].
      rewrite H1, E in Hbig. change (take 1 (e :: q)) with [e] in Hbig.
      specialize (Hsmall e). rewrite E in Hsmall.
      assert ((getRequestBodySize U [e] < HARD_CAP)%Z) by (apply Hsmall; left).
      lia.
    + apply IH.
      * rewrite Hev, length_drop. lia.
      * intros x Hx. apply Hsmall. rewrite Hev in Hx.
        rewrite <- (take_drop (findLastIndex U opts (events c) (length (events c)))
                      (events c)).
        apply elem_of_app. right. exact Hx.
Qed.

(** C7. The batches that one [generateBatches] call creates are appended to
    [batchIndex] in the order of their creation, and their event lists, put
    end to end in that order, are the queue the call started from: the order
    of the events is kept within each batch and across batches.  The call
    returns, with an empty queue, whenever the soft limit is under the hard
    cap and no single event is at or above the cap. *)
Theorem generateBatches_keeps_order (c : Client) :
  (forall (fuel : nat) (c' : Client),
      generateBatches U opts fuel c = Some c' ->
      events c' = []
      ∧ exists ids : list string,
          batchIndex c' = (batchIndex c ++ ids)%list
          ∧ ids = map (GUID U) (seq (guidCalls c) (length ids))
          ∧ concat (map (batch_events c') ids) = events c)
  ∧ ((batchSizeLimit opts < HARD_CAP)%Z ->
     (forall e, e ∈ events c -> (getRequestBodySize U [e] < HARD_CAP)%Z) ->
     exists c', generateBatches U opts (length (events c)) c = Some c').
Proof.
  split.
  - intros fuel c' Hrun.
    destruct (generateBatches_order fuel c c' Hrun) as (H1 & ids & H2 & H3 & H4 & _).
    split; [exact H1|]. exists ids. auto.
  - intros Hlimit Hsmall. apply generateBatches_terminates; auto.
Qed.

End Order.

Lemma sample_GUID_distinct (i j : nat) : GUID Sample.env i = GUID Sample.env j -> i = j.
Proof.
  simpl. intros H. apply (inj pretty).
  apply (f_equal (fun s => String.substring 6 (String.length s - 6) s)) in H.
  simpl in H. rewrite !Nat.sub_0_r in H.
  assert (Hsub : forall s : string, String.substring 0 (String.length s) s = s).
  { induction s as [|a s IHs]; simpl; [reflexivity | rewrite IHs; reflexivity]. }
  rewrite !Hsub in H. exact H.
Qed.

Lemma generateBatches_keeps_order_witness :
  (forall (fuel : nat) (c' : Client),
      generateBatches Sample.env Sample.small_batches fuel
        (Sample.queued Sample.three_events) = Some c' ->
      events c' = []
      ∧ exists ids : list string,
          batchIndex c' = (batchIndex (Sample.queued Sample.three_events) ++ ids)%list
          ∧ ids = map (GUID Sample.env)
                      (seq (guidCalls (Sample.queued Sample.three_events)) (length ids))
          ∧ concat (map (batch_events c') ids)
            = events (Sample.queued Sample.three_events))
  ∧ ((batchSizeLimit Sample.small_batches < HARD_CAP)%Z ->
     (forall e, e ∈ events (Sample.queued Sample.three_events) ->
                (getRequestBodySize Sample.env [e] < HARD_CAP)%Z) ->
     exists c', generateBatches Sample.env Sample.small_batches
                  (length (events (Sample.queued Sample.three_events)))
                  (Sample.queued Sample.three_events) = Some c').
Proof.
  apply (generateBatches_keeps_order Sample.env Sample.small_batches
           sample_GUID_distinct (Sample.queued Sample.three_events)).
Defined.

(** Three events under a soft limit that two of them fit: two batches, the
    first two events in the first, the third in the second. *)
Example three_events_two_batches :
  exists c',
    generateBatches Sample.env Sample.small_batches 3 (Sample.queued Sample.three_events)
    = Some c'
    ∧ events c' = [] ∧ EVENTS (storage c') = []
    ∧ batchIndex c' = ["batch-0"; "batch-1"]
    ∧ batches c' !! "batch-0"
      = Some [Sample.event "one" [] []; Sample.event "two" [] []]
    ∧ batches c' !! "batch-1" = Some [Sample.event "three" [] []].
Proof. eexists. vm_compute. repeat split. Qed.

(** ** Two runs of the whole client *)

(** Recording an event in a closed session queues it with the [NaN] duration. *)
Example recordEvent_closed_session :
  exists ev c',
    recordEvent Sample.env Sample.opts 1 Sample.stop_iso 1404155268885 (1 # 2)
      (JsString "level_up") Sample.closed_session None None Sample.fresh
    = Some (Normal (Some ev), c')
    ∧ events c' = [ev]
    ∧ EVENTS (storage c') = [ev]
    ∧ duration (session ev) = Some (JsNumber NaN).
Proof. do 2 eexists. vm_compute. repeat split. Qed.

(** Three queued events under the soft limit: one [submitEvents] call puts
    them in one batch, in their order, dispatches it and empties the queue. *)
Example submitEvents_three_events :
  exists c',
    submitEvents Sample.env Sample.opts 3 1404155270000 (1 # 2)
      {| opt_batchId := None; opt_submitCallback := None; opt_clientContext := None |}
      (Sample.queued Sample.three_events)
    = Some ([Some "batch-0"], c')
    ∧ events c' = []
    ∧ batches c' !! "batch-0" = Some Sample.three_events
    ∧ dispatched (trace c') = ["batch-0"]
    ∧ lastSubmitTimestamp c' = Some 1404155270000%Z.
Proof. eexists. vm_compute. repeat split. Qed.

(** * Further properties of the client *)

(** ** Creating and queueing events *)

(** [validateEvent] has two ways out, and logs on neither. *)
Lemma validateEvent_two_ways (event : Event) :
  validateEvent event = ([], Normal (Some event))
  ∨ exists err, validateEvent event = ([], Throw err).
Proof.
  unfold validateEvent, validationError, bare_call_this.
  repeat match goal with
         | |- context [if ?b then _ else _] =>
             destruct b; [right; eexists; reflexivity|]
         end.
  left. reflexivity.
Qed.

Lemma validateEvent_schema_cases (event : Event) :
  validateEvent event =
    if schema_ok event then ([], Normal (Some event))
    else ([], Throw (TypeError "Cannot read property 'logger' of undefined")).
Proof.
  unfold validateEvent, schema_ok, invalidMetrics.
  rewrite !filter_nonempty, count_in_range.
  rewrite (forallb_pointwise _ _ (Object_keys (metrics event))
             (fun x => negb_involutive (is_number (get_prop (metrics event) x)))).
  rewrite (forallb_pointwise _ _ (Object_keys (attributes event)) name_in_range).
  rewrite (forallb_pointwise _ _ (Object_keys (metrics event)) name_in_range).
  rewrite (forallb_pointwise _ _ (Object_keys (attributes event)) (value_in_range event)).
  repeat match goal with
         | |- context [if negb ?b then _ else _] => destruct b; simpl; [|reflexivity]
         end.
  reflexivity.
Qed.

(** X4. [createEvent] never returns [null] and never logs: it returns an
    event or it throws.  The [return null] at the end of [recordEvent] is
    never reached. *)
Theorem createEvent_never_null (U : Env) (opts : Options) (nowISO : string)
    (ty : JsVal) (sess : SessionArg) (attrs mets : option JsDict) :
  fst (createEvent U opts nowISO ty sess attrs mets) = []
  ∧ snd (createEvent U opts nowISO ty sess attrs mets) ≠ Normal None.
Proof.
  unfold createEvent.
  destruct (stringifyAttributes U _ _) as [attributes'|err]; [|split; [reflexivity | discriminate]].
  match goal with
  | |- context [validateEvent ?e] =>
      destruct (validateEvent_two_ways e) as [H|[err H]]; rewrite H
  end; split; try reflexivity; discriminate.
Qed.

Lemma createEvent_silent (U : Env) (opts : Options) (nowISO : string)
    (ty : JsVal) (sess : SessionArg) (attrs mets : option JsDict)
    (log : list Effect) (r : Completion (option Event)) :
  createEvent U opts nowISO ty sess attrs mets = (log, r) -> log = [].
Proof.
  unfold createEvent.
  destruct (stringifyAttributes U _ _) as [attributes'|err]; [|intros [= <- _]; reflexivity].
  match goal with
  | |- context [validateEvent ?e] =>
      destruct (validateEvent_two_ways e) as [H|[err H]]; rewrite H
  end; intros [= <- _]; reflexivity.
Qed.

(** X5. An event that [createEvent] returns is within the seven limits of the
    validator and carries the given type, which is a string, the version
    "v2.0", the time of the call, the session id and start, and the metrics
    merged with the global ones; without a [stopTimestamp] in the session
    argument it has neither [stopTimestamp] nor [duration]. *)
Theorem createEvent_returned_event (U : Env) (opts : Options) (nowISO : string)
    (ty : JsVal) (sess : SessionArg) (attrs mets : option JsDict)
    (log : list Effect) (ev : Event) :
  createEvent U opts nowISO ty sess attrs mets = (log, Normal (Some ev)) ->
  schema_ok ev = true
  ∧ eventType ev = ty ∧ is_string ty = true
  ∧ version ev = JsString "v2.0"
  ∧ timestamp ev = nowISO
  ∧ session_id (session ev) = arg_id sess
  ∧ startTimestamp (session ev) = arg_startTimestamp sess
  ∧ metrics ev = mergeObjects U (default [] mets) (globalMetrics opts)
  ∧ (truthy (arg_stopTimestamp sess) = false ->
     stopTimestamp (session ev) = None ∧ duration (session ev) = None).
Proof.
  unfold createEvent.
  destruct (stringifyAttributes U _ _) as [attributes'|err]; [|discriminate].
  match goal with
  | |- validateEvent ?e = _ -> _ => rewrite (validateEvent_schema_cases e);
      destruct (schema_ok e) eqn:Hok; [|discriminate]
  end.
  intros [= _ <-]. split; [exact Hok|].
  assert (Hty : is_string ty = true).
  { unfold schema_ok in Hok. destruct (truthy (arg_stopTimestamp sess));
      cbn [eventType] in Hok; destruct (is_string ty); [reflexivity| |reflexivity|];
      rewrite andb_false_r in Hok; discriminate Hok. }
  destruct (truthy (arg_stopTimestamp sess)); repeat split; try exact Hty; discriminate.
Qed.

Lemma createEvent_returned_event_witness :
  exists ev,
    createEvent Sample.env Sample.opts Sample.stop_iso (JsString "level_up")
      Sample.closed_session (Some [("level", JsNumber (Fin 3))]) None
    = ([], Normal (Some ev))
    ∧ schema_ok ev = true
    ∧ attributes ev = [("level", JsString "0")].
Proof.
  eexists. split; [reflexivity|].
  split; [|reflexivity].
  apply (createEvent_returned_event Sample.env Sample.opts Sample.stop_iso
           (JsString "level_up") Sample.closed_session
           (Some [("level", JsNumber (Fin 3))]) None []).
  reflexivity.
Defined.

(** X1. [pushEvent] puts the event at the end of the queue, returns its
    index, keeps every event already queued at its index, and writes the queue
    to the storage; for a missing event it returns -1 and changes nothing. *)
Theorem pushEvent_appends (e : Event) (c : Client) :
  fst (pushEvent (Some e) c) = Z.of_nat (length (events c))
  ∧ events (snd (pushEvent (Some e) c)) = (events c ++ [e])%list
  ∧ events (snd (pushEvent (Some e) c)) !! Z.to_nat (fst (pushEvent (Some e) c)) = Some e
  ∧ (forall (i : nat) (x : Event),
        events c !! i = Some x -> events (snd (pushEvent (Some e) c)) !! i = Some x)
  ∧ EVENTS (storage (snd (pushEvent (Some e) c))) = events (snd (pushEvent (Some e) c))
  ∧ pushEvent None c = ((-1)%Z, c).
Proof.
  assert (Hidx : fst (pushEvent (Some e) c) = Z.of_nat (length (events c))).
  { cbn. rewrite length_app. cbn. lia. }
  split; [exact Hidx|]. split; [reflexivity|]. split.
  - rewrite Hidx, Nat2Z.id. cbn. apply list_lookup_middle. reflexivity.
  - split; [|split; reflexivity].
    intros i x Hi. cbn. apply lookup_app_l_Some. exact Hi.
Qed.

(** ** What batch generation leaves alone *)

Lemma callbacks_app (t u : list Effect) :
  callbacks (t ++ u) = (callbacks t ++ callbacks u)%list.
Proof.
  induction t as [|x t IH]; simpl; [reflexivity|].
  destruct x; simpl; rewrite IH; reflexivity.
Qed.

Lemma generateBatches_turn_frame (U : Env) (opts : Options) (c : Client) :
  batchesInFlight (generateBatches_turn U opts c) = batchesInFlight c
  ∧ isThrottled (generateBatches_turn U opts c) = isThrottled c
  ∧ lastSubmitTimestamp (generateBatches_turn U opts c) = lastSubmitTimestamp c
  ∧ dispatched (trace (generateBatches_turn U opts c)) = dispatched (trace c)
  ∧ warnings (trace (generateBatches_turn U opts c)) = warnings (trace c)
  ∧ callbacks (trace (generateBatches_turn U opts c)) = callbacks (trace c).
Proof.
  unfold generateBatches_turn, persistBatch.
  destruct (_ <? _)%Z; cbn; repeat split;
    rewrite ?dispatched_app, ?warnings_app, ?callbacks_app; cbn;
    rewrite ?app_nil_r; reflexivity.
Qed.

(** A run of [generateBatches] that returns has emptied the queue; it dispatches
    nothing, warns of nothing, and leaves the in-flight table, the throttle
    flag and the time of the last submission as they were. *)
Lemma generateBatches_frame (U : Env) (opts : Options) (fuel : nat) :
  forall c c' : Client,
    generateBatches U opts fuel c = Some c' ->
    events c' = []
    ∧ batchesInFlight c' = batchesInFlight c
    ∧ isThrottled c' = isThrottled c
    ∧ lastSubmitTimestamp c' = lastSubmitTimestamp c
    ∧ dispatched (trace c') = dispatched (trace c)
    ∧ warnings (trace c') = warnings (trace c)
    ∧ callbacks (trace c') = callbacks (trace c).
Proof.
  induction fuel as [|fuel IH]; intros c c' Hrun; simpl in Hrun.
  - destruct (events c) eqn:E; [|discriminate]. injection Hrun as <-. repeat split. exact E.
  - destruct (events c) eqn:E.
    + injection Hrun as <-. repeat split. exact E.
    + destruct (IH _ _ Hrun) as (H1 & H2 & H3 & H4 & H5 & H6 & H7).
      destruct (generateBatches_turn_frame U opts c) as (F2 & F3 & F4 & F5 & F6 & F7).
      repeat split; congruence.
Qed.

(** ** The steps of [submitEvents] *)

Lemma submitEvents_unfold (U : Env) (opts : Options) (fuel : nat) (now : Z) (rnd : Q)
    (options : SubmitOptions) (c : Client) :
  submitEvents U opts fuel now rnd options c
  = match warnMessage now rnd (rearmed opts c) with
    | Some msg => Some ([], emit (LogWarn msg) (rearmed opts c))
    | None =>
        match generateBatches U opts fuel (rearmed opts c) with
        | None => None
        | Some c1 =>
            if isThrottled c1 then
              let '(r, c3) :=
                submitBatchById opts now
                  {| opt_batchId := batchIndex c1 !! O;
                     opt_submitCallback :=
                       Some (default (submitCallback opts) (opt_submitCallback options));
                     opt_clientContext := opt_clientContext options |}
                  (emit (LogWarn "Is throttled submitting first batch")
                        (set_lastSubmitTimestamp (Some now) c1)) in
              Some ([r], c3)
            else
              Some (submitAllBatches opts now
                      {| opt_batchId := opt_batchId options;
                         opt_submitCallback :=
                           Some (default (submitCallback opts) (opt_submitCallback options));
                         opt_clientContext := opt_clientContext options |}
                      (set_lastSubmitTimestamp (Some now) c1))
        end
    end.
Proof. reflexivity. Qed.

(** Re-arming the timer touches nothing but the trace, and adds no warning,
    request or callback to it. *)
Lemma rearmed_frame (opts : Options) (c : Client) :
  same_store (rearmed opts c) c
  ∧ batchesInFlight (rearmed opts c) = batchesInFlight c
  ∧ dispatched (trace (rearmed opts c)) = dispatched (trace c)
  ∧ warnings (trace (rearmed opts c)) = warnings (trace c)
  ∧ callbacks (trace (rearmed opts c)) = callbacks (trace c).
Proof.
  unfold rearmed. destruct (autoSubmitEvents opts); cbn; repeat split;
    rewrite ?dispatched_app, ?warnings_app, ?callbacks_app; cbn;
    rewrite ?app_nil_r; reflexivity.
Qed.

(** The gate depends on the throttle flag, the in-flight table and the time of
    the last submission only. *)
Lemma warnMessage_depends (now : Z) (rnd : Q) (c1 c0 : Client) :
  isThrottled c1 = isThrottled c0 ->
  batchesInFlight c1 = batchesInFlight c0 ->
  lastSubmitTimestamp c1 = lastSubmitTimestamp c0 ->
  warnMessage now rnd c1 = warnMessage now rnd c0.
Proof.
  intros H1 H2 H3.
  unfold warnMessage, throttlingSuppressionFunction, submitted_under_a_second_ago,
    batches_length_is_0.
  rewrite H1, H2, H3.
  destruct (batches c1 !! "length"), (batches c0 !! "length"); reflexivity.
Qed.

Lemma warnMessage_rearmed (opts : Options) (now : Z) (rnd : Q) (c : Client) :
  warnMessage now rnd (rearmed opts c) = warnMessage now rnd c.
Proof.
  destruct (rearmed_frame opts c) as ((_ & _ & _ & H1 & H2 & _) & H3 & _).
  apply warnMessage_depends; assumption.
Qed.

(** Not throttled, nothing in flight, no submission in the last second: the
    gate is open. *)
Lemma warnMessage_open (now : Z) (rnd : Q) (c : Client) :
  isThrottled c = false ->
  batchesInFlight c = ∅ ->
  submitted_under_a_second_ago now c = false ->
  warnMessage now rnd c = None.
Proof.
  intros H1 H2 H3. unfold warnMessage, batches_length_is_0.
  rewrite H1, H2, H3. cbn. destruct (batches c !! "length"); reflexivity.
Qed.

(** A pass of [submitEvents] through an open gate that returns leaves the
    queue empty and records the time. *)
Lemma submitEvents_passed (U : Env) (opts : Options) (fuel : nat) (now : Z) (rnd : Q)
    (options : SubmitOptions) (c c' : Client) (r : list (option string)) :
  warnMessage now rnd c = None ->
  submitEvents U opts fuel now rnd options c = Some (r, c') ->
  events c' = [] ∧ lastSubmitTimestamp c' = Some now.
Proof.
  intros Hgate. rewrite submitEvents_unfold, warnMessage_rearmed, Hgate.
  destruct (generateBatches U opts fuel (rearmed opts c)) as [c1|] eqn:Hrun; [|discriminate].
  destruct (generateBatches_frame U opts fuel _ _ Hrun) as (Hempty & _).
  destruct (isThrottled c1).
  - destruct (submitBatchById opts now _ _) as [r3 c3] eqn:E.
    intros Hret. assert (c' = c3) as -> by congruence.
    pose proof (submitBatchById_same_store opts now
                  {| opt_batchId := batchIndex c1 !! O;
                     opt_submitCallback :=
                       Some (default (submitCallback opts) (opt_submitCallback options));
                     opt_clientContext := opt_clientContext options |}
                  (emit (LogWarn "Is throttled submitting first batch")
                        (set_lastSubmitTimestamp (Some now) c1))) as Hs.
    rewrite E in Hs. destruct Hs as (S1 & _ & _ & _ & S5 & _).
    cbn [snd] in S1, S5. rewrite S1, S5. split; [exact Hempty | reflexivity].
  - intros Hret.
    assert (c' = snd (submitAllBatches opts now
                {| opt_batchId := opt_batchId options;
                   opt_submitCallback :=
                     Some (default (submitCallback opts) (opt_submitCallback options));
                   opt_clientContext := opt_clientContext options |}
                (set_lastSubmitTimestamp (Some now) c1))) as ->.
    { injection Hret as Hret. rewrite Hret. reflexivity. }
    destruct (submitAllBatches_same_store opts now
                {| opt_batchId := opt_batchId options;
                   opt_submitCallback :=
                     Some (default (submitCallback opts) (opt_submitCallback options));
                   opt_clientContext := opt_clientContext options |}
                (set_lastSubmitTimestamp (Some now) c1)) as (S1 & _ & _ & _ & S5 & _).
    rewrite S1, S5. split; [exact Hempty | reflexivity].
Qed.

(** ** recordEvent *)

(** After a successful [createEvent], [recordEvent] has queued the event and
    either returns it or starts a submission. *)
Lemma recordEvent_created (U : Env) (opts : Options) (fuel : nat) (nowISO : string)
    (now : Z) (rnd : Q) (ty : JsVal) (sess : SessionArg) (attrs mets : option JsDict)
    (c : Client) (log : list Effect) (ev : Event) :
  createEvent U opts nowISO ty sess attrs mets = (log, Normal (Some ev)) ->
  recordEvent U opts fuel nowISO now rnd ty sess attrs mets c
  = let c1 := persist_EVENTS (set_events (events c ++ [ev]) c) in
    if (batchSizeLimit opts <=? getRequestBodySize U (events c ++ [ev]))%Z then
      match submitEvents U opts fuel now rnd
              {| opt_batchId := None; opt_submitCallback := None;
                 opt_clientContext := None |} c1 with
      | None => None
      | Some (_, c2) => Some (Normal (events c2 !! length (events c)), c2)
      end
    else Some (Normal (Some ev), c1).
Proof.
  intros Hcreate. pose proof (createEvent_silent _ _ _ _ _ _ _ _ _ Hcreate) as ->.
  unfold recordEvent. rewrite Hcreate. cbn [fold_left pushEvent].
  assert (Hidx : Z.to_nat (Z.of_nat (length (events (set_events (events c ++ [ev]) c))) - 1)
                 = length (events c)).
  { cbn. rewrite length_app. cbn. lia. }
  rewrite Hidx. cbn [events persist_EVENTS set_events set_storage].
  destruct (_ <=? _)%Z; [reflexivity|].
  rewrite list_lookup_middle by reflexivity. reflexivity.
Qed.

(** X2. A created event that keeps the queue under [batchSizeLimit] is
    returned and is the new last element of the queue, in memory and in the
    storage; the Batch Store is untouched and nothing is dispatched. *)
Theorem recordEvent_queues (U : Env) (opts : Options) (fuel : nat) (nowISO : string)
    (now : Z) (rnd : Q) (ty : JsVal) (sess : SessionArg) (attrs mets : option JsDict)
    (c : Client) (log : list Effect) (ev : Event) :
  createEvent U opts nowISO ty sess attrs mets = (log, Normal (Some ev)) ->
  (getRequestBodySize U (events c ++ [ev]) < batchSizeLimit opts)%Z ->
  exists c',
    recordEvent U opts fuel nowISO now rnd ty sess attrs mets c
    = Some (Normal (Some ev), c')
    ∧ events c' = (events c ++ [ev])%list
    ∧ EVENTS (storage c') = (events c ++ [ev])%list
    ∧ batches c' = batches c ∧ batchIndex c' = batchIndex c
    ∧ batchesInFlight c' = batchesInFlight c
    ∧ trace c' = trace c.
Proof.
  intros Hcreate Hsmall. rewrite (recordEvent_created _ _ _ _ _ _ _ _ _ _ _ _ _ Hcreate).
  cbv zeta. destruct (Z.leb_spec (batchSizeLimit opts)
                        (getRequestBodySize U (events c ++ [ev]))); [lia|].
  eexists. split; [reflexivity|]. repeat split.
Qed.

Lemma recordEvent_queues_witness :
  exists ev c',
    recordEvent Sample.env Sample.opts 0 Sample.stop_iso 1404155268885 (1 # 2)
      (JsString "three") Sample.closed_session None None Sample.two_queued
    = Some (Normal (Some ev), c')
    ∧ events c' = (events Sample.two_queued ++ [ev])%list
    ∧ EVENTS (storage c') = (events Sample.two_queued ++ [ev])%list
    ∧ batches c' = batches Sample.two_queued
    ∧ batchIndex c' = batchIndex Sample.two_queued
    ∧ batchesInFlight c' = batchesInFlight Sample.two_queued
    ∧ trace c' = trace Sample.two_queued.
Proof.
  eexists.
  apply (recordEvent_queues Sample.env Sample.opts 0 Sample.stop_iso 1404155268885
           (1 # 2) (JsString "three") Sample.closed_session None None
           Sample.two_queued []).
  - reflexivity.
  - vm_compute. reflexivity.
Defined.

(** X3. When the created event brings the queue to [batchSizeLimit] and the
    gate is open, [recordEvent] submits; if that returns, the queue has been
    emptied into batches, so the lookup of the recorded event by its index
    finds nothing: [recordEvent] returns undefined, not the event. *)
Theorem recordEvent_flush_returns_undefined (U : Env) (opts : Options) (fuel : nat)
    (nowISO : string) (now : Z) (rnd : Q) (ty : JsVal) (sess : SessionArg)
    (attrs mets : option JsDict) (c c' : Client) (log : list Effect) (ev : Event)
    (r : Completion (option Event)) :
  createEvent U opts nowISO ty sess attrs mets = (log, Normal (Some ev)) ->
  (batchSizeLimit opts <= getRequestBodySize U (events c ++ [ev]))%Z ->
  isThrottled c = false ->
  batchesInFlight c = ∅ ->
  submitted_under_a_second_ago now c = false ->
  recordEvent U opts fuel nowISO now rnd ty sess attrs mets c = Some (r, c') ->
  r = Normal None ∧ events c' = [] ∧ lastSubmitTimestamp c' = Some now.
Proof.
  intros Hcreate Hbig Hthr Hfl Hlast.
  rewrite (recordEvent_created _ _ _ _ _ _ _ _ _ _ _ _ _ Hcreate). cbv zeta.
  destruct (Z.leb_spec (batchSizeLimit opts)
              (getRequestBodySize U (events c ++ [ev]))); [|lia].
  destruct (submitEvents U opts fuel now rnd _ _) as [[ids c2]|] eqn:Hsub; [|discriminate].
  intros [= <- <-].
  apply submitEvents_passed in Hsub as [Hempty Hnow].
  - rewrite Hempty. repeat split. exact Hnow.
  - apply warnMessage_open; assumption.
Qed.

Lemma recordEvent_flush_returns_undefined_witness :
  exists c',
    recordEvent Sample.env Sample.small_batches 3 Sample.stop_iso 1404155268885 (1 # 2)
      (JsString "three") Sample.closed_session None None Sample.two_queued
    = Some (Normal None, c')
    ∧ events c' = [] ∧ lastSubmitTimestamp c' = Some 1404155268885%Z.
Proof.
  eexists. split; [vm_compute; reflexivity|].
  eapply (recordEvent_flush_returns_undefined Sample.env Sample.small_batches 3
            Sample.stop_iso 1404155268885 (1 # 2) (JsString "three")
            Sample.closed_session None None Sample.two_queued).
  - vm_compute. reflexivity.
  - apply Z.leb_le. vm_compute. reflexivity.
  - reflexivity.
  - reflexivity.
  - reflexivity.
  - vm_compute. reflexivity.
Defined.

(** ** The gates of [submitEvents] *)

Lemma errors_app (t u : list Effect) : errors (t ++ u) = (errors t ++ errors u)%list.
Proof.
  induction t as [|x t IH]; simpl; [reflexivity|].
  destruct x; simpl; rewrite IH; reflexivity.
Qed.

(** An open gate means that nothing is in flight. *)
Lemma warnMessage_None_in_flight (now : Z) (rnd : Q) (c : Client) :
  warnMessage now rnd c = None -> batchesInFlight c = ∅.
Proof.
  unfold warnMessage. destruct (_ && _); [discriminate|].
  destruct (Nat.ltb_spec 0 (size (batchesInFlight c))); [discriminate|].
  intros _. apply map_size_empty_iff. lia.
Qed.

(** X13. While a batch is in flight, a [submitEvents] call that gets past the
    throttle gate is refused, whatever the fuel: it returns the empty array,
    logs one warning, and leaves the queue, the Batch Store, the in-flight
    table and the time of the last submission as they were. *)
Theorem submitEvents_refused_in_flight (U : Env) (opts : Options) (fuel : nat)
    (now : Z) (rnd : Q) (options : SubmitOptions) (c : Client) :
  passes_throttle_gate now rnd c ->
  batchesInFlight c ≠ ∅ ->
  exists c',
    submitEvents U opts fuel now rnd options c = Some ([], c')
    ∧ same_store c' c
    ∧ batchesInFlight c' = batchesInFlight c
    ∧ dispatched (trace c') = dispatched (trace c)
    ∧ warnings (trace c')
      = (warnings (trace c) ++ ["Prevented submission while batches are in flight"])%list.
Proof.
  intros Hpass Hfl.
  assert (Hmsg : warnMessage now rnd c
                 = Some "Prevented submission while batches are in flight").
  { unfold passes_throttle_gate in Hpass. unfold warnMessage in *.
    destruct (_ && _); [contradiction Hpass; reflexivity|].
    destruct (Nat.ltb_spec 0 (size (batchesInFlight c))); [reflexivity|].
    exfalso. apply Hfl, map_size_empty_iff. lia. }
  destruct (rearmed_frame opts c) as (R1 & R2 & R3 & R4 & _).
  eexists. split.
  - rewrite submitEvents_unfold, warnMessage_rearmed, Hmsg. reflexivity.
  - split; [eapply same_store_trans; [|exact R1]; repeat split|].
    split; [exact R2|]. cbn [trace emit].
    rewrite dispatched_app, warnings_app, R3, R4. cbn. rewrite app_nil_r. auto.
Qed.

Lemma submitEvents_refused_in_flight_witness :
  exists c',
    submitEvents Sample.env Sample.opts 0 1404155275000 (1 # 2)
      {| opt_batchId := None; opt_submitCallback := None; opt_clientContext := None |}
      Sample.two_batches = Some ([], c')
    ∧ same_store c' Sample.two_batches
    ∧ batchesInFlight c' = batchesInFlight Sample.two_batches
    ∧ dispatched (trace c') = dispatched (trace Sample.two_batches)
    ∧ warnings (trace c')
      = (warnings (trace Sample.two_batches)
         ++ ["Prevented submission while batches are in flight"])%list.
Proof.
  apply (submitEvents_refused_in_flight Sample.env Sample.opts 0 1404155275000 (1 # 2)
           _ Sample.two_batches).
  - vm_compute. discriminate.
  - apply (bool_decide_unpack _). vm_compute. exact I.
Defined.

(** What a pass through an open gate keeps and sets. *)
Lemma submitEvents_passed_frame (U : Env) (opts : Options) (fuel : nat) (now : Z)
    (rnd : Q) (options : SubmitOptions) (c c' : Client) (r : list (option string)) :
  warnMessage now rnd c = None ->
  submitEvents U opts fuel now rnd options c = Some (r, c') ->
  exists c1,
    generateBatches U opts fuel (rearmed opts c) = Some c1
    ∧ isThrottled c1 = isThrottled c
    ∧ batchesInFlight c1 = ∅
    ∧ same_store c' (set_lastSubmitTimestamp (Some now) c1)
    ∧ (r, c')
      = if isThrottled c then
          let p :=
            submitBatchById opts now
              {| opt_batchId := batchIndex c1 !! O;
                 opt_submitCallback :=
                   Some (default (submitCallback opts) (opt_submitCallback options));
                 opt_clientContext := opt_clientContext options |}
              (emit (LogWarn "Is throttled submitting first batch")
                    (set_lastSubmitTimestamp (Some now) c1)) in
          ([fst p], snd p)
        else
          submitAllBatches opts now
            {| opt_batchId := opt_batchId options;
               opt_submitCallback :=
                 Some (default (submitCallback opts) (opt_submitCallback options));
               opt_clientContext := opt_clientContext options |}
            (set_lastSubmitTimestamp (Some now) c1).
Proof.
  intros Hgate. rewrite submitEvents_unfold, warnMessage_rearmed, Hgate.
  destruct (generateBatches U opts fuel (rearmed opts c)) as [c1|] eqn:Hrun; [|discriminate].
  destruct (generateBatches_frame U opts fuel _ _ Hrun) as (_ & F2 & F3 & _).
  destruct (rearmed_frame opts c) as ((_ & _ & _ & R4 & _) & R2 & _).
  assert (Hthr : isThrottled c1 = isThrottled c) by congruence.
  assert (Hfl : batchesInFlight c1 = ∅).
  { rewrite F2, R2. eapply warnMessage_None_in_flight, Hgate. }
  rewrite Hthr. intros Hret. exists c1.
  split; [reflexivity|]. split; [exact Hthr|]. split; [exact Hfl|].
  destruct (isThrottled c).
  - destruct (submitBatchById opts now _ _) as [r3 c3] eqn:E.
    injection Hret as <- <-. split; [|reflexivity].
    change c3 with (snd (r3, c3)). rewrite <- E.
    eapply same_store_trans; [apply submitBatchById_same_store | repeat split].
  - injection Hret as Hret. split; [|symmetry; exact Hret].
    change c' with (snd (r, c')). rewrite <- Hret. apply submitAllBatches_same_store.
Qed.

(** X14. After a [submitEvents] call that went through the gate at time [now],
    a second call less than 1000 ms later dispatches nothing: it is refused
    with a warning, because batches are in flight or because of the
    one-second gate, and the time of the last submission stays [now]. *)
Theorem submitEvents_twice_within_a_second (U : Env) (opts : Options) (fuel fuel' : nat)
    (now now' : Z) (rnd rnd' : Q) (options options' : SubmitOptions)
    (c c1 : Client) (r : list (option string)) :
  isThrottled c = false ->
  warnMessage now rnd c = None ->
  submitEvents U opts fuel now rnd options c = Some (r, c1) ->
  now ≠ 0%Z ->
  (now' - now < 1000)%Z ->
  exists (msg : string) (c2 : Client),
    submitEvents U opts fuel' now' rnd' options' c1 = Some ([], c2)
    ∧ warnings (trace c2) = (warnings (trace c1) ++ [msg])%list
    ∧ dispatched (trace c2) = dispatched (trace c1)
    ∧ same_store c2 c1
    ∧ lastSubmitTimestamp c2 = Some now.
Proof.
  intros Hthr Hgate Hsub Hnow Hsoon.
  destruct (submitEvents_passed_frame _ _ _ _ _ _ _ _ _ Hgate Hsub)
    as (c0 & _ & Hthr0 & _ & Hsame & _).
  destruct Hsame as (_ & _ & _ & S4 & S5 & _). cbn in S4, S5.
  assert (Hmsg : exists msg, warnMessage now' rnd' c1 = Some msg).
  { unfold warnMessage, submitted_under_a_second_ago.
    rewrite S4, Hthr0, Hthr, S5. cbn [andb].
    destruct (0 <? size (batchesInFlight c1))%nat; [eauto|].
    destruct (batches_length_is_0 c1 && _); [eauto|].
    destruct (Z.eqb_spec now 0); [contradiction|].
    destruct (Z.ltb_spec (now' - now) 1000); [cbn; eauto | lia]. }
  destruct Hmsg as [msg Hmsg].
  destruct (rearmed_frame opts c1) as (R1 & R2 & R3 & R4 & _).
  exists msg. eexists. split.
  - rewrite submitEvents_unfold, warnMessage_rearmed, Hmsg. reflexivity.
  - cbn [trace emit]. rewrite warnings_app, dispatched_app, R3, R4. cbn.
    rewrite app_nil_r. split; [reflexivity|]. split; [reflexivity|].
    split; [eapply same_store_trans; [|exact R1]; repeat split|].
    cbn. destruct R1 as (_ & _ & _ & _ & R5 & _). congruence.
Qed.

Lemma submitEvents_twice_within_a_second_witness :
  exists (c1 c2 : Client) (msg : string),
    submitEvents Sample.env Sample.opts 3 1404155270000 (1 # 2)
      {| opt_batchId := None; opt_submitCallback := None; opt_clientContext := None |}
      (Sample.queued Sample.three_events) = Some ([Some "batch-0"], c1)
    ∧ submitEvents Sample.env Sample.opts 3 1404155270500 (1 # 2)
        {| opt_batchId := None; opt_submitCallback := None; opt_clientContext := None |}
        c1 = Some ([], c2)
    ∧ warnings (trace c2) = (warnings (trace c1) ++ [msg])%list
    ∧ lastSubmitTimestamp c2 = Some 1404155270000%Z.
Proof.
  eexists.
  destruct (submitEvents_twice_within_a_second Sample.env Sample.opts 3 3
              1404155270000 1404155270500 (1 # 2) (1 # 2)
              {| opt_batchId := None; opt_submitCallback := None;
                 opt_clientContext := None |}
              {| opt_batchId := None; opt_submitCallback := None;
                 opt_clientContext := None |}
              (Sample.queued Sample.three_events) _ [Some "batch-0"]
              eq_refl eq_refl ltac:(vm_compute; reflexivity) ltac:(lia) ltac:(lia))
    as (msg & c2 & H1 & H2 & _ & _ & H5).
  exists c2, msg. split; [vm_compute; reflexivity|]. auto.
Defined.

(** ** What a pass dispatches *)

Lemma filter_none (A : Type) (f : A -> bool) (l : list A) :
  (forall x, x ∈ l -> f x = false) -> List.filter f l = [].
Proof.
  induction l as [|x l IH]; intros H; simpl; [reflexivity|].
  rewrite (H x) by left. apply IH. intros y Hy. apply H. right. exact Hy.
Qed.

(** X15. A [submitEvents] call of a client that is not throttled, once through
    the gate and back, has emptied the queue and dispatched every batch of
    [batchIndex], the older ones and the ones it has just generated, in index
    order; it returns their ids. *)
Theorem submitEvents_dispatches_all (U : Env) (opts : Options) (fuel : nat)
    (now : Z) (rnd : Q) (options : SubmitOptions) (c c' : Client)
    (r : list (option string)) :
  isThrottled c = false ->
  warnMessage now rnd c = None ->
  submitEvents U opts fuel now rnd options c = Some (r, c') ->
  NoDup (batchIndex c') ->
  "" ∉ batchIndex c' ->
  r = map Some (batchIndex c')
  ∧ dispatched (trace c') = (dispatched (trace c) ++ batchIndex c')%list
  ∧ events c' = []
  ∧ lastSubmitTimestamp c' = Some now.
Proof.
  intros Hthr Hgate Hsub Hnd Hne.
  destruct (submitEvents_passed_frame _ _ _ _ _ _ _ _ _ Hgate Hsub)
    as (c1 & Hrun & _ & Hfl & Hsame & Hret).
  rewrite Hthr in Hret.
  destruct (generateBatches_frame U opts fuel _ _ Hrun) as (Hempty & _ & _ & _ & Hdis & _).
  destruct (rearmed_frame opts c) as (_ & _ & R3 & _).
  destruct Hsame as (S1 & _ & S3 & _ & S5 & _). cbn in S1, S3, S5.
  set (c2 := set_lastSubmitTimestamp (Some now) c1) in *.
  assert (Hpending : pending_not_in_flight c2 = batchIndex c2).
  { apply filter_all. intros id _. unfold inFlight. cbn. rewrite Hfl, lookup_empty.
    reflexivity. }
  assert (Hidx : batchIndex c2 = batchIndex c') by (symmetry; exact S3).
  match type of Hret with
  | _ = submitAllBatches opts now ?o c2 =>
      destruct (submitAllBatches_spec opts now o c2) as (P1 & P2 & _);
        [rewrite Hidx; exact Hnd | rewrite Hidx; exact Hne |];
        rewrite <- Hret in P1, P2
  end.
  cbn [fst snd] in P1, P2. rewrite Hpending, Hidx in P1, P2.
  split; [exact P1|]. split.
  - rewrite P2, dispatched_app, dispatched_requests. cbn [trace c2 set_lastSubmitTimestamp].
    rewrite Hdis, R3. reflexivity.
  - split; congruence.
Qed.

Lemma submitEvents_dispatches_all_witness :
  exists (c' : Client) (r : list (option string)),
    submitEvents Sample.env Sample.small_batches 3 1404155270000 (1 # 2)
      Sample.no_options
      (Sample.queued Sample.three_events) = Some (r, c')
    ∧ batchIndex c' = ["batch-0"; "batch-1"]
    ∧ r = map Some (batchIndex c')
    ∧ dispatched (trace c')
      = (dispatched (trace (Sample.queued Sample.three_events)) ++ batchIndex c')%list
    ∧ events c' = []
    ∧ lastSubmitTimestamp c' = Some 1404155270000%Z.
Proof.
  do 2 eexists. split; [vm_compute; reflexivity|]. split; [reflexivity|].
  eapply (submitEvents_dispatches_all Sample.env Sample.small_batches 3 1404155270000
            (1 # 2) Sample.no_options (Sample.queued Sample.three_events)).
  - reflexivity.
  - reflexivity.
  - vm_compute. reflexivity.
  - apply (bool_decide_unpack _). vm_compute. exact I.
  - apply (bool_decide_unpack _). vm_compute. exact I.
Defined.

(** ** Runs of [generateBatches] that return *)

(** Once a turn finds its batch at or above the hard cap, the call is stuck. *)
Lemma generateBatches_stuck (U : Env) (opts : Options) (fuel : nat) :
  forall c : Client,
    events c ≠ [] ->
    (HARD_CAP <=
       getRequestBodySize U
         (take (findLastIndex U opts (events c) (length (events c))) (events c)))%Z ->
    generateBatches U opts fuel c = None.
Proof.
  induction fuel as [|fuel IH]; intros c Hq Hbig; simpl.
  - destruct (events c); [contradiction | reflexivity].
  - destruct (events c) eqn:E; [contradiction|]. rewrite <- E in *.
    rewrite (generateBatches_turn_refused U opts c Hbig).
    apply IH; assumption.
Qed.

Lemma generateBatches_turn_persisted (U : Env) (opts : Options) (c : Client) :
  (getRequestBodySize U
     (take (findLastIndex U opts (events c) (length (events c))) (events c))
   < HARD_CAP)%Z ->
  trace (generateBatches_turn U opts c) = trace c.
Proof.
  intros H. unfold generateBatches_turn, persistBatch.
  destruct (Z.ltb_spec (getRequestBodySize U
              (take (findLastIndex U opts (events c) (length (events c))) (events c)))
              HARD_CAP); [reflexivity | lia].
Qed.

(** A run that returns has added nothing to the trace. *)
Lemma generateBatches_silent (U : Env) (opts : Options) (fuel : nat) :
  forall c c' : Client,
    generateBatches U opts fuel c = Some c' -> trace c' = trace c.
Proof.
  induction fuel as [|fuel IH]; intros c c' Hrun.
  - simpl in Hrun. destruct (events c); [congruence | discriminate].
  - destruct (events c) as [|e q] eqn:E.
    + simpl in Hrun. rewrite E in Hrun. congruence.
    + destruct (Z.lt_ge_cases
                  (getRequestBodySize U
                     (take (findLastIndex U opts (events c) (length (events c)))
                           (events c)))
                  HARD_CAP) as [Hfit|Hbig].
      * simpl in Hrun. rewrite E in Hrun. rewrite (IH _ _ Hrun).
        apply generateBatches_turn_persisted. exact Hfit.
      * rewrite generateBatches_stuck in Hrun; [discriminate | congruence | exact Hbig].
Qed.

(** X16. A throttled client that gets through the gate and back has tried one
    batch only, the first of [batchIndex]: it returns that id and nothing else
    is in flight.  With an empty [batchIndex] it returns an array that holds
    undefined, after the error "Invalid Options passed to submitBatchById". *)
Theorem submitEvents_throttled_probe (U : Env) (opts : Options) (fuel : nat)
    (now : Z) (rnd : Q) (options : SubmitOptions) (c c' : Client)
    (r : list (option string)) :
  isThrottled c = true ->
  warnMessage now rnd c = None ->
  submitEvents U opts fuel now rnd options c = Some (r, c') ->
  (forall (id : string) (rest : list string),
      batchIndex c' = id :: rest -> id ≠ "" ->
      r = [Some id]
      ∧ dispatched (trace c') = (dispatched (trace c) ++ [id])%list
      ∧ batchesInFlight c' = {[ id := now ]})
  ∧ (batchIndex c' = [] ->
     r = [None]
     ∧ dispatched (trace c') = dispatched (trace c)
     ∧ batchesInFlight c' = ∅
     ∧ errors (trace c')
       = (errors (trace c) ++ ["Invalid Options passed to submitBatchById"])%list).
Proof.
  intros Hthr Hgate Hsub.
  destruct (submitEvents_passed_frame _ _ _ _ _ _ _ _ _ Hgate Hsub)
    as (c1 & Hrun & _ & Hfl & Hsame & Hret).
  rewrite Hthr in Hret. cbv zeta in Hret.
  pose proof (generateBatches_silent U opts fuel _ _ Hrun) as Htr.
  assert (Hdis : dispatched (trace c1) = dispatched (trace c)
                 ∧ errors (trace c1) = errors (trace c)).
  { rewrite Htr. unfold rearmed. destruct (autoSubmitEvents opts); cbn;
      rewrite ?dispatched_app, ?errors_app; cbn; rewrite ?app_nil_r; auto. }
  destruct Hdis as [Hdis Herr].
  destruct Hsame as (_ & _ & S3 & _). cbn in S3.
  split.
  - intros id rest Hidx Hid. rewrite S3 in Hidx.
    rewrite (submitBatchById_named opts now _ _ id) in Hret
      by (first [exact Hid | cbn; rewrite Hidx; reflexivity]).
    injection Hret as -> ->. split; [reflexivity|]. cbn.
    rewrite !dispatched_app, Hdis, Hfl. cbn. rewrite app_nil_r.
    split; reflexivity.
  - intros Hidx. rewrite S3 in Hidx.
    unfold submitBatchById in Hret. cbn [opt_batchId] in Hret. rewrite Hidx in Hret.
    injection Hret as -> ->. split; [reflexivity|]. cbn.
    rewrite !dispatched_app, !errors_app, Hdis, Herr, Hfl. cbn. rewrite !app_nil_r.
    repeat split.
Qed.

Lemma submitEvents_throttled_probe_witness :
  exists (c' : Client) (r : list (option string)),
    submitEvents Sample.env Sample.opts 0 1404155335000 (1 # 2)
      Sample.no_options
      (set_batchesInFlight ∅
         (set_lastSubmitTimestamp (Some 1404155270000%Z) Sample.throttled_two_batches))
    = Some (r, c')
    ∧ batchIndex c' = ["batch-0"; "batch-1"]
    ∧ r = [Some "batch-0"]
    ∧ dispatched (trace c') = ["batch-0"]
    ∧ batchesInFlight c' = {[ "batch-0" := 1404155335000%Z ]}.
Proof.
  do 2 eexists. split; [vm_compute; reflexivity|]. split; [reflexivity|].
  eapply (submitEvents_throttled_probe Sample.env Sample.opts 0 1404155335000 (1 # 2)
            Sample.no_options
            (set_batchesInFlight ∅
               (set_lastSubmitTimestamp (Some 1404155270000%Z)
                  Sample.throttled_two_batches))).
  - reflexivity.
  - vm_compute. reflexivity.
  - vm_compute. reflexivity.
  - reflexivity.
  - discriminate.
Defined.

(** ** The size of the batches *)

(** X8. The inner loop of [generateBatches], started at [n >= 1], stops at
    the largest prefix length [k <= n] whose serialized size is within
    [batchSizeLimit], or at 1 when there is none: every longer prefix up to
    [n] is over the limit. *)
Theorem findLastIndex_largest (U : Env) (opts : Options) (evs : list Event) (n : nat) :
  1 <= n ->
  1 <= findLastIndex U opts evs n <= n
  ∧ (forall j : nat,
        findLastIndex U opts evs n < j <= n ->
        (batchSizeLimit opts < getRequestBodySize U (take j evs))%Z)
  ∧ (findLastIndex U opts evs n = 1
     ∨ (getRequestBodySize U (take (findLastIndex U opts evs n) evs)
        <= batchSizeLimit opts)%Z).
Proof.
  induction n as [|n IH]; intros Hn; [lia|].
  destruct n as [|n].
  { simpl. split; [lia|]. split; [intros j Hj; lia | left; reflexivity]. }
  rewrite findLastIndex_step.
  destruct (Z.ltb_spec (batchSizeLimit opts)
              (getRequestBodySize U (take (S (S n)) evs))) as [Hover|Hfit].
  - destruct IH as (IH1 & IH2 & IH3); [lia|].
    split; [lia|]. split; [|exact IH3].
    intros j Hj. destruct (Nat.eq_dec j (S (S n))) as [->|Hne]; [exact Hover|].
    apply IH2. lia.
  - split; [lia|]. split; [intros j Hj; lia | right; exact Hfit].
Qed.

Lemma findLastIndex_largest_witness :
  1 <= findLastIndex Sample.env Sample.small_batches Sample.three_events 3 <= 3
  ∧ (forall j : nat,
        findLastIndex Sample.env Sample.small_batches Sample.three_events 3 < j <= 3 ->
        (batchSizeLimit Sample.small_batches
         < getRequestBodySize Sample.env (take j Sample.three_events))%Z)
  ∧ (findLastIndex Sample.env Sample.small_batches Sample.three_events 3 = 1
     ∨ (getRequestBodySize Sample.env
          (take (findLastIndex Sample.env Sample.small_batches Sample.three_events 3)
                Sample.three_events)
        <= batchSizeLimit Sample.small_batches)%Z).
Proof.
  apply (findLastIndex_largest Sample.env Sample.small_batches Sample.three_events 3).
  lia.
Defined.

Section BatchSizes.

Variable U : Env.
Variable opts : Options.

(** Distinct draws from [Util.GUID] give distinct ids. *)
Hypothesis GUID_distinct : forall i j : nat, GUID U i = GUID U j -> i = j.

(** The batch a turn stores. *)
Lemma generateBatches_turn_batch (c : Client) :
  events c ≠ [] ->
  let batch := take (findLastIndex U opts (events c) (length (events c))) (events c) in
  (getRequestBodySize U batch < HARD_CAP)%Z ->
  batch ≠ []
  ∧ (length batch = 1 ∨ (getRequestBodySize U batch <= batchSizeLimit opts)%Z).
Proof.
  intros Hq batch _.
  assert (Hpos : 1 <= length (events c)).
  { destruct (events c); [contradiction | simpl; lia]. }
  destruct (findLastIndex_spec U opts (events c) (length (events c)) Hpos) as [Hk Hfit].
  split.
  - intros Hnil. apply (f_equal length) in Hnil. unfold batch in Hnil.
    rewrite length_take in Hnil. simpl in Hnil. lia.
  - destruct Hfit as [H1|Hfit]; [left | right; exact Hfit].
    unfold batch. rewrite length_take, H1. lia.
Qed.

Lemma generateBatches_batches (fuel : nat) :
  forall (c c' : Client) (ids : list string),
    generateBatches U opts fuel c = Some c' ->
    batchIndex c' = (batchIndex c ++ ids)%list ->
    Forall (fun id =>
              exists evs : list Event,
                batches c' !! id = Some evs
                ∧ evs ≠ []
                ∧ (getRequestBodySize U evs < HARD_CAP)%Z
                ∧ (length evs = 1
                   ∨ (getRequestBodySize U evs <= batchSizeLimit opts)%Z))
           ids.
Proof.
  induction fuel as [|fuel IH]; intros c c' ids Hrun Hidx.
  - simpl in Hrun. destruct (events c); [|discriminate]. injection Hrun as <-.
    rewrite <- (app_nil_r (batchIndex c)) in Hidx at 1.
    apply app_inv_head in Hidx as <-. constructor.
  - destruct (events c) as [|e q] eqn:E.
    { simpl in Hrun. rewrite E in Hrun. injection Hrun as <-.
      rewrite <- (app_nil_r (batchIndex c)) in Hidx at 1.
      apply app_inv_head in Hidx as <-. constructor. }
    assert (Hq : events c ≠ []) by congruence.
    simpl in Hrun. rewrite E in Hrun.
    destruct (generateBatches_turn_cases U opts c) as [[Hturn Hbig]|(Hfit & _ & Hb & Hi & Hg)].
    + exfalso. rewrite Hturn in Hrun.
      rewrite generateBatches_stuck in Hrun; [discriminate | exact Hq | exact Hbig].
    + destruct (generateBatches_order U opts GUID_distinct fuel _ _ Hrun)
        as (_ & ids1 & Hidx1 & Hids1 & _ & Hframe).
      rewrite Hi, <- app_assoc in Hidx1. rewrite Hidx1 in Hidx.
      apply app_inv_head in Hidx as <-.
      rewrite Hg in Hids1.
      assert (Hnew : GUID U (guidCalls c) ∉ ids1).
      { rewrite Hids1. apply later_ids_differ. exact GUID_distinct. }
      constructor.
      * eexists. split; [rewrite (Hframe _ Hnew), Hb; apply lookup_insert_eq|].
        destruct (generateBatches_turn_batch c Hq Hfit) as [H1 H2].
        split; [exact H1|]. split; [exact Hfit | exact H2].
      * apply (IH _ _ ids1 Hrun). rewrite Hi, <- app_assoc. exact Hidx1.
Qed.

(** X9. Every batch that a returning [generateBatches] call has added to
    [batchIndex] is stored in [batches], is not empty, is under the hard cap
    of 512000 bytes, and is within [batchSizeLimit] unless it is a single
    event. *)
Theorem generateBatches_batch_sizes (fuel : nat) (c c' : Client) (ids : list string)
    (id : string) :
  generateBatches U opts fuel c = Some c' ->
  batchIndex c' = (batchIndex c ++ ids)%list ->
  id ∈ ids ->
  exists evs : list Event,
    batches c' !! id = Some evs
    ∧ evs ≠ []
    ∧ (getRequestBodySize U evs < HARD_CAP)%Z
    ∧ (length evs = 1 ∨ (getRequestBodySize U evs <= batchSizeLimit opts)%Z).
Proof.
  intros Hrun Hidx Hin.
  pose proof (generateBatches_batches fuel c c' ids Hrun Hidx) as Hall.
  rewrite Forall_forall in Hall. apply Hall. exact Hin.
Qed.

End BatchSizes.

Lemma generateBatches_batch_sizes_witness :
  exists (c' : Client) (evs : list Event),
    generateBatches Sample.env Sample.small_batches 3 (Sample.queued Sample.three_events)
    = Some c'
    ∧ batches c' !! "batch-1" = Some evs
    ∧ evs ≠ []
    ∧ (getRequestBodySize Sample.env evs < HARD_CAP)%Z
    ∧ (length evs = 1
       ∨ (getRequestBodySize Sample.env evs <= batchSizeLimit Sample.small_batches)%Z).
Proof.
  eexists.
  destruct (generateBatches_batch_sizes Sample.env Sample.small_batches
              sample_GUID_distinct 3 (Sample.queued Sample.three_events) _
              ["batch-0"; "batch-1"] "batch-1"
              ltac:(vm_compute; reflexivity) eq_refl
              ltac:(apply (bool_decide_unpack _); vm_compute; exact I))
    as (evs & H).
  exists evs. split; [vm_compute; reflexivity | exact H].
Defined.

(** ** Write-back to the storage *)

Lemma all_persisted_same_store (c1 c0 : Client) :
  same_store c1 c0 -> all_persisted c0 -> all_persisted c1.
Proof.
  intros (S1 & S2 & S3 & _ & _ & S6 & _) (P1 & P2 & P3).
  unfold all_persisted. rewrite S1, S2, S3, S6. auto.
Qed.

Lemma generateBatches_turn_persists (U : Env) (opts : Options) (c : Client) :
  all_persisted c -> all_persisted (generateBatches_turn U opts c).
Proof.
  intros (P1 & P2 & P3). unfold generateBatches_turn, persistBatch.
  destruct (_ <? _)%Z; cbn; repeat split; assumption.
Qed.

Lemma generateBatches_persists (U : Env) (opts : Options) (fuel : nat) :
  forall c c' : Client,
    generateBatches U opts fuel c = Some c' -> all_persisted c -> all_persisted c'.
Proof.
  induction fuel as [|fuel IH]; intros c c' Hrun Hp; simpl in Hrun.
  - destruct (events c); [congruence | discriminate].
  - destruct (events c); [congruence|].
    apply (IH _ _ Hrun). apply generateBatches_turn_persists. exact Hp.
Qed.

Lemma clearBatchById_persists (batchId : string) (c : Client) :
  all_persisted c -> all_persisted (clearBatchById batchId c).
Proof.
  intros (P1 & P2 & P3). unfold clearBatchById.
  destruct (indexOf (batchIndex c) batchId); cbn; repeat split; assumption.
Qed.

Lemma handlePutEventsResponse_persists (opts : Options) (batchId : string) (callback : Cb)
    (err : option AwsError) (data : string) (now : Z) (c : Client) :
  all_persisted c ->
  all_persisted (handlePutEventsResponse opts batchId callback err data now c).
Proof.
  intros Hp.
  eapply all_persisted_same_store; [apply handlePutEventsResponse_same_store|].
  destruct (after_callback_fields batchId callback err data c)
    as (A1 & A2 & A3 & A4 & _).
  destruct (clears_batch err).
  - destruct (clearBatchById_persists batchId c Hp) as (P1 & P2 & P3).
    unfold all_persisted. rewrite A1, A2, A3, A4. destruct Hp as (Q1 & _).
    unfold clearBatchById in *.
    destruct (indexOf (batchIndex c) batchId); cbn in *; auto.
  - destruct Hp as (P1 & P2 & P3). unfold all_persisted. rewrite A1, A2, A3, A4. auto.
Qed.

Lemma submitEvents_persists (U : Env) (opts : Options) (fuel : nat) (now : Z) (rnd : Q)
    (options : SubmitOptions) (c c' : Client) (r : list (option string)) :
  submitEvents U opts fuel now rnd options c = Some (r, c') ->
  all_persisted c -> all_persisted c'.
Proof.
  intros Hsub Hp.
  assert (Hre : all_persisted (rearmed opts c)).
  { eapply all_persisted_same_store; [apply rearmed_frame | exact Hp]. }
  destruct (warnMessage now rnd c) as [msg|] eqn:Hgate.
  - rewrite submitEvents_unfold, warnMessage_rearmed, Hgate in Hsub.
    injection Hsub as _ <-. exact Hre.
  - destruct (submitEvents_passed_frame _ _ _ _ _ _ _ _ _ Hgate Hsub)
      as (c1 & Hrun & _ & _ & Hsame & _).
    eapply all_persisted_same_store; [exact Hsame|].
    pose proof (generateBatches_persists U opts fuel _ _ Hrun Hre) as (P1 & P2 & P3).
    repeat split; assumption.
Qed.

(** X12. Every operation that changes the queue or the Batch Store writes the
    changed slot back: if the three slots of the storage hold the current
    queue, batches and index before [pushEvent], [recordEvent],
    [generateBatches], [submitEvents], [clearBatchById] or the response
    handler, they hold the current ones after it. *)
Theorem storage_follows_memory (U : Env) (opts : Options) (c : Client) :
  all_persisted c ->
  (forall event : option Event, all_persisted (snd (pushEvent event c)))
  ∧ (forall (fuel : nat) (c' : Client),
        generateBatches U opts fuel c = Some c' -> all_persisted c')
  ∧ (forall (fuel : nat) (now : Z) (rnd : Q) (options : SubmitOptions)
            (r : list (option string)) (c' : Client),
        submitEvents U opts fuel now rnd options c = Some (r, c') -> all_persisted c')
  ∧ (forall (fuel : nat) (nowISO : string) (now : Z) (rnd : Q) (ty : JsVal)
            (sess : SessionArg) (attrs mets : option JsDict)
            (r : Completion (option Event)) (c' : Client),
        recordEvent U opts fuel nowISO now rnd ty sess attrs mets c = Some (r, c') ->
        all_persisted c')
  ∧ (forall batchId : string, all_persisted (clearBatchById batchId c))
  ∧ (forall (batchId : string) (callback : Cb) (err : option AwsError)
            (data : string) (now : Z),
        all_persisted (handlePutEventsResponse opts batchId callback err data now c)).
Proof.
  intros Hp.
  assert (Hpush : forall event, all_persisted (snd (pushEvent event c))).
  { intros [e|]; [|exact Hp]. destruct Hp as (P1 & P2 & P3). repeat split; assumption. }
  split; [exact Hpush|].
  split; [intros fuel c' Hrun; exact (generateBatches_persists U opts fuel c c' Hrun Hp)|].
  split; [intros fuel now rnd options r c' Hsub;
          exact (submitEvents_persists _ _ _ _ _ _ _ _ _ Hsub Hp)|].
  split; [|split; [intros; apply clearBatchById_persists; exact Hp
                  |intros; apply handlePutEventsResponse_persists; exact Hp]].
  intros fuel nowISO now rnd ty sess attrs mets r c'.
  destruct (createEvent U opts nowISO ty sess attrs mets) as [log res] eqn:Hcreate.
  pose proof (createEvent_silent _ _ _ _ _ _ _ _ _ Hcreate) as ->.
  destruct res as [[ev|]|err].
  - rewrite (recordEvent_created _ _ _ _ _ _ _ _ _ _ _ _ _ Hcreate). cbv zeta.
    specialize (Hpush (Some ev)). cbn [pushEvent snd] in Hpush.
    destruct (_ <=? _)%Z.
    + destruct (submitEvents U opts fuel now rnd _ _) as [[ids c2]|] eqn:Hsub;
        [|discriminate].
      intros [= _ <-]. exact (submitEvents_persists _ _ _ _ _ _ _ _ _ Hsub Hpush).
    + intros [= _ <-]. exact Hpush.
  - unfold recordEvent. rewrite Hcreate. cbn. intros [= _ <-]. exact Hp.
  - unfold recordEvent. rewrite Hcreate. cbn. intros [= _ <-]. exact Hp.
Qed.

Lemma storage_follows_memory_witness :
  all_persisted
    (handlePutEventsResponse Sample.opts "batch-0" "submitCallback" None ""
       1404155271000 Sample.two_batches).
Proof.
  apply (storage_follows_memory Sample.env Sample.opts Sample.two_batches).
  repeat split.
Defined.

(** ** Dispatching every batch *)

Lemma submitBatchById_inFlight (opts : Options) (now : Z) (options : SubmitOptions)
    (c : Client) :
  now ≠ 0%Z ->
  (forall id, inFlight c id = true ->
              inFlight (snd (submitBatchById opts now options c)) id = true)
  ∧ (forall id, opt_batchId options = Some id -> id ≠ "" ->
                inFlight (snd (submitBatchById opts now options c)) id = true).
Proof.
  intros Hnow. unfold submitBatchById.
  destruct (opt_batchId options) as [b|]; [|split; [auto | discriminate]].
  destruct (String.eqb_spec b "") as [->|Hb].
  - split; [auto|]. intros id [= <-] Hid. contradiction.
  - split.
    + intros id Hid. unfold inFlight in *. cbn.
      destruct (decide (b = id)) as [->|Hne].
      * rewrite lookup_insert_eq. apply negb_true_iff, Z.eqb_neq, Hnow.
      * rewrite lookup_insert_ne by exact Hne. exact Hid.
    + intros id [= <-] _. unfold inFlight. cbn. rewrite lookup_insert_eq.
      apply negb_true_iff, Z.eqb_neq, Hnow.
Qed.

Lemma submitAllBatches_each_inFlight (opts : Options) (now : Z) (ids : list string) :
  now ≠ 0%Z ->
  forall (options : SubmitOptions) (indices : list (option string)) (c : Client),
    (forall id, inFlight c id = true ->
                inFlight (snd (submitAllBatches_each opts now ids options indices c)) id
                = true)
    ∧ (forall id, id ∈ ids -> id ≠ "" ->
                  inFlight (snd (submitAllBatches_each opts now ids options indices c)) id
                  = true).
Proof.
  intros Hnow. induction ids as [|x ids IH]; intros options indices c.
  - split; [auto|]. intros id Hid. apply elem_of_nil in Hid. contradiction.
  - cbn [submitAllBatches_each].
    destruct (inFlight c x) eqn:Hx; cbn [negb].
    + match goal with
      | |- context [submitAllBatches_each opts now ids ?o ?i c] =>
          destruct (IH o i c) as [IH1 IH2]
      end.
      split; [exact IH1|]. intros id Hid Hne.
      apply elem_of_cons in Hid as [->|Hid]; [apply IH1; exact Hx | apply IH2; assumption].
    + destruct (submitBatchById opts now _ c) as [r c1] eqn:E.
      match goal with
      | |- context [submitAllBatches_each opts now ids ?o ?i c1] =>
          destruct (IH o i c1) as [IH1 IH2]
      end.
      match type of E with
      | submitBatchById opts now ?o c = _ =>
          destruct (submitBatchById_inFlight opts now o c Hnow) as [B1 B2]
      end.
      rewrite E in B1, B2. cbn [snd] in B1, B2.
      split; [intros id Hid; apply IH1, B1, Hid|].
      intros id Hid Hne.
      apply elem_of_cons in Hid as [->|Hid]; [|apply IH2; assumption].
      apply IH1, B2; [reflexivity | exact Hne].
Qed.

(** X19. [submitAllBatches] at a time other than 0, on an index without
    duplicates and without the empty id, returns and dispatches exactly the
    batches that were not in flight, in index order; afterwards every batch
    of the index is in flight, so a second pass right after it returns the
    empty array and sends nothing. *)
Theorem submitAllBatches_then_all_in_flight (opts : Options) (now now' : Z)
    (options options' : SubmitOptions) (c : Client) :
  NoDup (batchIndex c) ->
  "" ∉ batchIndex c ->
  now ≠ 0%Z ->
  fst (submitAllBatches opts now options c) = map Some (pending_not_in_flight c)
  ∧ dispatched (trace (snd (submitAllBatches opts now options c)))
    = (dispatched (trace c) ++ pending_not_in_flight c)%list
  ∧ (forall id, id ∈ batchIndex c ->
                inFlight (snd (submitAllBatches opts now options c)) id = true)
  ∧ submitAllBatches opts now' options' (snd (submitAllBatches opts now options c))
    = ([], snd (submitAllBatches opts now options c)).
Proof.
  intros Hnd Hne Hnow.
  destruct (submitAllBatches_spec opts now options c Hnd Hne) as (P1 & P2 & P3).
  assert (Hall : forall id, id ∈ batchIndex c ->
                   inFlight (snd (submitAllBatches opts now options c)) id = true).
  { intros id Hid. unfold submitAllBatches.
    apply (submitAllBatches_each_inFlight opts now (batchIndex c) Hnow); [exact Hid|].
    intros ->. contradiction. }
  split; [exact P1|]. split; [rewrite P2, dispatched_app, dispatched_requests; reflexivity|].
  split; [exact Hall|].
  set (c1 := snd (submitAllBatches opts now options c)) in *.
  assert (Hidx : batchIndex c1 = batchIndex c) by apply P3.
  destruct (submitAllBatches_spec opts now' options' c1) as (Q1 & Q2 & Q3);
    [rewrite Hidx; exact Hnd | rewrite Hidx; exact Hne |].
  assert (Hnone : pending_not_in_flight c1 = []).
  { apply filter_none. intros id Hid. rewrite Hidx in Hid. rewrite (Hall id Hid).
    reflexivity. }
  rewrite Hnone in Q1, Q2. cbn in Q1, Q2. rewrite app_nil_r in Q2.
  destruct (submitAllBatches opts now' options' c1) as [r2 c2] eqn:E.
  cbn [fst snd] in Q1, Q2, Q3. f_equal; [exact Q1|].
  clear -E Hnone. unfold submitAllBatches, pending_not_in_flight in *.
  revert E Hnone. generalize (batchIndex c1) as ids.
  match goal with
  | |- forall ids, submitAllBatches_each opts now' ids ?o [] c1 = _ -> _ =>
      generalize o; generalize (@nil (option string)) as acc
  end.
  intros acc o ids. revert acc o.
  induction ids as [|x ids IH]; intros acc o E Hnone.
  - cbn in E. congruence.
  - cbn [submitAllBatches_each List.filter] in E, Hnone.
    destruct (inFlight c1 x); cbn [negb] in E, Hnone; [|discriminate].
    exact (IH _ _ E Hnone).
Qed.

Lemma submitAllBatches_then_all_in_flight_witness :
  fst (submitAllBatches Sample.opts 1404155275000 Sample.no_options Sample.two_batches)
  = map Some (pending_not_in_flight Sample.two_batches)
  ∧ dispatched (trace (snd (submitAllBatches Sample.opts 1404155275000 Sample.no_options
                              Sample.two_batches)))
    = (dispatched (trace Sample.two_batches)
       ++ pending_not_in_flight Sample.two_batches)%list
  ∧ (forall id, id ∈ batchIndex Sample.two_batches ->
                inFlight (snd (submitAllBatches Sample.opts 1404155275000
                                 Sample.no_options Sample.two_batches)) id = true)
  ∧ submitAllBatches Sample.opts 1404155276000 Sample.no_options
      (snd (submitAllBatches Sample.opts 1404155275000 Sample.no_options
              Sample.two_batches))
    = ([], snd (submitAllBatches Sample.opts 1404155275000 Sample.no_options
                  Sample.two_batches)).
Proof.
  apply (submitAllBatches_then_all_in_flight Sample.opts 1404155275000 1404155276000
           Sample.no_options Sample.no_options Sample.two_batches).
  - apply (bool_decide_unpack _). vm_compute. exact I.
  - apply (bool_decide_unpack _). vm_compute. exact I.
  - lia.
Defined.

(** The batch of the sample that is not in flight is the second one. *)
Example two_batches_pending : pending_not_in_flight Sample.two_batches = ["batch-1"].
Proof. reflexivity. Qed.

(** ** Clearing one batch *)

(** X21. [clearBatchById] on an index without duplicates removes that one id
    and keeps the others in their order; every other batch keeps its events;
    an id that is not in the index changes nothing, so clearing the same id
    a second time does nothing more. *)
Theorem clearBatchById_only_that_batch (batchId : string) (c : Client) :
  NoDup (batchIndex c) ->
  batchIndex (clearBatchById batchId c)
  = List.filter (fun id => negb (String.eqb id batchId)) (batchIndex c)
  ∧ (forall id, id ≠ batchId ->
                batches (clearBatchById batchId c) !! id = batches c !! id)
  ∧ events (clearBatchById batchId c) = events c
  ∧ batchesInFlight (clearBatchById batchId c) = batchesInFlight c
  ∧ (batchId ∉ batchIndex c -> clearBatchById batchId c = c)
  ∧ clearBatchById batchId (clearBatchById batchId c) = clearBatchById batchId c.
Proof.
  intros Hnd.
  assert (Hidx : batchIndex (clearBatchById batchId c)
                 = List.filter (fun id => negb (String.eqb id batchId)) (batchIndex c)).
  { destruct (indexOf (batchIndex c) batchId) as [i|] eqn:E.
    - destruct (clearBatchById_known batchId c i E) as (_ & -> & _).
      apply delete_first_filter; assumption.
    - apply indexOf_None in E. rewrite clearBatchById_unknown by exact E.
      symmetry. apply filter_all. intros y Hy. apply negb_true_iff.
      destruct (String.eqb_spec y batchId) as [->|]; [contradiction | reflexivity]. }
  split; [exact Hidx|]. split.
  - intros id Hne. unfold clearBatchById.
    destruct (indexOf (batchIndex c) batchId); [|reflexivity].
    cbn. apply lookup_delete_ne. congruence.
  - split; [unfold clearBatchById; destruct (indexOf _ _); reflexivity|].
    split; [unfold clearBatchById; destruct (indexOf _ _); reflexivity|].
    split; [apply clearBatchById_unknown|].
    apply clearBatchById_unknown. rewrite Hidx.
    intros Hin. apply list_elem_of_In, filter_In in Hin as [_ Hin].
    rewrite String.eqb_refl in Hin. discriminate Hin.
Qed.

Lemma clearBatchById_only_that_batch_witness :
  batchIndex (clearBatchById "batch-0" Sample.two_batches)
  = List.filter (fun id => negb (String.eqb id "batch-0")) (batchIndex Sample.two_batches)
  ∧ (forall id, id ≠ "batch-0" ->
                batches (clearBatchById "batch-0" Sample.two_batches) !! id
                = batches Sample.two_batches !! id)
  ∧ events (clearBatchById "batch-0" Sample.two_batches) = events Sample.two_batches
  ∧ batchesInFlight (clearBatchById "batch-0" Sample.two_batches)
    = batchesInFlight Sample.two_batches
  ∧ ("batch-0" ∉ batchIndex Sample.two_batches ->
     clearBatchById "batch-0" Sample.two_batches = Sample.two_batches)
  ∧ clearBatchById "batch-0" (clearBatchById "batch-0" Sample.two_batches)
    = clearBatchById "batch-0" Sample.two_batches.
Proof.
  apply (clearBatchById_only_that_batch "batch-0" Sample.two_batches).
  apply (bool_decide_unpack _). vm_compute. exact I.
Defined.

(** ** More on the response handler *)

Lemma submitAllBatches_each_callbacks (opts : Options) (now : Z) (ids : list string) :
  forall (options : SubmitOptions) (indices : list (option string)) (c : Client),
    callbacks (trace (snd (submitAllBatches_each opts now ids options indices c)))
    = callbacks (trace c).
Proof.
  induction ids as [|x ids IH]; intros options indices c; [reflexivity|].
  cbn [submitAllBatches_each]. destruct (negb (inFlight c x)); [|apply IH].
  destruct (submitBatchById opts now _ c) as [r c1] eqn:E. rewrite IH.
  unfold submitBatchById in E. cbn [opt_batchId] in E.
  destruct (String.eqb x ""); injection E as _ <-; cbn;
    rewrite callbacks_app; cbn; apply app_nil_r.
Qed.

Lemma after_callback_callbacks (batchId : string) (callback : Cb) (err : option AwsError)
    (data : string) (c : Client) :
  callbacks (trace (after_callback batchId callback err data c))
  = (callbacks (trace c) ++ [(callback, err, data, batchId)])%list.
Proof.
  unfold after_callback, clearBatchById.
  destruct err as [e|]; cbn [clears_batch].
  - destruct (status_undefined_or_400 e).
    + destruct (negb (retryable e)), (is_ThrottlingException e); cbn;
        destruct (indexOf (batchIndex c) batchId); cbn;
        rewrite !callbacks_app; cbn; rewrite ?app_nil_r; reflexivity.
    + cbn. destruct (indexOf (batchIndex c) batchId); cbn;
        rewrite !callbacks_app; cbn; rewrite ?app_nil_r; reflexivity.
  - cbn. destruct (indexOf (batchIndex c) batchId); cbn;
      rewrite !callbacks_app; cbn; rewrite ?app_nil_r; reflexivity.
Qed.

(** X23. Whatever the response, the handler calls the per-submission callback
    exactly once, with the error, the data and the batch id of the response,
    and leaves the queue as it was. *)
Theorem handlePutEventsResponse_calls_back_once (opts : Options) (batchId : string)
    (callback : Cb) (err : option AwsError) (data : string) (now : Z) (c : Client) :
  callbacks (trace (handlePutEventsResponse opts batchId callback err data now c))
  = (callbacks (trace c) ++ [(callback, err, data, batchId)])%list
  ∧ events (handlePutEventsResponse opts batchId callback err data now c) = events c
  ∧ lastSubmitTimestamp (handlePutEventsResponse opts batchId callback err data now c)
    = lastSubmitTimestamp c.
Proof.
  split.
  - rewrite handlePutEventsResponse_unfold.
    destruct (_ && _); [|apply after_callback_callbacks].
    unfold submitAllBatches. rewrite submitAllBatches_each_callbacks.
    cbn [trace emit]. rewrite callbacks_app, after_callback_callbacks. cbn.
    apply app_nil_r.
  - destruct (handlePutEventsResponse_same_store opts batchId callback err data now c)
      as (S1 & _ & _ & _ & S5 & _).
    destruct (after_callback_fields batchId callback err data c) as (_ & _ & _ & A4 & _).
    split; [congruence|]. rewrite S5.
    unfold after_callback, clearBatchById.
    destruct err as [e|]; cbn [clears_batch].
    + destruct (status_undefined_or_400 e).
      * destruct (negb (retryable e)), (is_ThrottlingException e); cbn;
          destruct (indexOf (batchIndex c) batchId); reflexivity.
      * cbn. destruct (indexOf (batchIndex c) batchId); reflexivity.
    + cbn. destruct (indexOf (batchIndex c) batchId); reflexivity.
Qed.

(** X24. A failure without status code or with status 400 whose code is not
    one of the three non-retryable ones keeps the batch: the Batch Store and
    its slots in the storage are as before.  The throttle flag becomes
    whether the code is [ThrottlingException]; when it is, the batch is taken
    out of the in-flight table and nothing is dispatched. *)
Theorem retryable_failure_keeps_batch (opts : Options) (batchId : string)
    (callback : Cb) (e : AwsError) (data : string) (now : Z) (c : Client) :
  statusCode e = None ∨ statusCode e = Some 400%Z ->
  (forall k, code e = Some k -> k ∉ NON_RETRYABLE_EXCEPTIONS) ->
  batches (handlePutEventsResponse opts batchId callback (Some e) data now c) = batches c
  ∧ batchIndex (handlePutEventsResponse opts batchId callback (Some e) data now c)
    = batchIndex c
  ∧ storage (handlePutEventsResponse opts batchId callback (Some e) data now c)
    = storage c
  ∧ isThrottled (handlePutEventsResponse opts batchId callback (Some e) data now c)
    = is_ThrottlingException e
  ∧ (code e = Some "ThrottlingException" ->
     batchesInFlight (handlePutEventsResponse opts batchId callback (Some e) data now c)
     = delete batchId (batchesInFlight c)
     ∧ dispatched (trace (handlePutEventsResponse opts batchId callback (Some e) data
                            now c))
       = dispatched (trace c)).
Proof.
  intros Hstatus Hcode.
  assert (H400 : status_undefined_or_400 e = true).
  { unfold status_undefined_or_400. destruct Hstatus as [->| ->]; reflexivity. }
  assert (Hretry : retryable e = true).
  { unfold retryable. destruct (code e) as [k|] eqn:Ek; [|reflexivity].
    apply negb_true_iff, bool_decide_eq_false. intros [i Hi].
    apply (Hcode k eq_refl). apply indexOf_Some in Hi.
    apply list_elem_of_lookup. eauto. }
  destruct (handlePutEventsResponse_fields opts batchId callback (Some e) data now c)
    as (H1 & H2 & H3 & H4).
  cbn [clears_batch isThrottled_after] in H1, H2, H3, H4.
  rewrite H400, Hretry in H1, H2, H3. rewrite H400 in H4. cbn [negb] in H1, H2, H3.
  split; [exact H1|]. split; [exact H2|]. split; [exact H3|]. split; [exact H4|].
  intros Hthr.
  assert (Hm : isThrottled (after_callback batchId callback (Some e) data c) = true).
  { destruct (after_callback_fields batchId callback (Some e) data c)
      as (_ & _ & _ & _ & A5 & _).
    rewrite A5. cbn [isThrottled_after]. rewrite H400.
    unfold is_ThrottlingException. rewrite Hthr. reflexivity. }
  rewrite handlePutEventsResponse_unfold, Hm, andb_false_r.
  destruct (after_callback_fields batchId callback (Some e) data c)
    as (_ & _ & _ & _ & _ & A6).
  split; [exact A6|].
  destruct (after_callback_trace batchId callback (Some e) data c) as (pre & -> & Hpre).
  rewrite !dispatched_app, Hpre. cbn. apply app_nil_r.
Qed.

Lemma retryable_failure_keeps_batch_witness :
  batches (handlePutEventsResponse Sample.opts "batch-0" "submitCallback"
             (Some Sample.throttling_error) "" 1404155271000 Sample.two_batches)
  = batches Sample.two_batches
  ∧ batchIndex (handlePutEventsResponse Sample.opts "batch-0" "submitCallback"
                  (Some Sample.throttling_error) "" 1404155271000 Sample.two_batches)
    = batchIndex Sample.two_batches
  ∧ storage (handlePutEventsResponse Sample.opts "batch-0" "submitCallback"
               (Some Sample.throttling_error) "" 1404155271000 Sample.two_batches)
    = storage Sample.two_batches
  ∧ isThrottled (handlePutEventsResponse Sample.opts "batch-0" "submitCallback"
                   (Some Sample.throttling_error) "" 1404155271000 Sample.two_batches)
    = is_ThrottlingException Sample.throttling_error
  ∧ (code Sample.throttling_error = Some "ThrottlingException" ->
     batchesInFlight (handlePutEventsResponse Sample.opts "batch-0" "submitCallback"
                        (Some Sample.throttling_error) "" 1404155271000
                        Sample.two_batches)
     = delete "batch-0" (batchesInFlight Sample.two_batches)
     ∧ dispatched (trace (handlePutEventsResponse Sample.opts "batch-0" "submitCallback"
                            (Some Sample.throttling_error) "" 1404155271000
                            Sample.two_batches))
       = dispatched (trace Sample.two_batches)).
Proof.
  apply (retryable_failure_keeps_batch Sample.opts "batch-0" "submitCallback"
           Sample.throttling_error "" 1404155271000 Sample.two_batches).
  - right. reflexivity.
  - intros k [= <-]. apply (bool_decide_unpack _). vm_compute. exact I.
Defined.

(** ** A dispatch and its successful response *)

(** X20. Dispatching a stored batch with [submitBatchById] and then handling a
    success for it, on a client that is not throttled, sends one request that
    carries the events of the batch, and leaves the batch out of [batches],
    [batchIndex] and the in-flight table; the other batches keep their
    events and the invariant of the Batch Store holds again. *)
Theorem dispatch_then_success (opts : Options) (now now' : Z) (options : SubmitOptions)
    (id data : string) (c : Client) :
  store_inv c ->
  id ∈ batchIndex c ->
  id ≠ "" ->
  isThrottled c = false ->
  opt_batchId options = Some id ->
  let cb := default (submitCallback opts) (opt_submitCallback options) in
  let ctx := default (clientContext opts) (opt_clientContext options) in
  let c1 := snd (submitBatchById opts now options c) in
  let c2 := handlePutEventsResponse opts id cb None data now' c1 in
  fst (submitBatchById opts now options c) = Some id
  ∧ trace c1 = (trace c ++ [PutEvents id (batches c !! id) ctx cb])%list
  ∧ is_Some (batches c !! id)
  ∧ batch_absent id c2
  ∧ batchesInFlight c2 = delete id (batchesInFlight c)
  ∧ (forall id', id' ≠ id -> batches c2 !! id' = batches c !! id')
  ∧ store_inv c2
  ∧ dispatched (trace c2) = (dispatched (trace c) ++ [id])%list.
Proof.
  intros Hinv Hin Hid Hthr Hopt cb ctx c1 c2.
  pose proof (submitBatchById_named opts now options c id Hopt Hid) as Hsub.
  assert (Hc1 : c1 = emit (PutEvents id (batches c !! id) ctx cb)
                       (set_batchesInFlight (<[id := now]> (batchesInFlight c)) c)).
  { unfold c1. rewrite Hsub. reflexivity. }
  assert (Hinv1 : store_inv c1) by (rewrite Hc1; exact Hinv).
  split; [rewrite Hsub; reflexivity|].
  split; [rewrite Hc1; reflexivity|].
  split.
  { destruct Hinv as [_ Hdom]. apply elem_of_dom. rewrite Hdom.
    apply elem_of_list_to_set. exact Hin. }
  destruct (handlePutEventsResponse_fields opts id cb None data now' c1)
    as (H1 & H2 & _). cbn [clears_batch] in H1, H2. fold c2 in H1, H2.
  split; [unfold batch_absent; rewrite H1, H2; apply clearBatchById_absent, Hinv1|].
  assert (Hc2 : c2 = after_callback id cb None data c1).
  { unfold c2. rewrite handlePutEventsResponse_unfold.
    rewrite Hc1 at 1. cbn [isThrottled emit set_batchesInFlight]. rewrite Hthr.
    reflexivity. }
  destruct (after_callback_fields id cb None data c1) as (_ & _ & _ & _ & _ & A6).
  destruct (after_callback_trace id cb None data c1) as (pre & Htr & Hpre).
  rewrite <- Hc2 in A6, Htr.
  split.
  { rewrite A6, Hc1. cbn. apply delete_insert_eq. }
  split.
  { intros id' Hne. rewrite H1. unfold clearBatchById.
    destruct (indexOf (batchIndex c1) id); [|rewrite Hc1; reflexivity].
    cbn. rewrite lookup_delete_ne by congruence. rewrite Hc1. reflexivity. }
  split.
  { unfold store_inv. rewrite H1, H2. apply clearBatchById_inv, Hinv1. }
  rewrite Htr, !dispatched_app, Hpre, Hc1. cbn. rewrite dispatched_app. cbn.
  rewrite !app_nil_r. reflexivity.
Qed.

Lemma dispatch_then_success_witness :
  let options := {| opt_batchId := Some "batch-1"; opt_submitCallback := None;
                    opt_clientContext := None |} in
  let c1 := snd (submitBatchById Sample.opts 1404155275000 options Sample.two_batches) in
  let c2 := handlePutEventsResponse Sample.opts "batch-1" "submitCallback" None ""
              1404155276000 c1 in
  batch_absent "batch-1" c2
  ∧ batchesInFlight c2 = delete "batch-1" (batchesInFlight Sample.two_batches)
  ∧ (forall id', id' ≠ "batch-1" ->
                 batches c2 !! id' = batches Sample.two_batches !! id')
  ∧ store_inv c2
  ∧ dispatched (trace c2) = (dispatched (trace Sample.two_batches) ++ ["batch-1"])%list.
Proof.
  intros options c1 c2.
  apply (dispatch_then_success Sample.opts 1404155275000 1404155276000 options
           "batch-1" "" Sample.two_batches).
  - split.
    + apply (bool_decide_unpack _). vm_compute. exact I.
    + vm_compute. reflexivity.
  - apply (bool_decide_unpack _). vm_compute. exact I.
  - discriminate.
  - reflexivity.
  - reflexivity.
Defined.

(** ** Monetization events without a quantity *)

Lemma get_set_prop_eq (o : JsDict) (name : string) (v : JsVal) :
  get_prop (set_prop o name v) name = v ∧ name ∈ Object_keys (set_prop o name v).
Proof.
  induction o as [|[k x] o IH]; simpl.
  - rewrite String.eqb_refl. split; [reflexivity | left].
  - destruct (String.eqb_spec k name) as [->|Hne]; simpl.
    + rewrite String.eqb_refl. split; [reflexivity | left].
    + destruct (String.eqb_spec k name); [contradiction|].
      destruct IH as [IH1 IH2]. split; [exact IH1 | right; exact IH2].
Qed.

Lemma get_set_prop_ne (o : JsDict) (name name' : string) (v : JsVal) :
  name ≠ name' ->
  get_prop (set_prop o name' v) name = get_prop o name
  ∧ (name ∈ Object_keys o -> name ∈ Object_keys (set_prop o name' v)).
Proof.
  intros Hne. induction o as [|[k x] o IH]; simpl.
  - destruct (String.eqb_spec name' name); [congruence|].
    split; [reflexivity|]. intros H. apply elem_of_nil in H. contradiction.
  - destruct (String.eqb_spec k name') as [->|Hk]; simpl.
    + destruct (String.eqb_spec name' name); [congruence|]. split; [reflexivity|].
      intros H. apply elem_of_cons in H as [->|H]; [contradiction | right; exact H].
    + destruct IH as [IH1 IH2].
      destruct (String.eqb_spec k name); [split; [reflexivity|]|split; [exact IH1|]].
      * intros _. subst k. left.
      * intros H. apply elem_of_cons in H as [->|H]; [left | right; apply IH2, H].
Qed.

Lemma not_numeric_metric_fails (event : Event) (name : string) :
  name ∈ Object_keys (metrics event) ->
  is_number (get_prop (metrics event) name) = false ->
  schema_ok event = false.
Proof.
  intros Hin Hnum. unfold schema_ok.
  assert (H : forallb (fun name => is_number (get_prop (metrics event) name))
                      (Object_keys (metrics event)) = false).
  { apply not_true_is_false. intros Hall. rewrite forallb_forall in Hall.
    rewrite (Hall name) in Hnum; [discriminate|]. apply list_elem_of_In. exact Hin. }
  rewrite H, andb_false_r. reflexivity.
Qed.

Lemma createEvent_valid_metrics (U : Env) (opts : Options) (nowISO : string)
    (ty : JsVal) (sess : SessionArg) (attrs mets : option JsDict)
    (log : list Effect) (ev : Event) :
  createEvent U opts nowISO ty sess attrs mets = (log, Normal (Some ev)) ->
  schema_ok ev = true
  ∧ metrics ev = mergeObjects U (default [] mets) (globalMetrics opts).
Proof.
  unfold createEvent.
  destruct (stringifyAttributes U _ _) as [attributes'|err]; [|discriminate].
  match goal with
  | |- validateEvent ?e = _ -> _ => rewrite (validateEvent_schema_cases e);
      destruct (schema_ok e) eqn:Hok; [|discriminate]
  end.
  intros [= _ <-]. split; [exact Hok|].
  destruct (truthy (arg_stopTimestamp sess)); reflexivity.
Qed.

Lemma createEvent_not_null (U : Env) (opts : Options) (nowISO : string)
    (ty : JsVal) (sess : SessionArg) (attrs mets : option JsDict) (log : list Effect) :
  createEvent U opts nowISO ty sess attrs mets ≠ (log, Normal None).
Proof.
  unfold createEvent.
  destruct (stringifyAttributes U _ _) as [attributes'|err]; [|discriminate].
  match goal with
  | |- context [validateEvent ?e] =>
      destruct (validateEvent_two_ways e) as [H|[err H]]; rewrite H
  end; discriminate.
Qed.

(** X7. A monetization event whose details give no quantity (or quantity 0),
    with no numeric [_quantity] among the given metrics and no global
    metrics, is never recorded: [_quantity] is set to a value that is not a
    number, the validator rejects the event, and the call ends in an
    exception with the client unchanged. *)
Theorem recordMonetizationEvent_needs_quantity (U : Env) (opts : Options) (fuel : nat)
    (nowISO : string) (now : Z) (rnd : Q) (sess : SessionArg)
    (details : MonetizationDetails) (attrs mets : option JsDict) (c : Client) :
  truthy (quantity details) = false ->
  is_number (get_prop (default [] mets) "_quantity") = false ->
  globalMetrics opts = [] ->
  (forall m : JsDict, mergeObjects U m [] = m) ->
  exists err : JsError,
    recordMonetizationEvent U opts fuel nowISO now rnd sess details attrs mets c
    = Some (Throw err, c).
Proof.
  intros Hq Hold Hglobal Hmerge.
  unfold recordMonetizationEvent.
  set (m1 := set_prop (default [] mets) "_quantity"
               (js_or (quantity details) (get_prop (default [] mets) "_quantity"))).
  assert (Hm1 : get_prop m1 "_quantity" = get_prop (default [] mets) "_quantity"
                ∧ "_quantity" ∈ Object_keys m1).
  { unfold m1, js_or. rewrite Hq. apply get_set_prop_eq. }
  match goal with
  | |- context [let '(a, m) := ?p in _] =>
      assert (Hm : get_prop (snd p) "_quantity" = get_prop (default [] mets) "_quantity"
                   ∧ "_quantity" ∈ Object_keys (snd p));
        [|destruct p as [a2 m2] eqn:Ep]
  end.
  { destruct (is_number (price details)); cbn [snd]; [|exact Hm1].
    destruct (get_set_prop_ne m1 "_quantity" "_item_price"
                (js_or (price details) (get_prop m1 "_item_price"))) as [G1 G2];
      [discriminate|].
    destruct Hm1 as [Hm1 Hk]. split; [rewrite G1; exact Hm1 | apply G2, Hk]. }
  cbn [snd] in Hm. destruct Hm as [Hval Hkey].
  unfold recordEvent.
  destruct (createEvent U opts nowISO (JsString "_monetization.purchase") sess
              (Some a2) (Some m2)) as [log res] eqn:Hcreate.
  pose proof (createEvent_silent _ _ _ _ _ _ _ _ _ Hcreate) as ->.
  cbn [fold_left].
  destruct res as [[ev|]|err]; [exfalso|exfalso|eauto].
  - destruct (createEvent_valid_metrics _ _ _ _ _ _ _ _ _ Hcreate) as [Hok Hmet].
    rewrite Hglobal, Hmerge in Hmet. cbn in Hmet.
    assert (Hbad : schema_ok ev = false).
    { apply (not_numeric_metric_fails ev "_quantity"); rewrite Hmet;
        [exact Hkey | rewrite Hval; exact Hold]. }
    congruence.
  - exact (createEvent_not_null _ _ _ _ _ _ _ _ Hcreate).
Qed.

Lemma recordMonetizationEvent_needs_quantity_witness :
  exists err : JsError,
    recordMonetizationEvent Sample.env Sample.opts 0 Sample.stop_iso 1404155268885
      (1 # 2) Sample.closed_session Sample.purchase_without_quantity None None
      Sample.fresh
    = Some (Throw err, Sample.fresh).
Proof.
  apply (recordMonetizationEvent_needs_quantity Sample.env Sample.opts 0
           Sample.stop_iso 1404155268885 (1 # 2) Sample.closed_session
           Sample.purchase_without_quantity None None Sample.fresh).
  - reflexivity.
  - reflexivity.
  - reflexivity.
  - intros m. reflexivity.
Defined.

(** With a quantity the same purchase is queued, the price among the metrics. *)
Example purchase_with_quantity_is_queued :
  exists ev c',
    recordMonetizationEvent Sample.env Sample.opts 0 Sample.stop_iso 1404155268885
      (1 # 2) Sample.closed_session
      {| currency := JsString "USD"; productId := JsString "sword";
         quantity := JsNumber (Fin 2); price := JsNumber (Fin (199 # 100)) |}
      None None Sample.fresh
    = Some (Normal (Some ev), c')
    ∧ eventType ev = JsString "_monetization.purchase"
    ∧ metrics ev = [("_quantity", JsNumber (Fin 2));
                    ("_item_price", JsNumber (Fin (199 # 100)))]
    ∧ attributes ev = [("_currency", JsString "USD"); ("_product_id", JsString "sword")]
    ∧ events c' = [ev].
Proof. do 2 eexists. vm_compute. repeat split. Qed.

(** ** The throttle gate over time *)

Lemma passes_throttle_gate_iff (now : Z) (rnd : Q) (c : Client) :
  passes_throttle_gate now rnd c
  <-> isThrottled c = false
      ∨ js_lt (throttlingSuppressionFunction None now c) (Fin rnd) = false.
Proof.
  unfold passes_throttle_gate. destruct (isThrottled c) eqn:Hthr.
  - rewrite (throttled_warnMessage now rnd c Hthr).
    destruct (js_lt _ _); split; intros H.
    + exfalso. apply H. reflexivity.
    + destruct H as [H|H]; discriminate H.
    + right. reflexivity.
    + discriminate.
  - split; [left; reflexivity|]. intros _. unfold warnMessage. rewrite Hthr. cbn [andb].
    repeat match goal with
           | |- context [if ?b then _ else _] => destruct b
           end; discriminate.
Qed.

(** X17. Waiting never closes the throttle gate: with the last submission at
    or before [now], a draw that passes at [now] passes at every later
    time. *)
Theorem throttle_gate_stays_open (now now' last : Z) (rnd : Q) (c : Client) :
  lastSubmitTimestamp c = Some last ->
  (last <= now)%Z ->
  (now <= now')%Z ->
  passes_throttle_gate now rnd c ->
  passes_throttle_gate now' rnd c.
Proof.
  intros Hlast H1 H2. rewrite !passes_throttle_gate_iff.
  intros [Hthr|Hpass]; [left; exact Hthr | right].
  rewrite (suppression_value now last c Hlast) in Hpass.
  rewrite (suppression_value now' last c Hlast).
  unfold js_lt in *. apply negb_false_iff in Hpass. apply negb_false_iff.
  apply Qle_bool_iff in Hpass. apply Qle_bool_iff.
  eapply Qle_trans; [exact Hpass|].
  apply Qmult_le_compat_r.
  - unfold Qle, inject_Z. cbn [Qnum Qden]. nia.
  - apply Qinv_le_0_compat. unfold Qle, inject_Z. cbn. lia.
Qed.

Lemma throttle_gate_stays_open_witness :
  passes_throttle_gate 1404155330000 (1 # 4)
    (set_lastSubmitTimestamp (Some 1404155270000%Z) Sample.throttled_two_batches).
Proof.
  apply (throttle_gate_stays_open 1404155300000 1404155330000 1404155270000 (1 # 4)
           (set_lastSubmitTimestamp (Some 1404155270000%Z) Sample.throttled_two_batches)).
  - reflexivity.
  - lia.
  - lia.
  - vm_compute. discriminate.
Defined.

(** X18. A client that has never gone through [submitEvents] has an undefined
    [lastSubmitTimestamp]; the suppression value is then [NaN], which is less
    than no draw, so the throttle gate lets every call through, and a
    throttled client with nothing in flight passes the whole gate. *)
Theorem throttle_gate_without_last_submit (now : Z) (rnd : Q) (c : Client) :
  lastSubmitTimestamp c = None ->
  throttlingSuppressionFunction None now c = NaN
  ∧ passes_throttle_gate now rnd c
  ∧ (batchesInFlight c = ∅ -> warnMessage now rnd c = None).
Proof.
  intros Hlast.
  assert (Hnan : throttlingSuppressionFunction None now c = NaN).
  { unfold throttlingSuppressionFunction. rewrite Hlast. reflexivity. }
  split; [exact Hnan|]. split.
  - apply passes_throttle_gate_iff. right. rewrite Hnan. reflexivity.
  - intros Hfl. unfold warnMessage, submitted_under_a_second_ago, batches_length_is_0.
    rewrite Hnan, Hfl, Hlast. cbn. rewrite andb_false_r. cbn.
    destruct (batches c !! "length"); reflexivity.
Qed.

Lemma throttle_gate_without_last_submit_witness :
  throttlingSuppressionFunction None 1404155330000
    (set_batchesInFlight ∅ Sample.throttled_two_batches) = NaN
  ∧ passes_throttle_gate 1404155330000 (99 # 100)
      (set_batchesInFlight ∅ Sample.throttled_two_batches)
  ∧ (batchesInFlight (set_batchesInFlight ∅ Sample.throttled_two_batches) = ∅ ->
     warnMessage 1404155330000 (99 # 100)
       (set_batchesInFlight ∅ Sample.throttled_two_batches) = None).
Proof.
  apply (throttle_gate_without_last_submit 1404155330000 (99 # 100)
           (set_batchesInFlight ∅ Sample.throttled_two_batches)).
  reflexivity.
Defined.

(** ** Attribute values in [createEvent] *)

Lemma keys_set_prop (o : JsDict) (name : string) (v : JsVal) :
  name ∈ Object_keys o -> Object_keys (set_prop o name v) = Object_keys o.
Proof.
  induction o as [|[k x] o IH]; simpl; intros Hin.
  - apply elem_of_nil in Hin. contradiction.
  - destruct (String.eqb_spec k name) as [->|Hne]; [reflexivity|]. simpl. f_equal.
    apply IH. apply elem_of_cons in Hin as [->|Hin]; [contradiction | exact Hin].
Qed.

Lemma stringifyAttributes_spec (U : Env) (names : list string) :
  forall attrs attrs' : JsDict,
    NoDup names ->
    (forall n, n ∈ names -> n ∈ Object_keys attrs) ->
    stringifyAttributes U names attrs = Normal attrs' ->
    Object_keys attrs' = Object_keys attrs
    ∧ (forall n, n ∉ names -> get_prop attrs' n = get_prop attrs n)
    ∧ (forall n, n ∈ names ->
          if is_string (get_prop attrs n)
          then get_prop attrs' n = get_prop attrs n
          else JSON_stringify U (get_prop attrs n) = Normal (get_prop attrs' n)).
Proof.
  induction names as [|name names IH]; intros attrs attrs' Hnd Hkeys Hrun.
  - simpl in Hrun. injection Hrun as <-. split; [reflexivity|]. split; [reflexivity|].
    intros n Hn. apply elem_of_nil in Hn. contradiction.
  - apply NoDup_cons in Hnd as [Hname Hnd]. cbn [stringifyAttributes] in Hrun.
    destruct (is_string (get_prop attrs name)) eqn:Hstr.
    + destruct (IH attrs attrs' Hnd) as (K & F & V);
        [intros n Hn; apply Hkeys; right; exact Hn | exact Hrun |].
      split; [exact K|]. split.
      * intros n Hn. apply not_elem_of_cons in Hn as [_ Hn]. apply F, Hn.
      * intros n Hn. apply elem_of_cons in Hn as [->|Hn]; [|apply V, Hn].
        rewrite Hstr. apply F, Hname.
    + destruct (JSON_stringify U (get_prop attrs name)) as [v|err] eqn:Hjson;
        [|discriminate].
      assert (Hin : name ∈ Object_keys attrs) by (apply Hkeys; left).
      destruct (IH (set_prop attrs name v) attrs' Hnd) as (K & F & V);
        [intros n Hn; rewrite keys_set_prop by exact Hin; apply Hkeys; right; exact Hn
        | exact Hrun |].
      rewrite keys_set_prop in K by exact Hin.
      split; [exact K|]. split.
      * intros n Hn. apply not_elem_of_cons in Hn as [Hne Hn].
        rewrite (F n Hn). apply get_set_prop_ne. exact Hne.
      * intros n Hn. apply elem_of_cons in Hn as [->|Hn].
        -- rewrite Hstr, (F name Hname).
           rewrite (proj1 (get_set_prop_eq attrs name v)). exact Hjson.
        -- assert (Hne : n ≠ name) by (intros ->; contradiction).
           specialize (V n Hn).
           rewrite (proj1 (get_set_prop_ne attrs n name v Hne)) in V. exact V.
Qed.

(** X6. The loop of [createEvent] over the attributes, on an object whose
    keys are distinct, keeps the keys and their order, keeps every value
    that is a string, and replaces every other value by what
    [JSON.stringify] returns for it. *)
Theorem stringifyAttributes_values (U : Env) (attrs attrs' : JsDict) :
  NoDup (Object_keys attrs) ->
  stringifyAttributes U (Object_keys attrs) attrs = Normal attrs' ->
  Object_keys attrs' = Object_keys attrs
  ∧ (forall name, name ∈ Object_keys attrs ->
        if is_string (get_prop attrs name)
        then get_prop attrs' name = get_prop attrs name
        else JSON_stringify U (get_prop attrs name) = Normal (get_prop attrs' name))
  ∧ (forall name, name ∉ Object_keys attrs -> get_prop attrs' name = JsUndefined).
Proof.
  intros Hnd Hrun.
  destruct (stringifyAttributes_spec U (Object_keys attrs) attrs attrs' Hnd
              (fun n H => H) Hrun) as (K & F & V).
  split; [exact K|]. split; [exact V|].
  intros name Hname. rewrite (F name Hname).
  clear -Hname. induction attrs as [|[k x] o IH]; simpl in *; [reflexivity|].
  apply not_elem_of_cons in Hname as [Hne Hname].
  destruct (String.eqb_spec k name); [congruence | apply IH, Hname].
Qed.

Lemma stringifyAttributes_values_witness :
  let attrs := [("name", JsString "Ann"); ("vip", JsBool true); ("level", JsNull)] in
  let attrs' := [("name", JsString "Ann"); ("vip", JsString "true");
                 ("level", JsString "null")] in
  Object_keys attrs' = Object_keys attrs
  ∧ (forall name, name ∈ Object_keys attrs ->
        if is_string (get_prop attrs name)
        then get_prop attrs' name = get_prop attrs name
        else JSON_stringify Sample.env (get_prop attrs name)
             = Normal (get_prop attrs' name))
  ∧ (forall name, name ∉ Object_keys attrs -> get_prop attrs' name = JsUndefined).
Proof.
  intros attrs attrs'.
  apply (stringifyAttributes_values Sample.env attrs attrs').
  - apply (bool_decide_unpack _). vm_compute. exact I.
  - reflexivity.
Defined.

(** ** An id drawn twice *)

(** X11. [persistBatch] does not look whether the id it draws is already in
    use.  When it is, the new batch replaces the events stored under that
    id, and the id is appended to [batchIndex] a second time, so the
    invariant of the Batch Store no longer holds. *)
Theorem persistBatch_id_in_use (U : Env) (eventBatch : list Event) (c : Client) :
  GUID U (guidCalls c) ∈ batchIndex c ->
  (getRequestBodySize U eventBatch < HARD_CAP)%Z ->
  fst (persistBatch U eventBatch c) = true
  ∧ batches (snd (persistBatch U eventBatch c)) !! GUID U (guidCalls c) = Some eventBatch
  ∧ batchIndex (snd (persistBatch U eventBatch c))
    = (batchIndex c ++ [GUID U (guidCalls c)])%list
  ∧ ~ store_inv (snd (persistBatch U eventBatch c)).
Proof.
  intros Hin Hfit. unfold persistBatch.
  destruct (Z.ltb_spec (getRequestBodySize U eventBatch) HARD_CAP); [|lia].
  cbn. split; [reflexivity|]. split; [apply lookup_insert_eq|]. split; [reflexivity|].
  intros [Hnd _]. cbn in Hnd. apply NoDup_app in Hnd as (_ & Hdisj & _).
  apply (Hdisj _ Hin). left.
Qed.

Lemma persistBatch_id_in_use_witness :
  let c := set_guidCalls 0 Sample.two_batches in
  fst (persistBatch Sample.env [Sample.event "three" [] []] c) = true
  ∧ batches (snd (persistBatch Sample.env [Sample.event "three" [] []] c)) !! "batch-0"
    = Some [Sample.event "three" [] []]
  ∧ batchIndex (snd (persistBatch Sample.env [Sample.event "three" [] []] c))
    = ["batch-0"; "batch-1"; "batch-0"]
  ∧ ~ store_inv (snd (persistBatch Sample.env [Sample.event "three" [] []] c)).
Proof.
  intros c.
  apply (persistBatch_id_in_use Sample.env [Sample.event "three" [] []] c).
  - apply (bool_decide_unpack _). vm_compute. exact I.
  - vm_compute. reflexivity.
Defined.

(** ** Responses in either order *)

Lemma clearBatchById_known_eq (batchId : string) (c : Client) :
  NoDup (batchIndex c) -> batchId ∈ batchIndex c ->
  clearBatchById batchId c
  = persist_BATCHES
      (persist_BATCH_INDEX
         (set_batchIndex
            (List.filter (fun id => negb (String.eqb id batchId)) (batchIndex c))
            (set_batches (delete batchId (batches c)) c))).
Proof.
  intros Hnd Hin. destruct (indexOf_elem _ _ Hin) as [i Hi].
  unfold clearBatchById. rewrite Hi. cbn [batchIndex set_batches].
  rewrite (delete_first_filter _ _ _ Hnd Hi). reflexivity.
Qed.

Lemma filter_swap (A : Type) (f g : A -> bool) (l : list A) :
  List.filter f (List.filter g l) = List.filter g (List.filter f l).
Proof.
  induction l as [|x l IH]; simpl; [reflexivity|].
  destruct (f x) eqn:Ef, (g x) eqn:Eg; simpl; rewrite ?Ef, ?Eg, IH; reflexivity.
Qed.

Lemma elem_of_filter_ne (l : list string) (a b : string) :
  a ≠ b -> (a ∈ List.filter (fun id => negb (String.eqb id b)) l <-> a ∈ l).
Proof.
  intros Hne. rewrite !list_elem_of_In, filter_In. split; [tauto|].
  intros H. split; [exact H|]. apply negb_true_iff.
  destruct (String.eqb_spec a b); [contradiction | reflexivity].
Qed.

(** X22. On an index without duplicates, clearing two batches gives the same
    client whichever is cleared first: the order in which the responses of
    two batches arrive does not matter for what is left in the store. *)
Theorem clearBatchById_commutes (a b : string) (c : Client) :
  NoDup (batchIndex c) ->
  clearBatchById a (clearBatchById b c) = clearBatchById b (clearBatchById a c).
Proof.
  intros Hnd.
  destruct (decide (a = b)) as [->|Hne]; [reflexivity|].
  assert (Hfa : forall x (c0 : Client), NoDup (batchIndex c0) ->
            NoDup (batchIndex (clearBatchById x c0))).
  { intros x c0 H. apply (clearBatchById_index x c0 H). }
  assert (Hmem : forall x y (c0 : Client), x ≠ y -> NoDup (batchIndex c0) ->
            (x ∈ batchIndex (clearBatchById y c0) <-> x ∈ batchIndex c0)).
  { intros x y c0 Hxy H0.
    destruct (decide (y ∈ batchIndex c0)) as [Hy|Hy].
    - rewrite (clearBatchById_known_eq y c0 H0 Hy).
      cbn [batchIndex persist_BATCHES persist_BATCH_INDEX set_storage set_batchIndex
           set_batches].
      apply elem_of_filter_ne, Hxy.
    - rewrite clearBatchById_unknown by exact Hy. reflexivity. }
  destruct (decide (a ∈ batchIndex c)) as [Ha|Ha], (decide (b ∈ batchIndex c)) as [Hb|Hb].
  - rewrite (clearBatchById_known_eq a (clearBatchById b c)), (clearBatchById_known_eq b c),
      (clearBatchById_known_eq b (clearBatchById a c)), (clearBatchById_known_eq a c);
      try assumption; try (apply Hfa; assumption);
      try (apply Hmem; [congruence | assumption | assumption]).
    cbn [events batches batchIndex batchesInFlight isThrottled lastSubmitTimestamp
         storage guidCalls trace persist_BATCHES persist_BATCH_INDEX set_storage
         set_batchIndex set_batches EVENTS BATCHES BATCH_INDEX].
    rewrite (delete_delete (batches c) a b), (filter_swap _ _ _ (batchIndex c)).
    reflexivity.
  - rewrite (clearBatchById_unknown b c Hb).
    rewrite (clearBatchById_unknown b (clearBatchById a c)); [reflexivity|].
    intros H. apply Hb. apply (Hmem b a c); [congruence | exact Hnd | exact H].
  - rewrite (clearBatchById_unknown a c Ha).
    rewrite (clearBatchById_unknown a (clearBatchById b c)); [reflexivity|].
    intros H. apply Ha. apply (Hmem a b c); [exact Hne | exact Hnd | exact H].
  - rewrite (clearBatchById_unknown b c Hb), (clearBatchById_unknown a c Ha),
      (clearBatchById_unknown b c Hb). reflexivity.
Qed.

Lemma clearBatchById_commutes_witness :
  clearBatchById "batch-0" (clearBatchById "batch-1" Sample.two_batches)
  = clearBatchById "batch-1" (clearBatchById "batch-0" Sample.two_batches).
Proof.
  apply (clearBatchById_commutes "batch-0" "batch-1" Sample.two_batches).
  apply (bool_decide_unpack _). vm_compute. exact I.
Defined.

(** ** The Batch Store across batch generation *)

Section FreshIds.

Variable U : Env.
Variable opts : Options.

(** Distinct draws from [Util.GUID] give distinct ids. *)
Hypothesis GUID_distinct : forall i j : nat, GUID U i = GUID U j -> i = j.

Lemma generateBatches_turn_inv (c : Client) :
  store_inv c ->
  (forall n, guidCalls c <= n -> GUID U n ∉ batchIndex c) ->
  store_inv (generateBatches_turn U opts c)
  ∧ (forall n, guidCalls (generateBatches_turn U opts c) <= n ->
               GUID U n ∉ batchIndex (generateBatches_turn U opts c)).
Proof.
  intros Hinv Hfresh.
  destruct (generateBatches_turn_cases U opts c) as [[-> _]|(_ & _ & Hb & Hi & Hg)].
  - split; [exact Hinv | exact Hfresh].
  - destruct Hinv as [Hnd Hdom].
    assert (Hg0 : GUID U (guidCalls c) ∉ batchIndex c) by (apply Hfresh; lia).
    split.
    + unfold store_inv. rewrite Hb, Hi. split.
      * apply NoDup_app. split; [exact Hnd|]. split; [|apply NoDup_singleton].
        intros x Hx Hx'. apply list_elem_of_singleton in Hx'. subst x. contradiction.
      * rewrite dom_insert_L, Hdom, list_to_set_app_L. simpl.
        rewrite (right_id_L ∅ (∪)). apply (comm_L (∪)).
    + intros n Hn. rewrite Hg in Hn. rewrite Hi. intros Hin.
      apply elem_of_app in Hin as [Hin|Hin].
      * apply (Hfresh n); [lia | exact Hin].
      * apply list_elem_of_singleton in Hin. apply GUID_distinct in Hin. lia.
Qed.

Lemma generateBatches_inv (fuel : nat) :
  forall c c' : Client,
    store_inv c ->
    (forall n, guidCalls c <= n -> GUID U n ∉ batchIndex c) ->
    generateBatches U opts fuel c = Some c' ->
    store_inv c'.
Proof.
  induction fuel as [|fuel IH]; intros c c' Hinv Hfresh Hrun; simpl in Hrun.
  - destruct (events c); [congruence | discriminate].
  - destruct (events c); [congruence|].
    destruct (generateBatches_turn_inv c Hinv Hfresh) as [Hinv1 Hfresh1].
    exact (IH _ _ Hinv1 Hfresh1 Hrun).
Qed.

(** X10. When the ids that [Util.GUID] has yet to give are distinct and none
    of them is in [batchIndex], a [generateBatches] call that returns keeps
    the invariant of the Batch Store, keeps the old index as the beginning of
    the new one, and keeps the events of every batch that was stored before
    the call. *)
Theorem generateBatches_keeps_store (fuel : nat) (c c' : Client) :
  store_inv c ->
  (forall n, guidCalls c <= n -> GUID U n ∉ batchIndex c) ->
  generateBatches U opts fuel c = Some c' ->
  store_inv c'
  ∧ (exists ids, batchIndex c' = (batchIndex c ++ ids)%list)
  ∧ (forall id, id ∈ batchIndex c -> batches c' !! id = batches c !! id).
Proof.
  intros Hinv Hfresh Hrun.
  split; [exact (generateBatches_inv fuel c c' Hinv Hfresh Hrun)|].
  destruct (generateBatches_order U opts GUID_distinct fuel c c' Hrun)
    as (_ & ids & Hidx & Hids & _ & Hframe).
  split; [exists ids; exact Hidx|].
  intros id Hid. apply Hframe. rewrite Hids. intros Hin.
  apply list_elem_of_In, in_map_iff in Hin as (n & <- & Hn). apply in_seq in Hn.
  apply (Hfresh n); [lia | exact Hid].
Qed.

End FreshIds.

Lemma generateBatches_keeps_store_witness :
  let c := persist_EVENTS (set_events Sample.three_events Sample.two_batches) in
  exists c',
    generateBatches Sample.env Sample.small_batches 3 c = Some c'
    ∧ store_inv c'
    ∧ (exists ids, batchIndex c' = (batchIndex c ++ ids)%list)
    ∧ (forall id, id ∈ batchIndex c -> batches c' !! id = batches c !! id).
Proof.
  intros c.
  assert (Hinv : store_inv c).
  { split.
    - apply (bool_decide_unpack _). vm_compute. exact I.
    - vm_compute. reflexivity. }
  assert (Hfresh : forall n, guidCalls c <= n -> GUID Sample.env n ∉ batchIndex c).
  { intros n Hn Hin.
    assert (Hcalls : guidCalls c = 2) by reflexivity.
    assert (Hidx : batchIndex c = [GUID Sample.env 0; GUID Sample.env 1]) by reflexivity.
    rewrite Hcalls in Hn. rewrite Hidx in Hin.
    apply elem_of_cons in Hin as [Hin|Hin];
      [apply sample_GUID_distinct in Hin; lia|].
    apply elem_of_cons in Hin as [Hin|Hin];
      [apply sample_GUID_distinct in Hin; lia|].
    apply elem_of_nil in Hin. exact Hin. }
  destruct (generateBatches Sample.env Sample.small_batches 3 c) as [c'|] eqn:Hrun.
  - exists c'. split; [reflexivity|].
    exact (generateBatches_keeps_store Sample.env Sample.small_batches
             sample_GUID_distinct 3 c c' Hinv Hfresh Hrun).
  - exfalso. vm_compute in Hrun. discriminate Hrun.
Defined.
